(** * little_boxes.activitypub: a shallow embedding of the ActivityPub engine

    The development follows [little_boxes/activitypub.py]: JSON values as the
    Python data the activities carry, the [BaseActivity] objects with their
    [_data] dictionary, object cache and weak context reference, the injected
    backend as a record of operations over an abstract store, and the inbox and
    outbox pipelines as computations in a state-and-exception monad. *)

From Stdlib Require Import List String Ascii Bool ZArith Arith Lia DecimalString.
Import ListNotations.
Local Open Scope string_scope.
Local Open Scope list_scope.

Set Implicit Arguments.
Set Warnings "-register-all".

(** ** Python values *)

(** The values stored in an activity are the JSON values Python's [json]
    module produces: [None], booleans, integers, strings, lists and
    dictionaries with string keys (kept in insertion order, keys unique). *)
Inductive json : Type :=
| JNone
| JBool (b : bool)
| JNum (z : Z)
| JStr (s : string)
| JList (l : list json)
| JDict (d : list (string * json)).

Definition dict := list (string * json).

Module Dict.

(** [d.get(k)] *)
Fixpoint get (k : string) (d : dict) : option json :=
  match d with
  | [] => None
  | (k', v) :: r => if String.eqb k k' then Some v else get k r
  end.

(** [k in d] *)
Definition mem (k : string) (d : dict) : bool :=
  match get k d with Some _ => true | None => false end.

(** [d[k] = v]: an existing key keeps its position. *)
Fixpoint set (k : string) (v : json) (d : dict) : dict :=
  match d with
  | [] => [(k, v)]
  | (k', v') :: r =>
      if String.eqb k k' then (k, v) :: r else (k', v') :: set k v r
  end.

(** [del d[k]] for a key that is present, [d.pop(k, None)] in general:
    keys are unique, so whatever is stored under the key goes. *)
Definition remove (k : string) (d : dict) : dict :=
  filter (fun kv => negb (String.eqb k (fst kv))) d.

(** [d.update(e)], keyword form *)
Definition update (d e : dict) : dict :=
  fold_left (fun acc kv => set (fst kv) (snd kv) acc) e d.

Definition keys (d : dict) : list string := map fst d.

End Dict.

(** Python's [==] on JSON values: structural, with dictionaries compared
    regardless of insertion order and booleans equal to the integers 0 and 1. *)
Fixpoint py_eq (a b : json) {struct a} : bool :=
  match a, b with
  | JNone, JNone => true
  | JBool x, JBool y => Bool.eqb x y
  | JNum x, JNum y => Z.eqb x y
  | JBool x, JNum y => Z.eqb (if x then 1 else 0) y
  | JNum x, JBool y => Z.eqb x (if y then 1 else 0)
  | JStr x, JStr y => String.eqb x y
  | JList l1, JList l2 =>
      (fix go (l1 l2 : list json) {struct l1} : bool :=
         match l1, l2 with
         | [], [] => true
         | x :: xs, y :: ys => py_eq x y && go xs ys
         | _, _ => false
         end) l1 l2
  | JDict d1, JDict d2 =>
      Nat.eqb (List.length d1) (List.length d2) &&
      (fix all (d : dict) {struct d} : bool :=
         match d with
         | [] => true
         | (k, v) :: r =>
             match Dict.get k d2 with
             | Some v' => py_eq v v'
             | None => false
             end && all r
         end) d1
  | _, _ => false
  end.

(** Two JSON values written alike. *)
Fixpoint json_eqb (a b : json) {struct a} : bool :=
  match a, b with
  | JNone, JNone => true
  | JBool x, JBool y => Bool.eqb x y
  | JNum x, JNum y => Z.eqb x y
  | JStr x, JStr y => String.eqb x y
  | JList l1, JList l2 =>
      (fix go (l1 l2 : list json) {struct l1} : bool :=
         match l1, l2 with
         | [], [] => true
         | x :: xs, y :: ys => json_eqb x y && go xs ys
         | _, _ => false
         end) l1 l2
  | JDict d1, JDict d2 =>
      (fix go (d1 d2 : dict) {struct d1} : bool :=
         match d1, d2 with
         | [], [] => true
         | (k, x) :: xs, (k', y) :: ys =>
             String.eqb k k' && json_eqb x y && go xs ys
         | _, _ => false
         end) d1 d2
  | _, _ => false
  end.

(** [x in l] for a Python list [l]. *)
Definition py_in (x : json) (l : list json) : bool := existsb (py_eq x) l.

(** Truthiness, as tested by [if], [and], [not]. *)
Definition truthy (v : json) : bool :=
  match v with
  | JNone => false
  | JBool b => b
  | JNum z => negb (Z.eqb z 0)
  | JStr s => negb (String.eqb s "")
  | JList l => match l with [] => false | _ => true end
  | JDict d => match d with [] => false | _ => true end
  end.

(** [d.get(k)] as a value: [None] when the key is absent. *)
Definition dget (k : string) (d : dict) : json :=
  match Dict.get k d with Some v => v | None => JNone end.

(** [sub in s] for two strings. *)
Fixpoint str_contains (sub s : string) : bool :=
  String.prefix sub s ||
  match s with
  | EmptyString => false
  | String _ r => str_contains sub r
  end.

(** ** Exceptions *)

(** The raise sites of [BadActivityError] and [UnexpectedActivityTypeError];
    the constructor stands for the message of the site. *)
Inductive bad_site : Type :=
| UnsupportedActivityType   (* parse_activity *)
| NoteMissingAttributedTo   (* __init__ *)
| MissingActor              (* __init__ *)
| InvalidObjectMissingType  (* __init__ *)
| ExtraDataLeft             (* __init__ *)
| MissingObjectId           (* _actor_id *)
| InvalidActorField         (* _actor_id *)
| FailedToValidateActor     (* _validate_person *)
| InvalidActorFetched       (* _validate_person *)
| EmbeddedObjectShouldHaveId (* to_dict *)
| FailedToFetchActor        (* get_actor *)
| InvalidActor              (* get_actor *)
| FailedToParse             (* recipients *)
| CannotUpdate              (* Undo / Update _pre_process_from_inbox *)
| CannotDelete.             (* Delete._pre_process_from_inbox *)

Inductive unexpected_site : Type :=
| ExpectedActivity          (* parse_activity *)
| ExpectTheTypeToBe         (* __init__ *)
| UnexpectedObject          (* __init__ *)
| UnexpectedObjectType      (* __init__ *)
| InvalidObjectType.        (* get_object *)

Inductive exn : Type :=
| BadActivityError (why : bad_site)
| UnexpectedActivityTypeError (why : unexpected_site)
| NotFromOutboxError
| UninitializedBackendError
| NotImplementedError
| KeyError (k : string)
| ValueError
| TypeError
| AttributeError
| UnboundLocalError
| IndexError
| RecursionError
| BackendFailure (tag : string).

Definition is_NotImplementedError (e : exn) : bool :=
  match e with NotImplementedError => true | _ => false end.

Definition is_UnexpectedActivityTypeError (e : exn) : bool :=
  match e with UnexpectedActivityTypeError _ => true | _ => false end.

Inductive result (A : Type) : Type :=
| Ok (a : A)
| Raise (e : exn).
Arguments Ok {A} a.
Arguments Raise {A} e.

(** Pure partial operations on JSON values. *)

(** [k in c]: key membership for a dictionary, element membership for a list,
    substring test for a string, [TypeError] otherwise. *)
Definition py_contains (k : string) (c : json) : result bool :=
  match c with
  | JDict d => Ok (Dict.mem k d)
  | JList l => Ok (py_in (JStr k) l)
  | JStr s => Ok (str_contains k s)
  | _ => Raise TypeError
  end.

(** [c[k]] for a string key. *)
Definition py_getitem (c : json) (k : string) : result json :=
  match c with
  | JDict d => match Dict.get k d with Some v => Ok v | None => Raise (KeyError k) end
  | _ => Raise TypeError
  end.

(** [c[k] = v] for a string key. *)
Definition py_setitem (c : json) (k : string) (v : json) : result json :=
  match c with
  | JDict d => Ok (JDict (Dict.set k v d))
  | _ => Raise TypeError
  end.

(** [del c[k]] for a string key. *)
Definition py_delitem (c : json) (k : string) : result json :=
  match c with
  | JDict d => if Dict.mem k d then Ok (JDict (Dict.remove k d)) else Raise (KeyError k)
  | _ => Raise TypeError
  end.

(** [c.get(k)]: only dictionaries have the method. *)
Definition py_get_method (c : json) (k : string) : result json :=
  match c with
  | JDict d => Ok (dget k d)
  | _ => Raise AttributeError
  end.

(** ** Constants *)

Definition CTX_AS := "https://www.w3.org/ns/activitystreams".
Definition CTX_SECURITY := "https://w3id.org/security/v1".
Definition AS_PUBLIC := "https://www.w3.org/ns/activitystreams#Public".

(** ** [ActivityType] *)

Inductive ActivityType : Type :=
| ANNOUNCE | BLOCK | LIKE | CREATE | UPDATE | PERSON
| ORDERED_COLLECTION | ORDERED_COLLECTION_PAGE | COLLECTION_PAGE | COLLECTION
| NOTE | ACCEPT | REJECT | FOLLOW | DELETE | UNDO | IMAGE | TOMBSTONE.

Definition all_ActivityType : list ActivityType :=
  [ANNOUNCE; BLOCK; LIKE; CREATE; UPDATE; PERSON;
   ORDERED_COLLECTION; ORDERED_COLLECTION_PAGE; COLLECTION_PAGE; COLLECTION;
   NOTE; ACCEPT; REJECT; FOLLOW; DELETE; UNDO; IMAGE; TOMBSTONE].

(** [t.value] *)
Definition value (t : ActivityType) : string :=
  match t with
  | ANNOUNCE => "Announce" | BLOCK => "Block" | LIKE => "Like"
  | CREATE => "Create" | UPDATE => "Update" | PERSON => "Person"
  | ORDERED_COLLECTION => "OrderedCollection"
  | ORDERED_COLLECTION_PAGE => "OrderedCollectionPage"
  | COLLECTION_PAGE => "CollectionPage" | COLLECTION => "Collection"
  | NOTE => "Note" | ACCEPT => "Accept" | REJECT => "Reject"
  | FOLLOW => "Follow" | DELETE => "Delete" | UNDO => "Undo"
  | IMAGE => "Image" | TOMBSTONE => "Tombstone"
  end.

Definition ActivityType_eqb (a b : ActivityType) : bool :=
  String.eqb (value a) (value b).

(** [ActivityType(v)]: the member whose value is [v], [ValueError] if none. *)
Definition ActivityType_of (v : json) : result ActivityType :=
  match v with
  | JStr s =>
      match find (fun t => String.eqb (value t) s) all_ActivityType with
      | Some t => Ok t
      | None => Raise ValueError
      end
  | _ => Raise ValueError
  end.

Definition type_in (t : ActivityType) (l : list ActivityType) : bool :=
  existsb (ActivityType_eqb t) l.

(** ** Activities as objects *)

(** An instance of a [BaseActivity] subclass: its class (given by the
    [ACTIVITY_TYPE] of the class), the [_data] dictionary, the private
    attribute [__obj] that caches the object ([None] until it is first
    assigned, then the value assigned, an object or [None]), the private
    [__ctx] slot and the instance attribute [id] that [Create._outbox_set_id]
    plants on the note a [Create] was built from. *)
Inductive activity : Type :=
| mkActivity (cls : ActivityType) (data : dict) (cache : option (option activity))
             (ctx : ctx_slot) (id_attr : option json)
with ctx_slot : Type :=
| CtxDict                             (* the [{}] set by [__init__] *)
| CtxWeak (target : option activity). (* [weakref.ref(ctx)], [None] once dead *)

Definition ACTIVITY_TYPE (a : activity) : ActivityType :=
  let 'mkActivity c _ _ _ _ := a in c.
Definition _data (a : activity) : dict :=
  let 'mkActivity _ d _ _ _ := a in d.
Definition obj_slot (a : activity) : option (option activity) :=
  let 'mkActivity _ _ o _ _ := a in o.
(** The object the cache holds, if it holds one. *)
Definition obj_cache (a : activity) : option activity :=
  match obj_slot a with
  | Some (Some o) => Some o
  | _ => None
  end.
Definition ctx_of (a : activity) : ctx_slot :=
  let 'mkActivity _ _ _ x _ := a in x.
Definition id_attr (a : activity) : option json :=
  let 'mkActivity _ _ _ _ i := a in i.

Definition set_data (d : dict) (a : activity) : activity :=
  let 'mkActivity c _ o x i := a in mkActivity c d o x i.
(** [self.__obj = o] *)
Definition set_cache (o : option activity) (a : activity) : activity :=
  let 'mkActivity c d _ x i := a in mkActivity c d (Some o) x i.
Definition set_ctx_slot (x : ctx_slot) (a : activity) : activity :=
  let 'mkActivity c d o _ i := a in mkActivity c d o x i.
Definition set_id_attr (v : json) (a : activity) : activity :=
  let 'mkActivity c d o x _ := a in mkActivity c d o x (Some v).

(** Class attributes. *)
Definition OBJECT_REQUIRED (t : ActivityType) : bool :=
  match t with
  | BLOCK | FOLLOW | ACCEPT | UNDO | LIKE | ANNOUNCE | DELETE | UPDATE | CREATE => true
  | _ => false
  end.

Definition ACTOR_REQUIRED (t : ActivityType) : bool :=
  match t with
  | PERSON | COLLECTION | IMAGE | TOMBSTONE => false
  | _ => true
  end.

Definition ALLOWED_OBJECT_TYPES (t : ActivityType) : list ActivityType :=
  match t with
  | FOLLOW => [PERSON]
  | ACCEPT => [FOLLOW]
  | UNDO => [FOLLOW; LIKE; ANNOUNCE]
  | LIKE => [NOTE]
  | ANNOUNCE => [NOTE]
  | DELETE => [NOTE; TOMBSTONE]
  | UPDATE => [NOTE; PERSON]
  | CREATE => [NOTE]
  | _ => []
  end.

(** The keys of [_ACTIVITY_CLS] that are members of [ActivityType]: one per
    class statement of the module. *)
Definition _ACTIVITY_CLS : list ActivityType :=
  [PERSON; BLOCK; COLLECTION; IMAGE; FOLLOW; ACCEPT; UNDO; LIKE; ANNOUNCE;
   DELETE; UPDATE; CREATE; TOMBSTONE; NOTE].

(** [__getattr__]: a field of [_data] when it is truthy, [None] otherwise. *)
Definition getattr_data (a : activity) (name : string) : json :=
  let v := dget name (_data a) in if truthy v then v else JNone.

(** [a.id]: the instance attribute when one was set, [__getattr__] otherwise. *)
Definition attr_id (a : activity) : json :=
  match id_attr a with
  | Some v => v
  | None => getattr_data a "id"
  end.

(** ** The backend *)

(** The effectful methods of the backend, each called as
    [BACKEND.m(as_actor, activity)]. *)
Inductive backend_method : Type :=
| inbox_new | outbox_new
| new_follower | undo_new_follower | new_following | undo_new_following
| inbox_like | inbox_undo_like | outbox_like | outbox_undo_like
| inbox_announce | inbox_undo_announce | outbox_announce | outbox_undo_announce
| inbox_delete | outbox_delete | inbox_update | outbox_update
| inbox_create | outbox_create.

Inductive call : Type :=
| Call (m : backend_method) (as_actor : activity) (a : activity)
| post_to_remote_inbox (as_actor : activity) (payload : string) (recp : json).

(** Modelled from the spec: the [Backend] class of [little_boxes/backend.py],
    which the module imports and only calls.  Its queries read a store of type
    [St]; [fetch_iri] may raise; the other methods change the store.  The
    queries give the truth value the caller tests.  The document [fetch_iri]
    returns is the caller's own: what a constructor then does to it in place
    is not seen by the store. *)
Record Backend (St : Type) : Type := {
  fetch_iri : St -> json -> result json;
  outbox_is_blocked : St -> activity -> json -> bool;
  inbox_get_by_iri : St -> activity -> json -> bool;
  is_from_outbox : St -> activity -> bool;
  activity_url : St -> string -> string;
  random_object_id : St -> string * St;
  perform : call -> St -> St
}.

(** ** The state-and-exception monad *)

(** A computation reads and updates a state and either returns or raises; the
    state reached when it raises is kept, as Python keeps mutations made
    before an exception. *)
Definition ST (S A : Type) : Type := S -> result A * S.

Definition ret {S A} (a : A) : ST S A := fun s => (Ok a, s).

Definition raise {S A} (e : exn) : ST S A := fun s => (Raise e, s).

Definition bind {S A B} (m : ST S A) (k : A -> ST S B) : ST S B :=
  fun s =>
    match m s with
    | (Ok a, s') => k a s'
    | (Raise e, s') => (Raise e, s')
    end.

(** [try: m except E: h] where [E] is recognised by [sel]. *)
Definition try_except {S A} (m : ST S A) (sel : exn -> bool) (h : ST S A) : ST S A :=
  fun s =>
    match m s with
    | (Ok a, s') => (Ok a, s')
    | (Raise e, s') => if sel e then h s' else (Raise e, s')
    end.

Definition lift_result {S A} (r : result A) : ST S A := fun s => (r, s).

Declare Scope st_scope.
Delimit Scope st_scope with st.
Notation "x <- m ;; k" := (bind m (fun x => k))
  (at level 61, m at next level, right associativity) : st_scope.
Notation "m ;;; k" := (bind m (fun _ => k))
  (at level 61, right associativity) : st_scope.
Local Open Scope st_scope.

(** The engine's view of the world: the backend's store and, as a ghost
    record, the effectful backend calls issued so far, oldest first. *)
Record world (St : Type) : Type := mkWorld {
  store : St;
  trace : list call
}.

(** A method body runs with its receiver [self] and the world as state. *)
Definition W (St : Type) (A : Type) : Type := ST (world St) A.
Definition Meth (St : Type) (A : Type) : Type := ST (activity * world St) A.

(** Run a world computation inside a method. *)
Definition liftW {St A} (m : W St A) : Meth St A :=
  fun s => let '(r, w) := m (snd s) in (r, (fst s, w)).

(** [o.m(...)]: run a method body on another object; the result comes with
    the object as the call left it. *)
Definition call_on {St A} (o : activity) (m : Meth St A) : W St (result A * activity) :=
  fun w => let '(r, (o', w')) := m (o, w) in (Ok (r, o'), w').

(** Run a computation and hand back its outcome, returned or raised. *)
Definition attempt {S A} (m : ST S A) : ST S (result A) :=
  fun s => let '(r, s') := m s in (Ok r, s').

Definition self {St} : Meth St activity := fun s => (Ok (fst s), s).
Definition put_self {St} (a : activity) : Meth St unit := fun s => (Ok tt, (a, snd s)).
Definition modify_self {St} (f : activity -> activity) : Meth St unit :=
  fun s => (Ok tt, (f (fst s), snd s)).

(** The same notation for pure partial operations. *)
Definition rbind {A B} (r : result A) (k : A -> result B) : result B :=
  match r with
  | Ok a => k a
  | Raise e => Raise e
  end.
Notation "x <~ m ;; k" := (rbind m (fun x => k))
  (at level 61, m at next level, right associativity) : st_scope.

(** ** Helpers of the module *)

(** [_to_list] *)
Definition _to_list (v : json) : list json :=
  match v with
  | JList l => l
  | _ => [v]
  end.

(** [str(v)] where the code applies it; [repr] gives the text of numbers and
    containers. *)
Definition py_str (py_repr : json -> string) (v : json) : string :=
  match v with
  | JStr s => s
  | JNone => "None"
  | JBool true => "True"
  | JBool false => "False"
  | _ => py_repr v
  end.

Definition is_dict (v : json) : bool :=
  match v with JDict _ => true | _ => false end.

Definition is_str (v : json) : bool :=
  match v with JStr _ => true | _ => false end.

(** [clean_activity]: one round of its loop. *)
Definition clean_field (field : string) (activity : dict) : result dict :=
  let activity :=
    if Dict.mem field activity then Dict.remove field activity else activity in
  ty <~ py_getitem (JDict activity) "type" ;;
  if py_eq ty (JStr "Create") then
    o <~ py_getitem (JDict activity) "object" ;;
    c <~ py_contains field o ;;
    if c then
      o' <~ py_delitem o field ;;
      Ok (Dict.set "object" o' activity)
    else Ok activity
  else Ok activity.

Definition clean_activity (activity : dict) : result dict :=
  a <~ clean_field "bto" activity ;;
  clean_field "bcc" a.

(** [BaseActivity._actor_id] *)
Definition _actor_id (obj : json) : result json :=
  match obj with
  | JDict d =>
      ty <~ py_getitem obj "type" ;;
      if py_eq ty (JStr (value PERSON)) then
        let obj_id := dget "id" d in
        if truthy obj_id then Ok obj_id
        else Raise (BadActivityError MissingObjectId)
      else Raise (BadActivityError InvalidActorField)
  | JStr _ => Ok obj
  | _ => Raise (BadActivityError InvalidActorField)
  end.

(** [BaseActivity.to_dict] *)
Definition to_dict (a : activity) (embed embed_object_id_only : bool) : result dict :=
  let data := _data a in
  let data :=
    if embed then
      fold_left (fun d k => if Dict.mem k d then Dict.remove k d else d)
                ["@context"; "signature"] data
    else data in
  let o := dget "object" data in
  if truthy o && embed_object_id_only && is_dict o then
    match py_getitem o "id" with
    | Ok v => Ok (Dict.set "object" v data)
    | Raise (KeyError _) => Raise (BadActivityError EmbeddedObjectShouldHaveId)
    | Raise e => Raise e
    end
  else Ok data.

(** The [@context] check of [__init__]. *)
Definition hashtag_terms : dict :=
  [("Hashtag", JStr "as:Hashtag"); ("sensitive", JStr "as:sensitive")].

(** The last element of the list gets the two terms when it is a dictionary,
    otherwise a dictionary with them is appended; [l[-1]] of an empty list
    raises. *)
Fixpoint inject_terms (l : list json) : result (list json) :=
  match l with
  | [] => Raise IndexError
  | [x] =>
      match x with
      | JDict d =>
          Ok [JDict (Dict.set "sensitive" (JStr "as:sensitive")
                       (Dict.set "Hashtag" (JStr "as:Hashtag") d))]
      | _ => Ok [x; JDict hashtag_terms]
      end
  | x :: r => r' <~ inject_terms r ;; Ok (x :: r')
  end.

Definition normalize_context (kwargs : dict) : result (list json) :=
  let c :=
    match Dict.get "@context" kwargs with
    | None => JStr CTX_AS
    | Some c => c
    end in
  let l := match c with JList l => l | _ => [c] end in
  let l := if py_in (JStr CTX_SECURITY) l then l else l ++ [JStr CTX_SECURITY] in
  inject_terms l.

(** ** The engine *)

(** What the module runs against: the module global [BACKEND] and the
    library functions the module calls, [json.dumps], [repr], the clock reading
    [datetime.utcnow().replace(microsecond=0).isoformat() + "Z"],
    [parse_collection] of [little_boxes/collection.py], which walks a
    collection with the fetcher it is given, and [list(set(l))], whose order
    is the hash order of the elements.  [recursion_limit] bounds the depth
    of nested calls, as the interpreter's recursion limit does. *)
Record Runtime (St : Type) : Type := {
  BACKEND : option (Backend St);
  json_dumps : json -> string;
  py_repr : json -> string;
  utcnow : St -> string;
  parse_collection : (json -> result json) -> json -> result (list json);
  list_set : list json -> result (list json);
  recursion_limit : nat
}.

Section Engine.

Variable St : Type.
Variable R : Runtime St.

Let W := W St.
Let Meth := Meth St.

(** [if BACKEND is None: raise UninitializedBackendError] *)
Definition guard : W unit :=
  match BACKEND R with
  | None => raise UninitializedBackendError
  | Some _ => ret tt
  end.

(** An attribute access on the global: [None] has no methods. *)
Definition backend {A} (k : Backend St -> W A) : W A :=
  match BACKEND R with
  | None => raise AttributeError
  | Some b => k b
  end.

Definition bk_fetch_iri (x : json) : W json :=
  backend (fun b w => (fetch_iri b (store w) x, w)).

Definition bk_query (q : Backend St -> St -> bool) : W bool :=
  backend (fun b w => (Ok (q b (store w)), w)).

Definition bk_random_object_id : W string :=
  backend (fun b w =>
             let '(i, s) := random_object_id b (store w) in
             (Ok i, mkWorld s (trace w))).

Definition bk_activity_url (obj_id : string) : W string :=
  backend (fun b w => (Ok (activity_url b (store w) obj_id), w)).

(** An effectful backend call: the store changes and the call is recorded. *)
Definition bk_do (c : call) : W unit :=
  backend (fun b w => (Ok tt, mkWorld (perform b c (store w)) (trace w ++ [c]))).

(** [BaseActivity._validate_person] *)
Definition _validate_person (obj : json) : W json :=
  guard ;;;
  obj_id <- lift_result (_actor_id obj) ;;
  actor <- try_except (bk_fetch_iri obj_id) (fun _ => true)
                      (raise (BadActivityError FailedToValidateActor)) ;;
  (if truthy actor then
     has_id <- lift_result (py_contains "id" actor) ;;
     if has_id then ret tt else raise (BadActivityError InvalidActorFetched)
   else raise (BadActivityError InvalidActorFetched)) ;;;
  lift_result (py_getitem actor "id").

(** The [actor] step of [__init__]: the new [_data] and the remaining
    keyword arguments. *)
Definition init_actor (t : ActivityType) (data kwargs : dict) : W (dict * dict) :=
  if negb (ActivityType_eqb t PERSON) && ACTOR_REQUIRED t then
    let actor := dget "actor" kwargs in
    if truthy actor then
      a <- _validate_person actor ;;
      ret (Dict.set "actor" a data, Dict.remove "actor" kwargs)
    else if ActivityType_eqb t NOTE then
      if Dict.mem "attributedTo" kwargs then ret (data, kwargs)
      else raise (BadActivityError NoteMissingAttributedTo)
    else raise (BadActivityError MissingActor)
  else ret (data, kwargs).

(** The [object] step of [__init__]. *)
Definition init_object (t : ActivityType) (data kwargs : dict) : result (dict * dict) :=
  if OBJECT_REQUIRED t && Dict.mem "object" kwargs then
    let obj := dget "object" kwargs in
    let kwargs := Dict.remove "object" kwargs in
    if is_str obj then Ok (Dict.set "object" obj data, kwargs)
    else
      match ALLOWED_OBJECT_TYPES t with
      | [] => Raise (UnexpectedActivityTypeError UnexpectedObject)
      | allowed =>
          has_type <~ py_contains "type" obj ;;
          missing <~ (if negb has_type then Ok true
                      else if negb (ActivityType_eqb t CREATE) then
                             has_id <~ py_contains "id" obj ;; Ok (negb has_id)
                           else Ok false) ;;
          if (missing : bool) then Raise (BadActivityError InvalidObjectMissingType)
          else
            ty <~ py_getitem obj "type" ;;
            ot <~ ActivityType_of ty ;;
            if type_in ot allowed then Ok (Dict.set "object" obj data, kwargs)
            else Raise (UnexpectedActivityTypeError UnexpectedObjectType)
      end
  else Ok (data, kwargs).

(** [BaseActivity.__init__], given the [_init] callback of the class. *)
Definition __init__ (_init : dict -> Meth (option (list string)))
           (t : ActivityType) (kwargs : dict) : W activity :=
  kwargs <- (if truthy (dget "type" kwargs) then
               if negb (py_eq (dget "type" kwargs) (JStr (value t)))
               then raise (UnexpectedActivityTypeError ExpectTheTypeToBe)
               else ret (Dict.remove "type" kwargs)
             else ret kwargs) ;;
  let data := [("type", JStr (value t))] in
  let '(data, kwargs) :=
    match Dict.get "id" kwargs with
    | Some i => (Dict.set "id" i data, Dict.remove "id" kwargs)
    | None => (data, kwargs)
    end in
  dk <- init_actor t data kwargs ;;
  dk <- lift_result (init_object t (fst dk) (snd dk)) ;;
  let '(data, kwargs) := dk in
  c <- lift_result (normalize_context kwargs) ;;
  let data := Dict.set "@context" (JList c) data in
  let kwargs := Dict.remove "@context" kwargs in
  let self0 := mkActivity t data None CtxDict None in
  fun w =>
    let '(r, (self1, w1)) :=
      try_except (_init kwargs) is_NotImplementedError (ret None) (self0, w) in
    match r with
    | Raise e => (Raise e, w1)
    | Ok allowed_keys =>
        match allowed_keys with
        | Some (_ :: _ as allowed) =>
            let kwargs := Dict.remove "to" kwargs in
            if existsb (fun k => negb (existsb (String.eqb k) allowed)) (Dict.keys kwargs)
            then (Raise (BadActivityError ExtraDataLeft), w1)
            else (Ok self1, w1)
        | _ =>
            let valid_kwargs :=
              filter (fun kv => match snd kv with JNone => false | _ => true end) kwargs in
            (Ok (set_data (Dict.update (_data self1) valid_kwargs) self1), w1)
        end
    end.

(** [Person(kwargs)]: [Person] has no [_init]. *)
Definition new_Person (kwargs : json) : W activity :=
  match kwargs with
  | JDict d => __init__ (fun _ => raise NotImplementedError) PERSON d
  | _ => raise TypeError
  end.

(** [BaseActivity.get_actor] *)
Definition get_actor (a : activity) : W activity :=
  guard ;;;
  let actor := dget "actor" (_data a) in
  actor <- (if negb (truthy actor) && ACTOR_REQUIRED (ACTIVITY_TYPE a) then
              if ActivityType_eqb (ACTIVITY_TYPE a) NOTE
              then ret (JStr (py_str (py_repr R) (dget "attributedTo" (_data a))))
              else raise (BadActivityError FailedToFetchActor)
            else ret actor) ;;
  (if is_str actor || is_dict actor then ret tt
   else raise (BadActivityError InvalidActor)) ;;;
  actor_id <- lift_result (_actor_id actor) ;;
  raw <- bk_fetch_iri actor_id ;;
  new_Person raw.

(** [parse_activity], given the constructors of the registered classes. *)
Definition parse_activity_with (new : ActivityType -> dict -> W activity)
           (payload : json) (expected : option ActivityType) : W activity :=
  ty <- lift_result (py_getitem payload "type") ;;
  t <- lift_result (ActivityType_of ty) ;;
  (match expected with
   | Some e =>
       if negb (ActivityType_eqb t e)
       then raise (UnexpectedActivityTypeError ExpectedActivity)
       else ret tt
   | None => ret tt
   end) ;;;
  (if type_in t _ACTIVITY_CLS then ret tt
   else raise (BadActivityError UnsupportedActivityType)) ;;;
  match payload with
  | JDict d => new t d
  | _ => raise TypeError
  end.

(** [self._data[k] = v] *)
Definition set_data_field (k : string) (v : json) : Meth unit :=
  modify_self (fun s => set_data (Dict.set k v (_data s)) s).

(** [__init__] up to the [@context] check: the type, [id], [actor] and
    [object] steps, which only read the keyword arguments. *)
Definition init_head (t : ActivityType) (kwargs : dict) : W (dict * dict) :=
  kwargs <- (if truthy (dget "type" kwargs) then
               if negb (py_eq (dget "type" kwargs) (JStr (value t)))
               then raise (UnexpectedActivityTypeError ExpectTheTypeToBe)
               else ret (Dict.remove "type" kwargs)
             else ret kwargs) ;;
  let data := [("type", JStr (value t))] in
  let '(data, kwargs) :=
    match Dict.get "id" kwargs with
    | Some i => (Dict.set "id" i data, Dict.remove "id" kwargs)
    | None => (data, kwargs)
    end in
  dk <- init_actor t data kwargs ;;
  lift_result (init_object t (fst dk) (snd dk)).

(** Whether [parse_activity(payload)] gets as far as the [@context] check of
    the constructor it calls. *)
Definition reaches_context_check (payload : json) : W bool :=
  r <- attempt (ty <- lift_result (py_getitem payload "type") ;;
                t <- lift_result (ActivityType_of ty) ;;
                (if type_in t _ACTIVITY_CLS then ret tt
                 else raise (BadActivityError UnsupportedActivityType)) ;;;
                match payload with
                | JDict d => init_head t d
                | _ => raise TypeError
                end) ;;
  ret (match r with Ok _ => true | Raise _ => false end).

(** The [@context] check run on a payload whose [@context] is a list.  The
    keyword arguments of a constructor call are a copy of the payload, but
    their values are the payload's own: the list is the one [_data] comes to
    hold, and the check extends it where it is.  Any other value is wrapped
    in a new list first, and the payload keeps it. *)
Definition context_in_place (payload : dict) : dict :=
  match Dict.get "@context" payload with
  | Some (JList _) =>
      match normalize_context payload with
      | Ok c => Dict.set "@context" (JList c) payload
      | Raise _ => payload
      end
  | _ => payload
  end.

(** The value a payload holds under [object] is the one the activity
    constructed from it holds there: what [Create._init] writes into the
    object of the new activity is written into the payload's. *)
Definition object_in_place (payload : dict) (p : activity) : dict :=
  match Dict.get "object" payload, Dict.get "object" (_data p) with
  | Some _, Some v => Dict.set "object" v payload
  | _, _ => payload
  end.

(** What [parse_activity(payload)] leaves of the payload it was given, from
    the outcome of the call.  A call that raises has extended the [@context]
    list when it got as far as the check.  Beyond that only [Create._init]
    writes into a payload, which is followed for a call that returns: no
    class admits a [Create] as its object. *)
Definition left_in_place (payload : json) (r : result activity) : W json :=
  match payload with
  | JDict d =>
      match r with
      | Ok p => ret (JDict (object_in_place (context_in_place d) p))
      | Raise _ =>
          reached <- reaches_context_check payload ;;
          ret (JDict (if (reached : bool) then context_in_place d else d))
      end
  | _ => ret payload
  end.

(** [parse_activity(self._data["object"])] for an inline object: the payload
    is the dictionary [_data] holds, so what the call does to it in place is
    done to the [object] entry, whether the call returns or raises. *)
Definition parse_inline (parse : json -> W activity) (o : json) : Meth activity :=
  r <- liftW (attempt (parse o)) ;;
  o' <- liftW (left_in_place o r) ;;
  set_data_field "object" o' ;;;
  lift_result r.

(** [get_object] past the check of the cache: the object is parsed from
    the inline object or from what the backend fetches, and cached. *)
Definition resolve_object (parse : json -> W activity) : Meth (activity + json) :=
  s <- self ;;
  o <- lift_result (py_getitem (JDict (_data s)) "object") ;;
  p <- (if is_dict o then parse_inline parse o
        else
          obj <- liftW (bk_fetch_iri o) ;;
          ty <- lift_result (py_get_method obj "type") ;;
          ot <- lift_result (ActivityType_of ty) ;;
          if type_in ot (ALLOWED_OBJECT_TYPES (ACTIVITY_TYPE s))
          then liftW (parse obj)
          else raise (UnexpectedActivityTypeError InvalidObjectType)) ;;
  modify_self (set_cache (Some p)) ;;;
  ret (inl p).

(** [BaseActivity.get_object], given [parse_activity].  The private
    attribute [__obj] is read through [__getattr__] until it is first
    assigned, so a truthy [_data] entry under its mangled name is returned
    as it is: the result is an activity or such a value.  Once assigned,
    also by [reset_object_cache], the attribute is read itself. *)
Definition get_object_raw (parse : json -> W activity) : Meth (activity + json) :=
  liftW guard ;;;
  s <- self ;;
  match obj_slot s with
  | Some (Some o) => ret (inl o)
  | Some None => resolve_object parse
  | None =>
      let shadow := getattr_data s "_BaseActivity__obj" in
      if truthy shadow then ret (inr shadow) else resolve_object parse
  end.

(** [get_object] where the caller goes on to use the result as an object:
    a plain value has none of the attributes asked for. *)
Definition get_object (parse : json -> W activity) : Meth activity :=
  r <- get_object_raw parse ;;
  match r with
  | inl o => ret o
  | inr _ => raise AttributeError
  end.

(** [self._data["object"][k] = v] *)
Definition set_object_field (k : string) (v : json) : Meth unit :=
  s <- self ;;
  o <- lift_result (py_getitem (JDict (_data s)) "object") ;;
  o' <- lift_result (py_setitem o k v) ;;
  modify_self (set_data (Dict.set "object" o' (_data s))).

Definition now : Meth string :=
  fun s => (Ok (utcnow R (store (snd s))), s).

(** [Create._init] *)
Definition Create_init (parse : json -> W activity) : Meth (option (list string)) :=
  obj <- get_object parse ;;
  (if negb (truthy (getattr_data obj "attributedTo")) then
     s <- self ;;
     actor <- liftW (get_actor s) ;;
     set_object_field "attributedTo" (attr_id actor)
   else ret tt) ;;;
  (if negb (truthy (getattr_data obj "published")) then
     s <- self ;;
     if truthy (getattr_data s "published") then
       set_object_field "published" (getattr_data s "published")
     else
       n <- now ;;
       set_data_field "published" (JStr n) ;;;
       set_object_field "published" (JStr n)
   else ret tt) ;;;
  ret None.

(** The [_init] callback of each class; the base class raises
    [NotImplementedError]. *)
Definition _init (parse : json -> W activity) (t : ActivityType)
           (kwargs : dict) : Meth (option (list string)) :=
  match t with
  | IMAGE =>
      url <- lift_result (py_getitem (JDict kwargs) "url") ;;
      set_data_field "url" url ;;;
      ret None
  | NOTE =>
      (if negb (Dict.mem "sensitive" kwargs)
       then set_data_field "sensitive" (JBool false)
       else ret tt) ;;;
      ret None
  | CREATE => Create_init parse
  | _ => raise NotImplementedError
  end.

(** The constructors of the classes, [n] nested calls deep at most. *)
Fixpoint new_n (n : nat) (t : ActivityType) (kwargs : dict) : W activity :=
  __init__
    (_init (match n with
            | O => fun _ => raise RecursionError
            | S m => fun p => parse_activity_with (new_n m) p None
            end) t)
    t kwargs.

Definition new : ActivityType -> dict -> W activity := new_n (recursion_limit R).

(** [parse_activity] *)
Definition parse_activity (payload : json) (expected : option ActivityType) : W activity :=
  parse_activity_with new payload expected.

Definition parse (payload : json) : W activity := parse_activity payload None.

(** What a call on the cached object did to the value it holds under
    [object], seen from [self]: the object was parsed from the inline object
    of [self], which holds that value too. *)
Definition share_object (o o' : activity) (a : activity) : activity :=
  match Dict.get "object" (_data a), Dict.get "object" (_data o') with
  | Some (JDict d), Some v =>
      if Dict.mem "object" d && negb (json_eqb (dget "object" (_data o)) v)
      then set_data (Dict.set "object" (JDict (Dict.set "object" v d)) (_data a)) a
      else a
  | _, _ => a
  end.

(** A method call on the object [get_object] returned: the object is the
    one held in the cache of [self], which sees what the call did to it. *)
Definition on_object {A} (o : activity) (m : Meth A) : Meth A :=
  fun s =>
    let '(r, (o', w')) := m (o, snd s) in
    (r, (share_object o o' (set_cache (Some o') (fst s)), w')).

(** [Delete._get_actual_object]: the object, and whether it is the one held
    in the cache of [self]; a tombstone is resolved to a fresh object. *)
Definition _get_actual_object : Meth (activity * bool) :=
  liftW guard ;;;
  obj <- get_object parse ;;
  if ActivityType_eqb (ACTIVITY_TYPE obj) TOMBSTONE then
    raw <- liftW (bk_fetch_iri (attr_id obj)) ;;
    fresh <- liftW (parse raw) ;;
    ret (fresh, false)
  else ret (obj, true).

(** The values of the addressing fields that are present, in order. *)
Definition addressed (fields : list string) (d : dict) : list json :=
  flat_map (fun f => match Dict.get f d with
                     | Some v => _to_list v
                     | None => []
                     end) fields.

(** [_recipients] of each class; the base class returns the empty list. *)
Fixpoint _recipients_n (n : nat) : Meth (list json) :=
  s <- self ;;
  match ACTIVITY_TYPE s with
  | FOLLOW =>
      o <- get_object parse ;;
      ret [attr_id o]
  | ACCEPT | LIKE =>
      o <- get_object parse ;;
      a <- liftW (get_actor o) ;;
      ret [attr_id a]
  | UNDO =>
      obj <- get_object parse ;;
      if ActivityType_eqb (ACTIVITY_TYPE obj) FOLLOW then
        o <- on_object obj (get_object parse) ;;
        ret [attr_id o]
      else
        o <- on_object obj (get_object parse) ;;
        a <- liftW (get_actor o) ;;
        ret [attr_id a]
  | ANNOUNCE =>
      o <- get_object parse ;;
      a <- liftW (get_actor o) ;;
      lift_result (list_set R (attr_id a :: addressed ["to"; "cc"] (_data s)))
  | DELETE =>
      obj <- _get_actual_object ;;
      match n with
      | O => raise RecursionError
      | S m =>
          if snd obj then on_object (fst obj) (_recipients_n m)
          else
            r <- liftW (call_on (fst obj) (_recipients_n m)) ;;
            lift_result (fst r)
      end
  | CREATE =>
      let recipients := addressed ["to"; "cc"; "bto"; "bcc"] (_data s) in
      o <- get_object parse ;;
      match n with
      | O => raise RecursionError
      | S m =>
          r <- on_object o (_recipients_n m) ;;
          ret (recipients ++ r)
      end
  | NOTE => ret (addressed ["to"; "cc"; "bto"; "bcc"] (_data s))
  | _ => ret []
  end.

Definition _recipients : Meth (list json) := _recipients_n (recursion_limit R).

(** The delivery endpoint of a resolved person, after the endpoints [out]
    found so far: one round of the choice between [sharedInbox] and
    [inbox] in [recipients]. *)
Definition add_endpoint (actor : activity) (out : list json) : result (list json) :=
  let add_inbox :=
    let inbox := getattr_data actor "inbox" in
    if truthy inbox && negb (py_in inbox out) then out ++ [inbox] else out in
  let endpoints := getattr_data actor "endpoints" in
  if truthy endpoints then
    shared_inbox <~ py_get_method endpoints "sharedInbox" ;;
    if negb (py_in shared_inbox out) then Ok (out ++ [shared_inbox])
    else Ok add_inbox
  else Ok add_inbox.

(** The loop over the members of a collection; [col_actor] is the local
    variable of that name, unbound until its first assignment. *)
Fixpoint collection_loop (actor_id : json) (items : list json)
         (out : list json) (col_actor : option activity)
  : W (list json * option activity) :=
  match items with
  | [] => ret (out, col_actor)
  | item :: rest =>
      if py_in item [actor_id; JStr AS_PUBLIC] then
        collection_loop actor_id rest out col_actor
      else
        col_actor <- try_except
                       (raw <- bk_fetch_iri item ;;
                        p <- new_Person raw ;;
                        ret (Some p))
                       is_UnexpectedActivityTypeError
                       (ret col_actor) ;;
        match col_actor with
        | None => raise UnboundLocalError
        | Some c =>
            out <- lift_result (add_endpoint c out) ;;
            collection_loop actor_id rest out col_actor
        end
  end.

(** The main loop of [recipients].  The values [_recipients] returns are
    JSON values, never [Person] instances. *)
Fixpoint recipients_loop (actor_id : json) (recipients : list json)
         (out : list json) (col_actor : option activity) : W (list json) :=
  match recipients with
  | [] => ret out
  | recipient :: rest =>
      if py_in recipient [actor_id; JStr AS_PUBLIC; JNone] then
        recipients_loop actor_id rest out col_actor
      else
        raw_actor <- bk_fetch_iri recipient ;;
        ty <- lift_result (py_getitem raw_actor "type") ;;
        if py_eq ty (JStr (value PERSON)) then
          actor <- new_Person raw_actor ;;
          out <- lift_result (add_endpoint actor out) ;;
          recipients_loop actor_id rest out col_actor
        else if py_in ty [JStr (value COLLECTION); JStr (value ORDERED_COLLECTION)] then
          items <- backend (fun b w =>
                     (parse_collection R (fetch_iri b (store w)) raw_actor, w)) ;;
          oc <- collection_loop actor_id items out col_actor ;;
          recipients_loop actor_id rest (fst oc) (snd oc)
        else raise (BadActivityError FailedToParse)
  end.

(** [BaseActivity.recipients] *)
Definition recipients : Meth (list json) :=
  liftW guard ;;;
  recipients <- _recipients ;;
  s <- self ;;
  actor <- liftW (get_actor s) ;;
  liftW (recipients_loop (attr_id actor) recipients [] None).

(** *** Identifier assignment *)

(** [self.ctx()]: the slot is called; the dictionary [__init__] leaves
    there is not callable. *)
Definition ctx : Meth (option activity) :=
  s <- self ;;
  match ctx_of s with
  | CtxDict => raise TypeError
  | CtxWeak t => ret t
  end.

(** [_outbox_set_id], defined by [Create] only. *)
Definition _outbox_set_id (uri : string) (obj_id : string) : Meth unit :=
  s <- self ;;
  match ACTIVITY_TYPE s with
  | CREATE =>
      set_object_field "id" (JStr (uri ++ "/activity")%string) ;;;
      c <- ctx ;;
      (match c with
       | Some n =>
           if ActivityType_eqb (ACTIVITY_TYPE n) NOTE then
             s <- self ;;
             o <- lift_result (py_getitem (JDict (_data s)) "object") ;;
             v <- lift_result (py_getitem o "id") ;;
             modify_self (set_ctx_slot (CtxWeak (Some (set_id_attr v n))))
           else ret tt
       | None => ret tt
       end) ;;;
      modify_self (set_cache None)
  | _ => raise NotImplementedError
  end.

(** [BaseActivity.outbox_set_id] *)
Definition outbox_set_id (uri : string) (obj_id : string) : Meth unit :=
  set_data_field "id" (JStr uri) ;;;
  try_except (_outbox_set_id uri obj_id) is_NotImplementedError (ret tt).

(** *** Hooks *)

Definition bk_call (m : backend_method) (as_actor : activity) : Meth unit :=
  s <- self ;; liftW (bk_do (Call m as_actor s)).

Definition bk_call_guarded (m : backend_method) (as_actor : activity) : Meth unit :=
  liftW guard ;;; bk_call m as_actor.

(** The ownership test shared by [Undo], [Update] and [Delete]:
    [actor.id != obj.get_actor().id]. *)
Definition check_same_actor (why : bad_site) (actor : activity)
           (obj : activity + json) : Meth unit :=
  match obj with
  | inl o =>
      oa <- liftW (get_actor o) ;;
      if negb (py_eq (attr_id actor) (attr_id oa))
      then raise (BadActivityError why)
      else ret tt
  | inr _ => raise AttributeError
  end.

(** [_pre_process_from_inbox] *)
Definition _pre_process_from_inbox (as_actor : activity) : Meth unit :=
  s <- self ;;
  match ACTIVITY_TYPE s with
  | ACCEPT => ret tt
  | UNDO | UPDATE =>
      obj <- get_object_raw parse ;;
      s <- self ;;
      actor <- liftW (get_actor s) ;;
      check_same_actor CannotUpdate actor obj
  | DELETE =>
      obj <- _get_actual_object ;;
      s <- self ;;
      actor <- liftW (get_actor s) ;;
      check_same_actor CannotDelete actor (inl (fst obj))
  | _ => raise NotImplementedError
  end.

(** [_undo_inbox] *)
Definition _undo_inbox (as_actor : activity) : Meth unit :=
  s <- self ;;
  match ACTIVITY_TYPE s with
  | FOLLOW => bk_call_guarded undo_new_follower as_actor
  | LIKE => bk_call_guarded inbox_undo_like as_actor
  | ANNOUNCE => bk_call_guarded inbox_undo_announce as_actor
  | _ => raise NotImplementedError
  end.

(** [_undo_outbox] *)
Definition _undo_outbox (as_actor : activity) : Meth unit :=
  s <- self ;;
  match ACTIVITY_TYPE s with
  | FOLLOW => bk_call_guarded undo_new_following as_actor
  | LIKE => bk_call_guarded outbox_undo_like as_actor
  | ANNOUNCE => bk_call_guarded outbox_undo_announce as_actor
  | _ => raise NotImplementedError
  end.

(** [_pre_post_to_outbox] *)
Definition _pre_post_to_outbox : Meth unit :=
  s <- self ;;
  match ACTIVITY_TYPE s with
  | UNDO | UPDATE =>
      liftW guard ;;;
      s <- self ;;
      owned <- liftW (bk_query (fun b st => is_from_outbox b st s)) ;;
      if negb owned then raise NotFromOutboxError else ret tt
  | DELETE =>
      liftW guard ;;;
      obj <- _get_actual_object ;;
      s <- self ;;
      owned <- liftW (bk_query (fun b st => is_from_outbox b st s)) ;;
      (* the message subscripts [obj], which is no dictionary *)
      if negb owned then raise TypeError else ret tt
  | _ => raise NotImplementedError
  end.

(** [_post_to_outbox] *)
Definition _post_to_outbox (as_actor : activity) (obj_id : string)
           (activity : dict) (recipients : list json) : Meth unit :=
  s <- self ;;
  match ACTIVITY_TYPE s with
  | FOLLOW => ret tt
  | UNDO =>
      obj <- get_object parse ;;
      try_except (on_object obj (_undo_outbox as_actor))
                 is_NotImplementedError (ret tt)
  | LIKE => bk_call_guarded outbox_like as_actor
  | ANNOUNCE => bk_call outbox_announce as_actor
  | DELETE => bk_call_guarded outbox_delete as_actor
  | UPDATE => bk_call_guarded outbox_update as_actor
  | CREATE => bk_call_guarded outbox_create as_actor
  | _ => raise NotImplementedError
  end.

(** *** The outbox pipeline *)

(** The deliveries at the end of [post_to_outbox]. *)
Fixpoint deliver (payload : string) (recipients : list json) : Meth unit :=
  match recipients with
  | [] => ret tt
  | recp :: rest =>
      s <- self ;;
      a <- liftW (get_actor s) ;;
      liftW (bk_do (post_to_remote_inbox a payload recp)) ;;;
      deliver payload rest
  end.

(** [clean_activity(self.to_dict())]: the copy shares the nested object
    with [_data], so what is deleted from the object of a [Create] is
    deleted in [_data] too.  When [clean_activity] raises it has deleted
    nothing from the object. *)
Definition cleaned_dict : Meth dict :=
  s <- self ;;
  d <- lift_result (to_dict s false false) ;;
  activity <- lift_result (clean_activity d) ;;
  (if py_eq (dget "type" activity) (JStr "Create")
   then set_data_field "object" (dget "object" activity)
   else ret tt) ;;;
  ret activity.

(** [BaseActivity.post_to_outbox], from the pre-outbox hook on. *)
Definition outbox_publish (obj_id : string) : Meth unit :=
  try_except _pre_post_to_outbox is_NotImplementedError (ret tt) ;;;
  s <- self ;;
  a <- liftW (get_actor s) ;;
  bk_call outbox_new a ;;;
  recipients <- recipients ;;
  activity <- cleaned_dict ;;
  try_except (s <- self ;;
              a <- liftW (get_actor s) ;;
              _post_to_outbox a obj_id activity recipients)
             is_NotImplementedError (ret tt) ;;;
  let payload := json_dumps R (JDict activity) in
  deliver payload recipients.

(** [BaseActivity.post_to_outbox] *)
Definition post_to_outbox : Meth unit :=
  liftW guard ;;;
  obj_id <- liftW bk_random_object_id ;;
  uri <- liftW (bk_activity_url obj_id) ;;
  outbox_set_id uri obj_id ;;;
  outbox_publish obj_id.

(** *** The inbox pipeline *)

(** [Follow._build_reply(ActivityType.ACCEPT)], as [build_accept] calls it. *)
Definition build_accept : Meth activity :=
  o <- get_object parse ;;
  s <- self ;;
  d <- lift_result (to_dict s true false) ;;
  liftW (new ACCEPT [("actor", attr_id o); ("object", JDict d)]).

(** [_process_from_inbox] *)
Definition _process_from_inbox (as_actor : activity) : Meth unit :=
  s <- self ;;
  match ACTIVITY_TYPE s with
  | FOLLOW =>
      liftW guard ;;;
      accept <- build_accept ;;
      r <- liftW (call_on accept post_to_outbox) ;;
      lift_result (fst r) ;;;
      bk_call new_follower as_actor
  | ACCEPT =>
      liftW guard ;;;
      o <- get_object_raw parse ;;
      match o with
      | inl f =>
          if ActivityType_eqb (ACTIVITY_TYPE f) FOLLOW
          then liftW (bk_do (Call new_following as_actor f))
          else ret tt
      | inr _ => ret tt
      end
  | UNDO =>
      obj <- get_object parse ;;
      try_except (on_object obj (_undo_inbox as_actor))
                 is_NotImplementedError (ret tt)
  | LIKE => bk_call_guarded inbox_like as_actor
  | ANNOUNCE =>
      o <- lift_result (py_getitem (JDict (_data s)) "object") ;;
      match o with
      | JStr u =>
          if negb (String.prefix "http" u) then ret tt
          else bk_call inbox_announce as_actor
      | _ => bk_call inbox_announce as_actor
      end
  | DELETE => bk_call_guarded inbox_delete as_actor
  | UPDATE => bk_call_guarded inbox_update as_actor
  | CREATE => bk_call_guarded inbox_create as_actor
  | _ => raise NotImplementedError
  end.

(** [BaseActivity.process_from_inbox] *)
Definition process_from_inbox (as_actor : activity) : Meth unit :=
  liftW guard ;;;
  s <- self ;;
  actor <- liftW (get_actor s) ;;
  blocked <- liftW (bk_query (fun b st => outbox_is_blocked b st as_actor (attr_id actor))) ;;
  if blocked then ret tt
  else
    dup <- liftW (bk_query (fun b st => inbox_get_by_iri b st as_actor (attr_id s))) ;;
    if dup then ret tt
    else
      try_except (_pre_process_from_inbox as_actor) is_NotImplementedError (ret tt) ;;;
      bk_call inbox_new as_actor ;;;
      try_except (_process_from_inbox as_actor) is_NotImplementedError (ret tt).

End Engine.

(** ** An in-memory backend *)

(** Modelled from the spec: a backend in the sense of the spec's section on
    external interfaces, where the [Backend] class itself is not part of the
    module.  Identifiers resolve through a fixed table, blocks are pairs of
    actor identifiers, [inbox_new] and [outbox_new] append to per-actor boxes,
    [inbox_get_by_iri] looks an identifier up in the actor's inbox, every
    other call is kept in a journal, and object identifiers come from a
    counter. *)
Module Mem.

Record store : Type := mkStore {
  iris : list (json * json);
  blocks : list (json * json);
  inbox : list (json * activity);
  outbox : list (json * activity);
  journal : list call;
  next_id : nat;
  base_url : string
}.

Fixpoint lookup (x : json) (t : list (json * json)) : result json :=
  match t with
  | [] => Raise (BackendFailure "not found")
  | (k, v) :: r => if py_eq x k then Ok v else lookup x r
  end.

(** Identity of two JSON values as written, for looking identifiers up. *)
Fixpoint same_json (a b : json) {struct a} : bool :=
  match a, b with
  | JNone, JNone => true
  | JBool x, JBool y => Bool.eqb x y
  | JNum x, JNum y => Z.eqb x y
  | JStr x, JStr y => String.eqb x y
  | JList l1, JList l2 =>
      (fix go (l1 l2 : list json) {struct l1} : bool :=
         match l1, l2 with
         | [], [] => true
         | x :: xs, y :: ys => same_json x y && go xs ys
         | _, _ => false
         end) l1 l2
  | JDict d1, JDict d2 =>
      (fix go (d1 d2 : dict) {struct d1} : bool :=
         match d1, d2 with
         | [], [] => true
         | (k, x) :: xs, (k', y) :: ys =>
             String.eqb k k' && same_json x y && go xs ys
         | _, _ => false
         end) d1 d2
  | _, _ => false
  end.

Definition has_pair (a b : json) (l : list (json * json)) : bool :=
  existsb (fun p => py_eq a (fst p) && py_eq b (snd p)) l.

Definition in_box (owner iri : json) (box : list (json * activity)) : bool :=
  existsb (fun p => same_json owner (fst p) && same_json iri (attr_id (snd p))) box.

Definition apply (c : call) (s : store) : store :=
  match c with
  | Call inbox_new p a =>
      mkStore (iris s) (blocks s) (inbox s ++ [(attr_id p, a)]) (outbox s)
              (journal s) (next_id s) (base_url s)
  | Call outbox_new p a =>
      mkStore (iris s) (blocks s) (inbox s) (outbox s ++ [(attr_id p, a)])
              (journal s) (next_id s) (base_url s)
  | _ =>
      mkStore (iris s) (blocks s) (inbox s) (outbox s)
              (journal s ++ [c]) (next_id s) (base_url s)
  end.

Definition fresh_id (s : store) : string * store :=
  (("obj" ++ NilEmpty.string_of_uint (Nat.to_uint (next_id s)))%string,
   mkStore (iris s) (blocks s) (inbox s) (outbox s) (journal s)
           (S (next_id s)) (base_url s)).

Definition owned (s : store) (a : activity) : bool :=
  match dget "actor" (_data a) with
  | JStr u => String.prefix (base_url s) u
  | _ => false
  end.

Definition backend : Backend store := {|
  fetch_iri := fun s x => lookup x (iris s);
  outbox_is_blocked := fun s p other => has_pair (attr_id p) other (blocks s);
  inbox_get_by_iri := fun s p iri => in_box (attr_id p) iri (inbox s);
  is_from_outbox := owned;
  activity_url := fun s i => (base_url s ++ "/outbox/" ++ i)%string;
  random_object_id := fresh_id;
  perform := apply
|}.

(** Sample instances of the library functions. *)

Definition join (sep : string) (l : list string) : string :=
  match l with
  | [] => ""
  | x :: r => fold_left (fun acc y => (acc ++ sep ++ y)%string) r x
  end.

Definition quote (s : string) : string :=
  (String (ascii_of_nat 34) s ++ String (ascii_of_nat 34) "")%string.

(** A serializer in the layout of [json.dumps], without string escapes. *)
Fixpoint dumps (v : json) : string :=
  match v with
  | JNone => "null"
  | JBool true => "true"
  | JBool false => "false"
  | JNum z =>
      match z with
      | Z0 => "0"
      | Zpos q => NilEmpty.string_of_uint (Pos.to_uint q)
      | Zneg q => ("-" ++ NilEmpty.string_of_uint (Pos.to_uint q))%string
      end
  | JStr s => quote s
  | JList l => ("[" ++ join ", " (map dumps l) ++ "]")%string
  | JDict d =>
      ("{" ++ join ", "
         ((fix go (d : dict) : list string :=
             match d with
             | [] => []
             | (k, x) :: r => (quote k ++ ": " ++ dumps x)%string :: go r
             end) d) ++ "}")%string
  end.

(** [list(set(l))] in order of first occurrence; lists and dictionaries
    are not hashable. *)
Fixpoint dedup (l : list json) : result (list json) :=
  match l with
  | [] => Ok []
  | x :: r =>
      match x with
      | JList _ | JDict _ => Raise TypeError
      | _ =>
          r' <~ dedup r ;;
          Ok (x :: filter (fun y => negb (py_eq x y)) r')
      end
  end%st.

(** The members a collection lists inline. *)
Definition members (fetcher : json -> result json) (c : json)
  : result (list json) :=
  match c with
  | JDict d =>
      match Dict.get "items" d, Dict.get "orderedItems" d with
      | Some (JList l), _ => Ok l
      | _, Some (JList l) => Ok l
      | _, _ => Ok []
      end
  | _ => Raise TypeError
  end.

Definition clock (s : store) : string := "2018-06-01T12:00:00Z".

Definition runtime (limit : nat) : Runtime store := {|
  BACKEND := Some backend;
  json_dumps := dumps;
  py_repr := dumps;
  utcnow := clock;
  parse_collection := members;
  list_set := dedup;
  recursion_limit := limit
|}.

Definition initial (table : list (json * json)) : world store :=
  mkWorld (mkStore table [] [] [] [] 0 "https://me.example") [].

End Mem.

(** ** Frame conditions *)

(** [keeps I m]: whatever [m] does, returning or raising, the state it
    leaves is related by [I] to the state it started in. *)
Definition keeps {S A} (I : S -> S -> Prop) (m : ST S A) : Prop :=
  forall s, I s (snd (m s)).

(** The state of a method: a relation on the receiver and one on the world. *)
Definition pairR {St} (Ia : activity -> activity -> Prop)
           (Iw : world St -> world St -> Prop)
  : activity * world St -> activity * world St -> Prop :=
  fun s s' => Ia (fst s) (fst s') /\ Iw (snd s) (snd s').

Definition anything {T} : T -> T -> Prop := fun _ _ => True.

(** The same [_data]. *)
Definition same_data : activity -> activity -> Prop :=
  fun a a' => _data a' = _data a.

(** The same entry under key [k] of [_data]. *)
Definition same_entry (k : string) : activity -> activity -> Prop :=
  fun a a' => Dict.get k (_data a') = Dict.get k (_data a).

(** The world after a computation. *)
Definition world_after {St A} (x : result A * (activity * world St)) : world St :=
  snd (snd x).
Definition self_after {St A} (x : result A * (activity * world St)) : activity :=
  fst (snd x).

(** ** Definitions used in the statements *)

(** What [to_dict(embed=True)] deletes. *)
Definition strip_embed (d : dict) : dict :=
  fold_left (fun d k => if Dict.mem k d then Dict.remove k d else d)
            ["@context"; "signature"] d.

(** ** Sample data *)

Definition like_sample : activity :=
  mkActivity LIKE
    [("type", JStr "Like"); ("id", JStr "https://a.example/like/1");
     ("actor", JStr "https://a.example/u/a");
     ("object", JDict [("type", JStr "Note"); ("id", JStr "https://c.example/n/1")]);
     ("@context", JList [JStr CTX_AS])]
    None CtxDict None.


(** The number of elements of a Python list equal to [x]. *)
Definition count_of (x : json) (l : list json) : nat :=
  List.length (filter (py_eq x) l).

(** The context list a caller supplies: the list itself, a single value as a
    one-element list, the base context when there is none. *)
Definition supplied_context (kwargs : dict) : list json :=
  match Dict.get "@context" kwargs with
  | None => [JStr CTX_AS]
  | Some (JList l) => l
  | Some c => [c]
  end.

Definition person_doc (i inbox : string) : json :=
  JDict [("type", JStr "Person"); ("id", JStr i); ("inbox", JStr inbox)].

Definition default_activity : activity := mkActivity PERSON [] None CtxDict None.

(** The object a computation returned, for sample runs. *)
Definition returned {S} (x : result activity * S) : activity :=
  match fst x with
  | Ok a => a
  | Raise _ => default_activity
  end.

Definition custom_context_kwargs : dict :=
  [("type", JStr "Person"); ("id", JStr "https://a.example/u/a");
   ("@context", JStr "https://example.org/custom")].

Definition custom_context_person : activity :=
  Eval vm_compute in
    returned (new_n (Mem.runtime 1) 0 PERSON custom_context_kwargs (Mem.initial [])).

Definition doubled_security_kwargs : dict :=
  [("type", JStr "Person"); ("id", JStr "https://a.example/u/a");
   ("@context", JList [JStr CTX_SECURITY; JStr CTX_SECURITY])].

Definition is_post (c : call) : bool :=
  match c with
  | post_to_remote_inbox _ _ _ => true
  | Call _ _ _ => false
  end.

(** The trace grows by calls that are not deliveries; the store is free. *)
Definition grows_quietly {St} (w w' : world St) : Prop :=
  exists l, trace w' = trace w ++ l /\ forallb (fun c => negb (is_post c)) l = true.

(** The deliveries of one payload to a list of endpoints, each made in the
    name of a sender. *)
Definition deliveries (payload : string) (senders : list activity)
           (endpoints : list json) : list call :=
  map (fun sr => post_to_remote_inbox (fst sr) payload (snd sr))
      (combine senders endpoints).

(** A small fediverse: a local actor, two actors of one remote instance with
    a shared inbox, and an actor with a personal inbox only. *)
Definition actor_doc (i : string) (shared : option string) : json :=
  JDict ([("type", JStr "Person"); ("id", JStr i);
          ("inbox", JStr (i ++ "/inbox")%string)]
         ++ match shared with
            | Some s => [("endpoints", JDict [("sharedInbox", JStr s)])]
            | None => []
            end).

Definition alice := "https://me.example/u/alice".
Definition bob := "https://b.example/u/bob".
Definition carol := "https://b.example/u/carol".
Definition dave := "https://d.example/u/dave".
Definition b_shared := "https://b.example/inbox".

Definition people : list (json * json) :=
  [(JStr alice, actor_doc alice None);
   (JStr bob, actor_doc bob (Some b_shared));
   (JStr carol, actor_doc carol (Some b_shared));
   (JStr dave, actor_doc dave None)].

Definition RT : Runtime Mem.store := Mem.runtime 4.
Definition w0 : world Mem.store := Mem.initial people.

Definition person_of (i : string) : activity :=
  Eval vm_compute in
    returned (get_actor RT (mkActivity FOLLOW [("actor", JStr i)] None CtxDict None) w0).

(** A note of alice to bob and carol, blind copy to dave, and the [Create]
    that [build_create] wraps it in. *)
Definition note_kwargs : dict :=
  [("type", JStr "Note"); ("attributedTo", JStr alice); ("content", JStr "hello");
   ("to", JList [JStr bob; JStr carol]); ("bto", JList [JStr dave])].

Definition sample_note : activity :=
  Eval vm_compute in returned (new RT NOTE note_kwargs w0).

Definition sample_create : activity :=
  Eval vm_compute in
    set_ctx_slot (CtxWeak (Some sample_note))
      (returned
         (new RT CREATE
              [("object", JDict (strip_embed (_data sample_note)));
               ("actor", JStr alice);
               ("to", JList [JStr bob; JStr carol]);
               ("bto", JList [JStr dave])] w0)).

Definition create_posted : result unit * (activity * world Mem.store) :=
  Eval vm_compute in post_to_outbox RT (sample_create, w0).

(** A follow request of alice to bob, before it is posted. *)
Definition sample_follow : activity :=
  Eval vm_compute in
    returned (new RT FOLLOW [("actor", JStr alice); ("object", JStr bob)] w0).

Definition follow_posted : result unit * (activity * world Mem.store) :=
  Eval vm_compute in post_to_outbox RT (sample_follow, w0).

Definition follow_posted_again : result unit * (activity * world Mem.store) :=
  Eval vm_compute in post_to_outbox RT (snd follow_posted).

(** A note of alice to bob and carol, who share an inbox. *)
Definition note_to_bob_and_carol : activity :=
  Eval vm_compute in
    returned (new RT NOTE
                  [("type", JStr "Note"); ("attributedTo", JStr alice);
                   ("content", JStr "hello");
                   ("to", JList [JStr bob; JStr carol])] w0).

(** An actor whose [endpoints] mapping declares no shared inbox. *)
Definition erin := "https://e.example/u/erin".

Definition erin_doc : json :=
  JDict [("type", JStr "Person"); ("id", JStr erin);
         ("inbox", JStr "https://e.example/u/erin/inbox");
         ("endpoints", JDict [("proxyUrl", JStr "https://e.example/proxy")])].

Definition w_erin : world Mem.store :=
  Mem.initial ((JStr erin, erin_doc) :: people).

Definition note_to_erin : activity :=
  Eval vm_compute in
    returned (new RT NOTE
                  [("type", JStr "Note"); ("attributedTo", JStr alice);
                   ("content", JStr "hello"); ("to", JList [JStr erin])] w_erin).

(** An announce from bob of an OStatus notice, as received by alice. *)
Definition legacy_notice := "tag:b.example,2018-06-01:objectId=1:objectType=Status".

Definition legacy_announce : activity :=
  Eval vm_compute in
    returned (new RT ANNOUNCE
                  [("type", JStr "Announce"); ("id", JStr "https://b.example/a/1");
                   ("actor", JStr bob); ("object", JStr legacy_notice)] w0).

(** The world after one more effectful backend call. *)
Definition after_call {St} (b : Backend St) (c : call) (w : world St) : world St :=
  mkWorld (perform b c (store w)) (trace w ++ [c]).

(** The same class, [id] attribute and [_data] entries other than [object]:
    what a method that resolves the object leaves of its receiver, whose
    inline object it may change in place. *)
Definition same_identity (a a' : activity) : Prop :=
  ACTIVITY_TYPE a' = ACTIVITY_TYPE a
  /\ (forall k, k <> "object" -> Dict.get k (_data a') = Dict.get k (_data a))
  /\ id_attr a' = id_attr a.

(** The identifier [get_actor] resolves: the part of [get_actor] before the
    backend is asked. *)
Definition actor_ref {St} (R : Runtime St) (a : activity) : result json :=
  (let actor := dget "actor" (_data a) in
   actor <~ (if negb (truthy actor) && ACTOR_REQUIRED (ACTIVITY_TYPE a) then
               if ActivityType_eqb (ACTIVITY_TYPE a) NOTE
               then Ok (JStr (py_str (py_repr R) (dget "attributedTo" (_data a))))
               else Raise (BadActivityError FailedToFetchActor)
             else Ok actor) ;;
   if is_str actor || is_dict actor then _actor_id actor
   else Raise (BadActivityError InvalidActor))%st.

Definition is_inbox_new (c : call) : bool :=
  match c with
  | Call inbox_new _ _ => true
  | _ => false
  end.

(** The number of [inbox_new] calls in a trace. *)
Definition stored (t : list call) : nat := List.length (filter is_inbox_new t).

(** Modelled from the spec: what the pipeline relies on in the storage
    collaborator, whose code is not part of the module.  An activity handed
    to [inbox_new] is found by [inbox_get_by_iri] under its identifier from
    then on, and the calls the engine makes leave the resolution of
    identifiers as it is. *)
Record remembers_inbox {St} (b : Backend St) : Prop := {
  stored_is_found :
    forall st p a,
      inbox_get_by_iri b (perform b (Call inbox_new p a) st) p (attr_id a) = true;
  found_stays_found :
    forall c st p i,
      inbox_get_by_iri b st p i = true ->
      inbox_get_by_iri b (perform b c st) p i = true;
  found_after_fresh_id :
    forall st p i,
      inbox_get_by_iri b st p i = true ->
      inbox_get_by_iri b (snd (random_object_id b st)) p i = true;
  fetch_after_call :
    forall c st x, fetch_iri b (perform b c st) x = fetch_iri b st x;
  fetch_after_fresh_id :
    forall st x, fetch_iri b (snd (random_object_id b st)) x = fetch_iri b st x
}.

(** From [w] to [w']: identifiers resolve as before, what was found in the
    inbox of [p] under [i] is still found, and the trace has grown by calls
    other than [inbox_new]. *)
Definition inbox_settled {St} (b : Backend St) (p : activity) (i : json)
           (w w' : world St) : Prop :=
  (forall x, fetch_iri b (store w') x = fetch_iri b (store w) x)
  /\ (inbox_get_by_iri b (store w) p i = true ->
      inbox_get_by_iri b (store w') p i = true)
  /\ exists l, trace w' = trace w ++ l
               /\ forallb (fun c => negb (is_inbox_new c)) l = true.

(** A computation whose outcome does not depend on the state and that leaves
    the state as it is. *)
Definition is_pure {S A} (m : ST S A) : Prop :=
  exists r, forall s, m s = (r, s).


(** A follow request of bob to alice, as alice's server receives it, and a
    world in which alice has blocked bob. *)
Definition bob_follows_alice : activity :=
  Eval vm_compute in
    returned (new RT FOLLOW
                  [("type", JStr "Follow"); ("id", JStr "https://b.example/f/1");
                   ("actor", JStr bob); ("object", JStr alice)] w0).

Definition w_blocked : world Mem.store :=
  mkWorld (Mem.mkStore people [(JStr alice, JStr bob)] [] [] [] 0
                       "https://me.example") [].

Definition follow_received : result unit * (activity * world Mem.store) :=
  Eval vm_compute in
    process_from_inbox RT (person_of alice) (bob_follows_alice, w0).

(** An undo sent by carol of the follow request bob made, and a world in
    which alice has blocked carol. *)
Definition carol_undoes_bobs_follow : activity :=
  Eval vm_compute in
    returned (new RT UNDO
                  [("type", JStr "Undo"); ("id", JStr "https://b.example/undo/1");
                   ("actor", JStr carol);
                   ("object", JDict (strip_embed (_data bob_follows_alice)))] w0).

Definition w_carol_blocked : world Mem.store :=
  mkWorld (Mem.mkStore people [(JStr alice, JStr carol)] [] [] [] 0
                       "https://me.example") [].

Definition undo_object_resolved
  : result (activity + json) * (activity * world Mem.store) :=
  Eval vm_compute in get_object_raw RT (parse RT) (carol_undoes_bobs_follow, w0).

(** The inbox hook of bob's follow request, run once the request is stored. *)
Definition follow_hook_run : result unit * (activity * world Mem.store) :=
  Eval vm_compute in
    _process_from_inbox RT (person_of alice)
      (bob_follows_alice,
       after_call Mem.backend
                  (Call inbox_new (person_of alice) bob_follows_alice) w0).

(** A payload whose [type], when it names a class, names one other than
    [Create]. *)
Definition not_a_create (p : json) : Prop :=
  forall ty t, py_getitem p "type" = Ok ty -> ActivityType_of ty = Ok t -> t <> CREATE.

Definition is_new_following (c : call) : bool :=
  match c with
  | Call new_following _ _ => true
  | _ => false
  end.

(** The trace grows by calls that satisfy [ok]. *)
Definition grows_by {St} (ok : call -> bool) (w w' : world St) : Prop :=
  exists l, trace w' = trace w ++ l /\ forallb ok l = true.

Definition same_class (a a' : activity) : Prop :=
  ACTIVITY_TYPE a' = ACTIVITY_TYPE a.

(** ** Builders and boxes *)

(** Calling a value that is no function: what [__getattr__] returns for a
    name that is no method is a field of [_data] or [None]. *)
Definition py_call (f : json) (args : list activity) : result json :=
  Raise TypeError.

Section Builders.

Variable St : Type.
Variable R : Runtime St.

Let W := W St.
Let Meth := Meth St.

(** [get_backend] *)
Definition get_backend : W (Backend St) :=
  match BACKEND R with
  | None => raise UninitializedBackendError
  | Some b => ret b
  end.

(** [BaseActivity.set_ctx]: the reference is to a live object. *)
Definition set_ctx (target : activity) : Meth unit :=
  modify_self (set_ctx_slot (CtxWeak (Some target))).

(** [BaseActivity.reset_object_cache] *)
Definition reset_object_cache : Meth unit := modify_self (set_cache None).

(** [build_undo]: [Follow], [Like] and [Announce] define it, in each the
    keyword arguments are evaluated in the order written; the base class
    raises [NotImplementedError]. *)
Definition build_undo : Meth activity :=
  s <- self ;;
  match ACTIVITY_TYPE s with
  | FOLLOW =>
      d <- lift_result (to_dict s true false) ;;
      a <- liftW (get_actor R s) ;;
      liftW (new R UNDO [("object", JDict d); ("actor", attr_id a)])
  | LIKE =>
      d <- lift_result (to_dict s true true) ;;
      a <- liftW (get_actor R s) ;;
      liftW (new R UNDO [("object", JDict d); ("actor", attr_id a)])
  | ANNOUNCE =>
      a <- liftW (get_actor R s) ;;
      d <- lift_result (to_dict s true false) ;;
      liftW (new R UNDO [("actor", attr_id a); ("object", JDict d)])
  | _ => raise NotImplementedError
  end.

(** The fields [Note.build_create] copies into the payload of the [Create]. *)
Definition copy_fields (fields : list string) (from : dict) (payload : dict) : dict :=
  fold_left (fun p f => match Dict.get f from with
                        | Some v => Dict.set f v p
                        | None => p
                        end) fields payload.

(** [Note.build_create]; on another class the name resolves through
    [__getattr__] to a value that cannot be called. *)
Definition build_create : Meth activity :=
  s <- self ;;
  match ACTIVITY_TYPE s with
  | NOTE =>
      d <- lift_result (to_dict s true false) ;;
      let create_payload :=
        copy_fields ["published"; "to"; "bto"; "cc"; "bcc"; "audience"] (_data s)
                    [("object", JDict d); ("actor", getattr_data s "attributedTo")] in
      create <- liftW (new R CREATE create_payload) ;;
      r <- liftW (call_on create (set_ctx s)) ;;
      ret (snd r)
  | _ =>
      lift_result (py_call (getattr_data s "build_create") []) ;;;
      raise TypeError
  end.

(** [Note.build_like] *)
Definition build_like : Meth activity :=
  s <- self ;;
  match ACTIVITY_TYPE s with
  | NOTE => liftW (new R LIKE [("object", attr_id s)])
  | _ =>
      lift_result (py_call (getattr_data s "build_like") []) ;;;
      raise TypeError
  end.

(** [Note.build_announce].  No class defines [follower_collection_id], so
    the name resolves through [__getattr__]; the argument of the call is
    evaluated before the call is attempted. *)
Definition build_announce : Meth activity :=
  s <- self ;;
  match ACTIVITY_TYPE s with
  | NOTE =>
      let object := attr_id s in
      let f := getattr_data s "follower_collection_id" in
      a <- liftW (get_actor R s) ;;
      c <- lift_result (py_call f [a]) ;;
      n <- now R ;;
      liftW (new R ANNOUNCE
                 [("object", object);
                  ("to", JList [JStr AS_PUBLIC]);
                  ("cc", JList [c; getattr_data s "attributedTo"]);
                  ("published", JStr n)])
  | _ =>
      lift_result (py_call (getattr_data s "build_announce") []) ;;;
      raise TypeError
  end.

(** [build_delete]: defined by [Note]; the base class raises
    [NotImplementedError]. *)
Definition build_delete : Meth activity :=
  s <- self ;;
  match ACTIVITY_TYPE s with
  | NOTE =>
      a <- liftW (get_actor R s) ;;
      t <- liftW (new R TOMBSTONE [("id", attr_id s)]) ;;
      d <- lift_result (to_dict t true false) ;;
      liftW (new R DELETE [("actor", attr_id a); ("object", JDict d)])
  | _ => raise NotImplementedError
  end.

(** [Note.get_tombstone] *)
Definition get_tombstone (deleted : json) : Meth activity :=
  s <- self ;;
  match ACTIVITY_TYPE s with
  | NOTE =>
      liftW (new R TOMBSTONE
                 [("id", attr_id s);
                  ("published", getattr_data s "published");
                  ("deleted", deleted);
                  ("updated", deleted)])
  | _ =>
      lift_result (py_call (getattr_data s "get_tombstone") []) ;;;
      raise TypeError
  end.

(** [Outbox.post], for the box of [box_actor].  A note is wrapped in a
    [Create]; the note is the object the context reference of that [Create]
    points to, so it is left as the call on the [Create] left it. *)
Definition Outbox_post (box_actor : activity) : Meth unit :=
  s <- self ;;
  a <- liftW (get_actor R s) ;;
  if negb (py_eq (attr_id a) (attr_id box_actor)) then
    liftW (get_actor R s) ;;;
    raise ValueError
  else if ActivityType_eqb (ACTIVITY_TYPE s) NOTE then
    create <- build_create ;;
    r <- liftW (call_on create (post_to_outbox R)) ;;
    (match ctx_of (snd r) with
     | CtxWeak (Some note) => put_self note
     | _ => ret tt
     end) ;;;
    lift_result (fst r)
  else post_to_outbox R.

(** [Inbox.post] *)
Definition Inbox_post (box_actor : activity) : Meth unit :=
  process_from_inbox R box_actor.

End Builders.

(** ** Definitions used in the further statements *)

(** The context a constructor stores when the caller supplies none. *)
Definition default_context : json :=
  JList [JStr CTX_AS; JStr CTX_SECURITY; JDict hashtag_terms].

(** An optional keyword argument as the constructors store it: dropped when
    it is [None]. *)
Definition unless_None (v : json) : option json :=
  match v with
  | JNone => None
  | _ => Some v
  end.

(** The keys the constructors treat on their own: the base constructor
    handles the first five, the [_init] callbacks write the others. *)
Definition reserved_keys : list string :=
  ["type"; "id"; "actor"; "object"; "@context"; "published"; "sensitive"; "url"].

(** A keyword argument as the base constructor stores it when no step of
    its own takes it: dropped when it is [None]. *)
Definition stored_kwarg (key : string) (kwargs : dict) : option json :=
  match Dict.get key kwargs with
  | Some JNone => None
  | x => x
  end.

(** The keys of a dictionary are distinct, as those of a Python [dict] are. *)
Fixpoint unique_keys (d : dict) : bool :=
  match d with
  | [] => true
  | (k, _) :: r => negb (Dict.mem k r) && unique_keys r
  end.

(** What the [_init] callbacks leave of the object under construction: its
    class, its context slot, its [id] attribute and the fields other than
    the four they write. *)
Definition hook_frame (a a' : activity) : Prop :=
  ACTIVITY_TYPE a' = ACTIVITY_TYPE a
  /\ ctx_of a' = ctx_of a
  /\ id_attr a' = id_attr a
  /\ forall key, ~ In key ["object"; "published"; "url"; "sensitive"] ->
                 Dict.get key (_data a') = Dict.get key (_data a).

(** ** Further sample data *)

(** A note as another server sends it, with a field the module does not
    know and a field that is [null]. *)
Definition note_payload : dict :=
  [("type", JStr "Note"); ("id", JStr "https://b.example/n/7");
   ("attributedTo", JStr bob); ("content", JStr "hi");
   ("to", JList [JStr alice]); ("inReplyTo", JNone);
   ("conversation", JStr "tag:b.example,2018:7")].

Definition parsed_note : activity :=
  Eval vm_compute in returned (parse_activity RT (JDict note_payload) None w0).

(** The object of carol's undo, resolved for the first time. *)
Definition undo_object_got : result activity * (activity * world Mem.store) :=
  Eval vm_compute in get_object RT (parse RT) (carol_undoes_bobs_follow, w0).

(** The follow request as bob's server sends it, with the base context
    alone, and carol's undo of it carrying that payload inline. *)
Definition follow_payload : dict :=
  [("@context", JList [JStr CTX_AS]);
   ("type", JStr "Follow"); ("id", JStr "https://b.example/f/1");
   ("actor", JStr bob); ("object", JStr alice)].

Definition undo_of_payload : activity :=
  Eval vm_compute in
    returned (new RT UNDO
                  [("type", JStr "Undo"); ("id", JStr "https://b.example/undo/1");
                   ("actor", JStr carol); ("object", JDict follow_payload)] w0).

Definition undo_of_payload_got : result activity * (activity * world Mem.store) :=
  Eval vm_compute in get_object RT (parse RT) (undo_of_payload, w0).

(** The dictionary under a key, empty when there is none. *)
Definition dget_dict (k : string) (d : dict) : dict :=
  match Dict.get k d with
  | Some (JDict v) => v
  | _ => []
  end.

(** Bob's acceptance of the follow request alice posted, carrying a field
    named as the private cache attribute of [BaseActivity] is. *)
Definition shadowed_accept_payload : dict :=
  [("type", JStr "Accept"); ("id", JStr "https://b.example/accept/1");
   ("actor", JStr bob);
   ("object", JDict (strip_embed (_data (self_after follow_posted))));
   ("_BaseActivity__obj", JStr "anything")].

Definition shadowed_accept : activity :=
  Eval vm_compute in
    returned (parse_activity RT (JDict shadowed_accept_payload) None w0).

(** No element of the list is equal, as [in] tests it, to an element before
    it; [seen] holds what came before the list. *)
Fixpoint no_repeats_after (seen l : list json) : bool :=
  match l with
  | [] => true
  | x :: r => negb (py_in x seen) && no_repeats_after (seen ++ [x]) r
  end.

Definition no_repeats (l : list json) : bool := no_repeats_after [] l.

(** The recipients [recipients] does not resolve: the sender, the public
    collection and [None]. *)
Definition skipped (actor_id : json) (recipient : json) : bool :=
  py_in recipient [actor_id; JStr AS_PUBLIC; JNone].

(** A collection whose first member is a note and no person. *)
Definition followers := "https://me.example/u/alice/followers".
Definition stray_note := "https://b.example/n/7".

Definition w_followers : world Mem.store :=
  Mem.initial ((JStr followers,
                JDict [("type", JStr "Collection"); ("id", JStr followers);
                       ("items", JList [JStr stray_note; JStr bob])])
               :: (JStr stray_note, JDict note_payload) :: people).

(** An entry under [object], once there, stays. *)
Definition keeps_object (a a' : activity) : Prop :=
  Dict.mem "object" (_data a) = true -> Dict.mem "object" (_data a') = true.

(** A [Create] as the constructor returns it, for the note of alice. *)
Definition create_kwargs : dict :=
  [("type", JStr "Create"); ("actor", JStr alice);
   ("object", JDict (strip_embed (_data sample_note)));
   ("to", JList [JStr bob; JStr carol])].

Definition constructed_create : activity :=
  Eval vm_compute in returned (new RT CREATE create_kwargs w0).

(** The world once [post_to_outbox] has drawn an identifier, and the
    identifier and the address it gives the activity. *)
Definition minted_world {St} (b : Backend St) (w : world St) : world St :=
  mkWorld (snd (random_object_id b (store w))) (trace w).

Definition minted_id {St} (b : Backend St) (w : world St) : string :=
  fst (random_object_id b (store w)).

Definition minted_uri {St} (b : Backend St) (w : world St) : string :=
  activity_url b (store (minted_world b w)) (minted_id b w).

(** The activity with the address stored under [id]. *)
Definition with_id (uri : string) (a : activity) : activity :=
  set_data (Dict.set "id" (JStr uri) (_data a)) a.

(** Bob's deletion of his note, as alice's server would post it. *)
Definition bob_deletes_note : activity :=
  Eval vm_compute in
    returned (new RT DELETE
                  [("type", JStr "Delete"); ("id", JStr "https://b.example/d/1");
                   ("actor", JStr bob); ("object", JDict note_payload)] w0).

Definition delete_object_resolved
  : result (activity * bool) * (activity * world Mem.store) :=
  Eval vm_compute in
    _get_actual_object RT
      (with_id (minted_uri Mem.backend w0) bob_deletes_note,
       minted_world Mem.backend w0).

(** What a computation returned, for sample runs. *)
Definition got {A S} (default : A) (x : result A * S) : A :=
  match fst x with
  | Ok a => a
  | Raise _ => default
  end.

(** The trace of the second world continues that of the first. *)
Definition extends {St} (w w' : world St) : Prop :=
  exists l, trace w' = trace w ++ l.

(** Bob's note wrapped in a [Create], as alice's server receives it, and an
    update and a deletion of that note sent by carol. *)
Definition bob_creates_note : activity :=
  Eval vm_compute in
    returned (new RT CREATE
                  [("type", JStr "Create"); ("id", JStr "https://b.example/c/7");
                   ("actor", JStr bob); ("object", JDict note_payload)] w0).

Definition carol_updates_bobs_note : activity :=
  Eval vm_compute in
    returned (new RT UPDATE
                  [("type", JStr "Update"); ("id", JStr "https://b.example/u/1");
                   ("actor", JStr carol); ("object", JDict note_payload)] w0).

Definition carol_deletes_bobs_note : activity :=
  Eval vm_compute in
    returned (new RT DELETE
                  [("type", JStr "Delete"); ("id", JStr "https://b.example/d/2");
                   ("actor", JStr carol); ("object", JDict note_payload)] w0).

Definition update_object_resolved
  : result (activity + json) * (activity * world Mem.store) :=
  Eval vm_compute in get_object_raw RT (parse RT) (carol_updates_bobs_note, w0).

Definition deletion_object_resolved
  : result (activity * bool) * (activity * world Mem.store) :=
  Eval vm_compute in _get_actual_object RT (carol_deletes_bobs_note, w0).

(** Bob's withdrawal of his follow request, as alice's server receives it. *)
Definition bob_undoes_his_follow : activity :=
  Eval vm_compute in
    returned (new RT UNDO
                  [("type", JStr "Undo"); ("id", JStr "https://b.example/undo/2");
                   ("actor", JStr bob);
                   ("object", JDict (strip_embed (_data bob_follows_alice)))] w0).

Definition withdrawal_object_resolved
  : result (activity + json) * (activity * world Mem.store) :=
  Eval vm_compute in get_object_raw RT (parse RT) (bob_undoes_his_follow, w0).

(** The object [get_object_raw] returned, for sample runs. *)
Definition object_got {S} (x : result (activity + json) * S) : activity :=
  match fst x with
  | Ok (inl o) => o
  | _ => default_activity
  end.

(** The backend call that undoes an activity of class [t] on the inbox side
    and on the outbox side, for the classes that define [_undo_inbox] and
    [_undo_outbox]. *)
Definition undo_call (inbound : bool) (t : ActivityType) : option backend_method :=
  match t with
  | FOLLOW => Some (if inbound then undo_new_follower else undo_new_following)
  | LIKE => Some (if inbound then inbox_undo_like else outbox_undo_like)
  | ANNOUNCE => Some (if inbound then inbox_undo_announce else outbox_undo_announce)
  | _ => None
  end.

(** The world after the undo of [obj], if its class has one. *)
Definition undone {St} (b : Backend St) (inbound : bool) (p obj : activity)
           (w : world St) : world St :=
  match undo_call inbound (ACTIVITY_TYPE obj) with
  | Some m => after_call b (Call m p obj) w
  | None => w
  end.

(** [use_backend]: the module global is rebound. *)
Definition use_backend {St} (backend_instance : option (Backend St))
           (R : Runtime St) : Runtime St :=
  {| BACKEND := backend_instance;
     json_dumps := json_dumps R;
     py_repr := py_repr R;
     utcnow := utcnow R;
     parse_collection := parse_collection R;
     list_set := list_set R;
     recursion_limit := recursion_limit R |}.

(** The same context slot. *)
Definition same_ctx (a a' : activity) : Prop := ctx_of a' = ctx_of a.

(** Alice's note posted through her outbox. *)
Definition note_posted : result unit * (activity * world Mem.store) :=
  Eval vm_compute in Outbox_post RT (person_of alice) (sample_note, w0).

(** A dictionary without the two hidden-recipient fields. *)
Definition without_hidden (d : dict) : dict :=
  Dict.remove "bcc" (Dict.remove "bto" d).

(** The addressing fields [Note.build_create] copies besides [published]. *)
Definition addressing_fields : list string := ["to"; "bto"; "cc"; "bcc"; "audience"].

Definition create_built : result activity * (activity * world Mem.store) :=
  Eval vm_compute in build_create RT (sample_note, w0).

(** * Properties *)

(** ** Dictionaries *)

Lemma get_set_same k v d : Dict.get k (Dict.set k v d) = Some v.
Proof.
  induction d as [|[k' v'] r IH]; simpl.
  - now rewrite String.eqb_refl.
  - destruct (String.eqb k k') eqn:E; simpl.
    + now rewrite String.eqb_refl.
    + now rewrite E.
Qed.

Lemma get_set_other k k' v d :
  k <> k' -> Dict.get k (Dict.set k' v d) = Dict.get k d.
Proof.
  intros N. induction d as [|[k0 v0] r IH]; simpl.
  - destruct (String.eqb_spec k k'); congruence.
  - destruct (String.eqb_spec k' k0); simpl.
    + subst. destruct (String.eqb_spec k k0); congruence.
    + destruct (String.eqb_spec k k0); auto.
Qed.

Lemma get_remove_same k d : Dict.get k (Dict.remove k d) = None.
Proof.
  unfold Dict.remove. induction d as [|[k' v'] r IH]; simpl; auto.
  destruct (String.eqb k k') eqn:E; simpl; auto.
  now rewrite E.
Qed.

Lemma get_remove_other k k' d :
  k <> k' -> Dict.get k (Dict.remove k' d) = Dict.get k d.
Proof.
  intros N. unfold Dict.remove. induction d as [|[k0 v0] r IH]; simpl; auto.
  destruct (String.eqb_spec k' k0); simpl.
  - subst. destruct (String.eqb_spec k k0); congruence.
  - destruct (String.eqb_spec k k0); auto.
Qed.

Lemma mem_remove_same k d : Dict.mem k (Dict.remove k d) = false.
Proof. unfold Dict.mem. now rewrite get_remove_same. Qed.

Lemma get_update_absent k d e :
  Dict.get k e = None -> Dict.get k (Dict.update d e) = Dict.get k d.
Proof.
  unfold Dict.update. revert d.
  induction e as [|[k' v'] r IH]; simpl; intros d H; auto.
  destruct (String.eqb_spec k k'); try discriminate.
  rewrite IH by assumption. now apply get_set_other.
Qed.

Lemma get_filter_none (f : string * json -> bool) k d :
  Dict.get k d = None -> Dict.get k (filter f d) = None.
Proof.
  induction d as [|[k' v'] r IH]; simpl; auto.
  destruct (String.eqb k k') eqn:E; try discriminate.
  intros H. destruct (f (k', v')); simpl; rewrite ?E; auto.
Qed.

(** ** Serialization: [to_dict] *)

Lemma remove_if_mem_get k k' d :
  Dict.get k (if Dict.mem k' d then Dict.remove k' d else d) =
  if String.eqb k k' then None else Dict.get k d.
Proof.
  destruct (String.eqb_spec k k') as [->|N].
  - unfold Dict.mem. destruct (Dict.get k' d) eqn:E; auto using get_remove_same.
  - destruct (Dict.mem k' d); auto using get_remove_other.
Qed.

Lemma strip_embed_get k d :
  Dict.get k (strip_embed d) =
  if String.eqb k "@context" || String.eqb k "signature" then None
  else Dict.get k d.
Proof.
  unfold strip_embed. simpl. rewrite !remove_if_mem_get.
  destruct (String.eqb k "signature"), (String.eqb k "@context"); reflexivity.
Qed.

Lemma to_dict_plain a embed :
  to_dict a embed false = Ok (if embed then strip_embed (_data a) else _data a).
Proof.
  unfold to_dict. rewrite Bool.andb_false_r. simpl. destruct embed; reflexivity.
Qed.

Lemma strip_embed_object d : dget "object" (strip_embed d) = dget "object" d.
Proof. unfold dget. now rewrite strip_embed_get. Qed.

(** C10, as amended.  [to_dict()] returns the stored fields as they are;
    [to_dict(embed=True)] returns them without the [@context] and [signature]
    entries; with [embed_object_id_only] and a non-empty inline object
    mapping, the object is replaced by the value under its [id] key and a
    [BadActivityError] is raised when it has no such key; an empty inline
    mapping is left as it is and nothing is raised. *)
Theorem to_dict_spec (a : activity) :
  to_dict a false false = Ok (_data a)
  /\ (exists d, to_dict a true false = Ok d
        /\ Dict.get "@context" d = None
        /\ Dict.get "signature" d = None
        /\ forall k, k <> "@context" -> k <> "signature" ->
                     Dict.get k d = Dict.get k (_data a))
  /\ (forall embed o,
        dget "object" (_data a) = JDict o -> o <> [] ->
        exists base,
          to_dict a embed false = Ok base
          /\ match Dict.get "id" o with
             | Some v => to_dict a embed true = Ok (Dict.set "object" v base)
             | None => to_dict a embed true =
                       Raise (BadActivityError EmbeddedObjectShouldHaveId)
             end)
  /\ (forall embed,
        dget "object" (_data a) = JDict [] ->
        to_dict a embed true = to_dict a embed false).
Proof.
  split; [apply to_dict_plain|].
  split.
  { exists (strip_embed (_data a)). split; [apply to_dict_plain|].
    rewrite !strip_embed_get. simpl. repeat split.
    intros k N1 N2. rewrite strip_embed_get.
    destruct (String.eqb_spec k "@context"); [contradiction|].
    destruct (String.eqb_spec k "signature"); [contradiction|]. reflexivity. }
  split.
  - intros embed o Ho Hne.
    exists (if embed then strip_embed (_data a) else _data a).
    split; [apply to_dict_plain|].
    unfold to_dict. fold (strip_embed (_data a)).
    assert (E : dget "object" (if embed then strip_embed (_data a) else _data a)
                = JDict o).
    { destruct embed; [rewrite strip_embed_object|]; exact Ho. }
    rewrite E. destruct o as [|kv o']; [contradiction|].
    cbn [truthy is_dict andb py_getitem].
    destruct (Dict.get "id" (kv :: o')); reflexivity.
  - intros embed Ho. unfold to_dict. fold (strip_embed (_data a)).
    assert (E : dget "object" (if embed then strip_embed (_data a) else _data a)
                = JDict []).
    { destruct embed; [rewrite strip_embed_object|]; exact Ho. }
    rewrite E. reflexivity.
Qed.

Lemma to_dict_spec_witness :
  to_dict like_sample true true =
  Ok [("type", JStr "Like"); ("id", JStr "https://a.example/like/1");
      ("actor", JStr "https://a.example/u/a");
      ("object", JStr "https://c.example/n/1")].
Proof.
  destruct (to_dict_spec like_sample) as (_ & _ & H & _).
  destruct (H true [("type", JStr "Note"); ("id", JStr "https://c.example/n/1")]
              eq_refl ltac:(discriminate)) as (base & Hb & Hv).
  simpl in Hv. rewrite Hv. vm_compute in Hb.
  injection Hb as <-. reflexivity.
Defined.

(** A note built with an empty [object] mapping: the constructor accepts it
    (no object is required of a [Note]), the mapping has no [id] key, and
    [to_dict(embed_object_id_only=True)] returns it untouched instead of
    raising. *)
Lemma to_dict_empty_object_no_error :
  let kwargs := [("type", JStr "Note"); ("id", JStr "https://a.example/n/1");
                 ("attributedTo", JStr "https://a.example/u/a");
                 ("object", JDict [])] in
  exists a,
    new (Mem.runtime 1) NOTE kwargs (Mem.initial []) = (Ok a, Mem.initial [])
    /\ dget "object" (_data a) = JDict []
    /\ Dict.get "id" [] = None
    /\ to_dict a false true = Ok (_data a)
    /\ to_dict a false true <> Raise (BadActivityError EmbeddedObjectShouldHaveId).
Proof.
  eexists. split; [vm_compute; reflexivity|].
  repeat split; discriminate.
Qed.

(** ** Rules for frame conditions *)

Section KeepsRules.

Context {S : Type} (I : S -> S -> Prop).
Hypothesis I_refl : forall s, I s s.
Hypothesis I_trans : forall s1 s2 s3, I s1 s2 -> I s2 s3 -> I s1 s3.

Lemma keeps_ret A (a : A) : keeps I (ret a).
Proof. intros s. apply I_refl. Qed.

Lemma keeps_raise A e : keeps I (@raise S A e).
Proof. intros s. apply I_refl. Qed.

Lemma keeps_lift_result A (r : result A) : keeps I (lift_result r).
Proof. intros s. apply I_refl. Qed.

Lemma keeps_bind A B (m : ST S A) (k : A -> ST S B) :
  keeps I m -> (forall a, keeps I (k a)) -> keeps I (bind m k).
Proof.
  intros Hm Hk s. unfold bind. specialize (Hm s).
  destruct (m s) as [[a|e] s1]; simpl in *; auto.
  eapply I_trans; [exact Hm|apply Hk].
Qed.

Lemma keeps_try_except A (m h : ST S A) sel :
  keeps I m -> keeps I h -> keeps I (try_except m sel h).
Proof.
  intros Hm Hh s. unfold try_except. specialize (Hm s).
  destruct (m s) as [[a|e] s1]; simpl in *; auto.
  destruct (sel e); simpl; auto.
  eapply I_trans; [exact Hm|apply Hh].
Qed.

End KeepsRules.

Lemma keeps_weaken {S A} (I J : S -> S -> Prop) (m : ST S A) :
  (forall s s', I s s' -> J s s') -> keeps I m -> keeps J m.
Proof. intros H Hm s. apply H, Hm. Qed.

(** A computation that returns or raises in the state it started in. *)
Definition readonly {S A} (m : ST S A) : Prop := keeps eq m.

Lemma readonly_run {S A} (m : ST S A) s : readonly m -> snd (m s) = s.
Proof. intros H. symmetry. apply H. Qed.

Lemma readonly_keeps {S A} (I : S -> S -> Prop) (m : ST S A) :
  (forall s, I s s) -> readonly m -> keeps I m.
Proof. intros Hr Hm s. rewrite <- (Hm s). apply Hr. Qed.

Section MethRules.

Context {St : Type}.
Variable Ia : activity -> activity -> Prop.
Variable Iw : world St -> world St -> Prop.
Hypothesis Ia_refl : forall a, Ia a a.
Hypothesis Iw_refl : forall w, Iw w w.

Lemma pairR_refl s : pairR Ia Iw s s.
Proof. split; auto. Qed.

Lemma pairR_trans :
  (forall a b c, Ia a b -> Ia b c -> Ia a c) ->
  (forall a b c, Iw a b -> Iw b c -> Iw a c) ->
  forall s1 s2 s3, pairR Ia Iw s1 s2 -> pairR Ia Iw s2 s3 -> pairR Ia Iw s1 s3.
Proof. intros Ta Tw s1 s2 s3 [A1 W1] [A2 W2]. split; eauto. Qed.

Lemma keeps_liftW A (m : W St A) :
  keeps Iw m -> keeps (pairR Ia Iw) (liftW m).
Proof.
  intros Hm [a w]. unfold liftW. simpl. specialize (Hm w).
  destruct (m w) as [r w1]. split; simpl; auto.
Qed.

Lemma keeps_self : keeps (pairR Ia Iw) (@self St).
Proof. intros s. apply pairR_refl. Qed.

Lemma keeps_modify_self f :
  (forall a, Ia a (f a)) -> keeps (pairR Ia Iw) (@modify_self St f).
Proof. intros H [a w]. split; simpl; auto. Qed.

Lemma keeps_set_data_field k v :
  (forall a, Ia a (set_data (Dict.set k v (_data a)) a)) ->
  keeps (pairR Ia Iw) (@set_data_field St k v).
Proof. intros H. unfold set_data_field. apply keeps_modify_self. exact H. Qed.

Lemma share_object_keeps o o' a :
  (forall v a, Ia a (set_data (Dict.set "object" v (_data a)) a)) ->
  Ia a (share_object o o' a).
Proof.
  intros Ho. unfold share_object.
  destruct (Dict.get "object" (_data a)) as [[| | | | |d]|]; auto.
  destruct (Dict.get "object" (_data o')); auto.
  destruct (_ && _); auto.
Qed.

(** A call on the cached object changes the cache of the receiver, the
    value its inline object holds under [object], and whatever the callee
    does to the world. *)
Lemma keeps_on_object A (o : activity) (m : Meth St A) :
  (forall a b c, Ia a b -> Ia b c -> Ia a c) ->
  (forall o' a, Ia a (set_cache o' a)) ->
  (forall v a, Ia a (set_data (Dict.set "object" v (_data a)) a)) ->
  keeps (pairR anything Iw) m ->
  keeps (pairR Ia Iw) (on_object o m).
Proof.
  intros Ht Hc Ho Hm [a w]. unfold on_object. simpl.
  specialize (Hm (o, w)). destruct (m (o, w)) as [r [o' w']].
  destruct Hm as [_ Hw]. split; simpl; auto.
  eapply Ht; [apply Hc|]. apply share_object_keeps. exact Ho.
Qed.

Lemma keeps_attempt A (m : W St A) : keeps Iw m -> keeps Iw (attempt m).
Proof.
  intros Hm w. unfold attempt. specialize (Hm w). destruct (m w). exact Hm.
Qed.

Lemma keeps_call_on A (o : activity) (m : Meth St A) :
  keeps (pairR anything Iw) m -> keeps Iw (call_on o m).
Proof.
  intros Hm w. unfold call_on.
  specialize (Hm (o, w)). destruct (m (o, w)) as [r [o' w']].
  destruct Hm as [_ Hw]. exact Hw.
Qed.

End MethRules.

Lemma eq_trans' {T} (a b c : T) : a = b -> b = c -> a = c.
Proof. congruence. Qed.

Lemma anything_refl {T} (a : T) : anything a a.
Proof. exact Logic.I. Qed.

Lemma anything_trans {T} (a b c : T) : anything a b -> anything b c -> anything a c.
Proof. intros _ _. exact Logic.I. Qed.

Lemma anything_any {T} (a b : T) : anything a b.
Proof. exact Logic.I. Qed.

Lemma same_data_trans a b c : same_data a b -> same_data b c -> same_data a c.
Proof. unfold same_data. congruence. Qed.

Lemma same_data_cache o a : same_data a (set_cache o a).
Proof. destruct a. reflexivity. Qed.

Lemma same_entry_refl k a : same_entry k a a.
Proof. reflexivity. Qed.

Lemma same_entry_trans k a b c :
  same_entry k a b -> same_entry k b c -> same_entry k a c.
Proof. unfold same_entry. congruence. Qed.

Lemma same_entry_cache k o a : same_entry k a (set_cache o a).
Proof. destruct a. reflexivity. Qed.

Lemma same_entry_object k v a :
  k <> "object" -> same_entry k a (set_data (Dict.set "object" v (_data a)) a).
Proof.
  intros Hk. destruct a as [c d o x i]. unfold same_entry. simpl.
  apply get_set_other. congruence.
Qed.

Lemma same_data_refl a : same_data a a.
Proof. reflexivity. Qed.

Create HintDb frames.
#[export] Hint Resolve eq_refl eq_trans' anything_refl anything_trans anything_any
  same_data_refl same_data_trans same_data_cache
  same_entry_refl same_entry_trans same_entry_cache : frames.
#[export] Hint Resolve pairR_refl : frames.
#[export] Hint Extern 1 (same_entry _ _ (set_data (Dict.set "object" _ _) _)) =>
  apply same_entry_object; discriminate : frames.
#[export] Hint Extern 2 (forall s1 s2 s3, pairR _ _ s1 s2 -> pairR _ _ s2 s3 -> pairR _ _ s1 s3) =>
  apply pairR_trans : frames.

#[export] Hint Extern 1 (keeps eq ?m) => change (readonly m) : frames.
#[export] Hint Extern 1 (_ <> inbox_new) => discriminate : frames.

(** One step down the syntax of a computation. *)
Ltac keeps_step :=
  lazymatch goal with
  | |- keeps _ (ret _) => apply keeps_ret
  | |- keeps _ (raise _) => apply keeps_raise
  | |- keeps _ (lift_result _) => apply keeps_lift_result
  | |- keeps _ (bind _ _) => apply keeps_bind; [ | | intros ? ]
  | |- keeps _ (try_except _ _ _) => apply keeps_try_except
  | |- keeps _ (liftW _) => apply keeps_liftW
  | |- keeps _ self => apply keeps_self
  | |- keeps _ (attempt _) => apply keeps_attempt
  | |- keeps _ (set_data_field "object" _) =>
      apply keeps_set_data_field; solve [auto with frames]
  | |- keeps _ (modify_self _) =>
      apply keeps_modify_self; [solve [auto with frames] | intros ?]
  | |- keeps _ (if ?b then _ else _) => destruct b
  | |- keeps _ (match ?x with _ => _ end) => destruct x
  | |- readonly _ => unfold readonly
  end.

Ltac keeps_auto := repeat (solve [eauto 6 with frames] || keeps_step).

Section ReadFrames.

Context {St : Type} (R : Runtime St).

Lemma guard_readonly : readonly (guard R).
Proof. unfold guard. keeps_auto. Qed.

Lemma bk_fetch_iri_readonly x : readonly (bk_fetch_iri R x).
Proof. unfold bk_fetch_iri, backend. destruct (BACKEND R); keeps_auto. intros w. reflexivity. Qed.

Lemma bk_query_readonly q : readonly (bk_query R q).
Proof. unfold bk_query, backend. destruct (BACKEND R); keeps_auto. intros w. reflexivity. Qed.

Lemma bk_activity_url_readonly i : readonly (bk_activity_url R i).
Proof. unfold bk_activity_url, backend. destruct (BACKEND R); keeps_auto. intros w. reflexivity. Qed.

Hint Resolve guard_readonly bk_fetch_iri_readonly bk_query_readonly
     bk_activity_url_readonly : frames.

Lemma _validate_person_readonly obj : readonly (_validate_person R obj).
Proof. unfold _validate_person. keeps_auto. Qed.

Hint Resolve _validate_person_readonly : frames.

Lemma init_actor_readonly t d k : readonly (init_actor R t d k).
Proof. unfold init_actor. keeps_auto. Qed.

Hint Resolve init_actor_readonly : frames.

Lemma __init___readonly hook t kwargs :
  (forall kw, keeps (pairR anything eq) (hook kw)) ->
  readonly (__init__ R hook t kwargs).
Proof.
  intros Hh. unfold readonly, __init__.
  apply keeps_bind; [eauto with frames | keeps_auto | intros kw1].
  destruct (Dict.get "id" kw1).
  all: apply keeps_bind; [eauto with frames | keeps_auto | intros dk1].
  all: apply keeps_bind; [eauto with frames | keeps_auto | intros [data' kwargs']].
  all: apply keeps_bind; [eauto with frames | keeps_auto | intros c].
  all: intros w.
  all: match goal with
       | |- context [try_except ?m ?sel ?h ?s] =>
           pose proof (@keeps_try_except _ (pairR anything eq)
                         ltac:(eauto with frames) _ m h sel
                         (Hh _) ltac:(keeps_auto) s) as K;
           destruct (try_except m sel h s) as [r [s1 w1]]
       end.
  all: destruct K as [_ K]; simpl in K; subst w1.
  all: destruct r as [[[|? ?]|]|]; simpl; auto.
  all: match goal with |- context [if ?b then _ else _] => destruct b end; auto.
Qed.

Lemma new_Person_readonly kw : readonly (new_Person R kw).
Proof.
  unfold new_Person. destruct kw; keeps_auto.
  apply __init___readonly. intros. keeps_auto.
Qed.

Hint Resolve new_Person_readonly : frames.

Lemma get_actor_readonly a : readonly (get_actor R a).
Proof. unfold get_actor. keeps_auto. Qed.

Lemma init_head_readonly t kwargs : readonly (init_head R t kwargs).
Proof.
  unfold init_head. keeps_auto.
  all: destruct (Dict.get "id" _); keeps_auto.
Qed.

Lemma reaches_context_check_readonly payload :
  readonly (reaches_context_check R payload).
Proof.
  pose proof init_head_readonly.
  unfold reaches_context_check. keeps_auto.
Qed.

Hint Resolve reaches_context_check_readonly : frames.

Lemma left_in_place_readonly payload r : readonly (left_in_place R payload r).
Proof. unfold left_in_place. keeps_auto. Qed.

Lemma parse_activity_with_readonly
      (new : ActivityType -> dict -> W St activity) p e :
  (forall t d, readonly (new t d)) -> readonly (parse_activity_with new p e).
Proof. intros H. unfold parse_activity_with. keeps_auto. Qed.

End ReadFrames.

#[export] Hint Resolve guard_readonly bk_fetch_iri_readonly bk_query_readonly
  bk_activity_url_readonly _validate_person_readonly init_actor_readonly
  new_Person_readonly get_actor_readonly : frames.

Lemma set_object_field_run {St} k v a (w : world St) :
  set_object_field k v (a, w) =
  match py_getitem (JDict (_data a)) "object" with
  | Ok o =>
      match py_setitem o k v with
      | Ok o' => (Ok tt, (set_data (Dict.set "object" o' (_data a)) a, w))
      | Raise e => (Raise e, (a, w))
      end
  | Raise e => (Raise e, (a, w))
  end.
Proof.
  unfold set_object_field, bind, self, lift_result, modify_self.
  cbn [fst snd]. destruct (py_getitem (JDict (_data a)) "object"); auto.
Qed.

Section ObjectFrames.

Context {St : Type} (R : Runtime St).
Variable Ia : activity -> activity -> Prop.
Hypothesis Ia_refl : forall a, Ia a a.
Hypothesis Ia_trans : forall a b c, Ia a b -> Ia b c -> Ia a c.
Hypothesis Ia_cache : forall o a, Ia a (set_cache o a).
Hypothesis Ia_object :
  forall v a, Ia a (set_data (Dict.set "object" v (_data a)) a).

Let I : activity * world St -> activity * world St -> Prop := pairR Ia eq.

Lemma parse_inline_keeps parse o :
  (forall p, readonly (parse p)) -> keeps I (parse_inline R parse o).
Proof.
  intros Hp. pose proof (left_in_place_readonly R o).
  unfold parse_inline, I. keeps_auto.
Qed.

Lemma resolve_object_keeps parse :
  (forall p, readonly (parse p)) -> keeps I (resolve_object R parse).
Proof.
  intros Hp. pose proof (fun o => @parse_inline_keeps parse o Hp).
  unfold resolve_object, I in *. keeps_auto.
Qed.

Lemma get_object_raw_keeps parse :
  (forall p, readonly (parse p)) -> keeps I (get_object_raw R parse).
Proof.
  intros Hp. pose proof (@resolve_object_keeps parse Hp).
  unfold get_object_raw, I in *. keeps_auto.
Qed.

Lemma get_object_keeps parse :
  (forall p, readonly (parse p)) -> keeps I (get_object R parse).
Proof.
  intros Hp. unfold get_object, I. keeps_auto.
  apply get_object_raw_keeps; auto.
Qed.

(** The fields the [_init] callbacks write. *)
Hypothesis Ia_data_field :
  forall k v, In k ["published"; "url"; "sensitive"] ->
              keeps I (@set_data_field St k v).
Hypothesis Ia_object_field :
  forall k v, keeps I (@set_object_field St k v).

Lemma now_keeps : keeps I (now R).
Proof. intros s. apply pairR_refl; auto. Qed.

Lemma Create_init_keeps parse :
  (forall p, readonly (parse p)) -> keeps I (Create_init R parse).
Proof.
  intros Hp. pose proof (get_object_keeps parse Hp). pose proof now_keeps.
  unfold Create_init, I in *. keeps_auto.
  all: apply Ia_data_field; simpl; auto.
Qed.

Lemma _init_keeps parse t kwargs :
  (forall p, readonly (parse p)) -> keeps I (_init R parse t kwargs).
Proof.
  intros Hp. pose proof (Create_init_keeps parse Hp).
  unfold _init, I in *. destruct t; keeps_auto.
  all: apply Ia_data_field; simpl; auto.
Qed.

End ObjectFrames.

Section ConstructorFrames.

Context {St : Type} (R : Runtime St).

Lemma anything_keeps A (m : Meth St A) Iw :
  keeps (pairR anything Iw) m <-> forall s, Iw (snd s) (snd (snd (m s))).
Proof.
  split; intros H s; [apply H|]. split; [exact Logic.I|apply H].
Qed.

Lemma set_data_field_world k v : keeps (pairR anything eq) (@set_data_field St k v).
Proof. apply anything_keeps. intros [a w]. reflexivity. Qed.

Lemma set_object_field_world k v :
  keeps (pairR anything eq) (@set_object_field St k v).
Proof.
  apply anything_keeps. intros [a w]. rewrite set_object_field_run.
  destruct (py_getitem (JDict (_data a)) "object") as [o|e]; auto.
  destruct (py_setitem o k v) as [o'|e']; auto.
Qed.

Lemma new_n_readonly n : forall t kwargs, readonly (new_n R n t kwargs).
Proof.
  induction n as [|n IH]; intros t kwargs; simpl;
    apply __init___readonly; intros kw;
    apply _init_keeps; auto with frames.
  all: try (intros; apply set_data_field_world).
  all: try (intros; apply set_object_field_world).
  - intros p. keeps_auto.
  - intros p. apply parse_activity_with_readonly. exact IH.
Qed.

Lemma new_readonly t kwargs : readonly (new R t kwargs).
Proof. apply new_n_readonly. Qed.

Lemma parse_activity_readonly p e : readonly (parse_activity R p e).
Proof. apply parse_activity_with_readonly, new_readonly. Qed.

Lemma parse_readonly p : readonly (parse R p).
Proof. apply parse_activity_readonly. Qed.

End ConstructorFrames.

#[export] Hint Resolve new_n_readonly new_readonly parse_activity_readonly
  parse_readonly : frames.

(** ** Running computations *)

Lemma bind_Ok {S A B} (m : ST S A) (k : A -> ST S B) s b s' :
  bind m k s = (Ok b, s') ->
  exists a s1, m s = (Ok a, s1) /\ k a s1 = (Ok b, s').
Proof.
  unfold bind. destruct (m s) as [[a|e] s1]; intros H; [eauto|discriminate].
Qed.

Lemma lift_result_Ok {S A} (r : result A) (s s' : S) a :
  lift_result r s = (Ok a, s') -> r = Ok a /\ s' = s.
Proof. unfold lift_result. intros H. inversion H. auto. Qed.

Lemma ret_Ok {S A} (x a : A) (s s' : S) :
  ret x s = (Ok a, s') -> a = x /\ s' = s.
Proof. unfold ret. intros H. inversion H. auto. Qed.

Lemma rbind_Ok {A B} (r : result A) (k : A -> result B) b :
  rbind r k = Ok b -> exists a, r = Ok a /\ k a = Ok b.
Proof. destruct r; simpl; intros H; [eauto|discriminate]. Qed.

(** ** Context normalization *)

Lemma inject_terms_last l c :
  inject_terms l = Ok c ->
  exists d, last c JNone = JDict d
            /\ Dict.mem "Hashtag" d = true /\ Dict.mem "sensitive" d = true.
Proof.
  revert c. induction l as [|x r IH]; intros c H; [discriminate|].
  destruct r as [|y r'].
  - simpl in H.
    assert (D : forall d, Dict.mem "Hashtag"
                  (Dict.set "sensitive" (JStr "as:sensitive")
                     (Dict.set "Hashtag" (JStr "as:Hashtag") d)) = true
                /\ Dict.mem "sensitive"
                  (Dict.set "sensitive" (JStr "as:sensitive")
                     (Dict.set "Hashtag" (JStr "as:Hashtag") d)) = true).
    { intros d. unfold Dict.mem.
      rewrite get_set_other by discriminate. now rewrite !get_set_same. }
    destruct x; inversion H; subst; simpl; eauto.
  - change (inject_terms (x :: y :: r')) with
      (rbind (inject_terms (y :: r')) (fun r0 => Ok (x :: r0))) in H.
    apply rbind_Ok in H. destruct H as (c' & Hc' & E). inversion E; subst.
    destruct (IH _ Hc') as (d & Hl & Hd).
    exists d. split; auto.
    destruct c' as [|z c'']; [discriminate|]. exact Hl.
Qed.

Lemma inject_terms_count s l c :
  inject_terms l = Ok c -> count_of (JStr s) c = count_of (JStr s) l.
Proof.
  revert c. induction l as [|x r IH]; intros c H; [discriminate|].
  destruct r as [|y r'].
  - simpl in H. destruct x; inversion H; subst; reflexivity.
  - change (inject_terms (x :: y :: r')) with
      (rbind (inject_terms (y :: r')) (fun r0 => Ok (x :: r0))) in H.
    apply rbind_Ok in H. destruct H as (c' & Hc' & E). inversion E; subst.
    specialize (IH _ Hc'). unfold count_of in *.
    change (filter (py_eq (JStr s)) (x :: y :: r')) with
      (if py_eq (JStr s) x then x :: filter (py_eq (JStr s)) (y :: r')
       else filter (py_eq (JStr s)) (y :: r')).
    change (filter (py_eq (JStr s)) (x :: c')) with
      (if py_eq (JStr s) x then x :: filter (py_eq (JStr s)) c'
       else filter (py_eq (JStr s)) c').
    destruct (py_eq (JStr s) x); cbn [List.length]; rewrite IH; reflexivity.
Qed.

Lemma count_of_app x l1 l2 : count_of x (l1 ++ l2) = count_of x l1 + count_of x l2.
Proof. unfold count_of. now rewrite filter_app, length_app. Qed.

Lemma py_in_count x l : py_in x l = negb (Nat.eqb (count_of x l) 0).
Proof.
  unfold py_in, count_of. induction l as [|y r IH]; simpl; auto.
  destruct (py_eq x y); simpl; auto.
Qed.

Lemma normalize_context_ext k1 k2 :
  Dict.get "@context" k1 = Dict.get "@context" k2 ->
  normalize_context k1 = normalize_context k2.
Proof. unfold normalize_context. now intros ->. Qed.

Lemma normalize_context_spec kwargs c :
  normalize_context kwargs = Ok c ->
  (exists d, last c JNone = JDict d
             /\ Dict.mem "Hashtag" d = true /\ Dict.mem "sensitive" d = true)
  /\ count_of (JStr CTX_SECURITY) c =
     Nat.max 1 (count_of (JStr CTX_SECURITY) (supplied_context kwargs))
  /\ count_of (JStr CTX_AS) c = count_of (JStr CTX_AS) (supplied_context kwargs).
Proof.
  intros H.
  assert (E : normalize_context kwargs =
              inject_terms
                (if py_in (JStr CTX_SECURITY) (supplied_context kwargs)
                 then supplied_context kwargs
                 else supplied_context kwargs ++ [JStr CTX_SECURITY])).
  { unfold normalize_context, supplied_context.
    destruct (Dict.get "@context" kwargs) as [[]|]; reflexivity. }
  rewrite E in H. clear E.
  generalize dependent (supplied_context kwargs). intros l H.
  split; [eapply inject_terms_last; eauto|].
  rewrite !(inject_terms_count _ _ H).
  destruct (py_in (JStr CTX_SECURITY) l) eqn:P; rewrite py_in_count in P.
  - destruct (count_of (JStr CTX_SECURITY) l); [discriminate|].
    split; reflexivity.
  - destruct (count_of (JStr CTX_SECURITY) l) eqn:E; [|discriminate].
    rewrite !count_of_app, E. split; [reflexivity|].
    unfold count_of at 2. simpl. apply Nat.add_0_r.
Qed.

Section InitContext.

Context {St : Type} (R : Runtime St).

Lemma init_actor_kwargs t d k w d' k' w' key :
  key <> "actor" ->
  init_actor R t d k w = (Ok (d', k'), w') ->
  Dict.get key k' = Dict.get key k.
Proof.
  intros N. unfold init_actor.
  destruct (negb (ActivityType_eqb t PERSON) && ACTOR_REQUIRED t).
  - destruct (truthy (dget "actor" k)).
    + intros H. apply bind_Ok in H. destruct H as (x & w1 & _ & H).
      apply ret_Ok in H. destruct H as [H _]. inversion H; subst.
      now apply get_remove_other.
    + destruct (ActivityType_eqb t NOTE); [|discriminate].
      destruct (Dict.mem "attributedTo" k); [|discriminate].
      intros H. apply ret_Ok in H. destruct H as [H _]. now inversion H.
  - intros H. apply ret_Ok in H. destruct H as [H _]. now inversion H.
Qed.

Lemma init_object_kwargs t d k d' k' key :
  key <> "object" ->
  init_object t d k = Ok (d', k') ->
  Dict.get key k' = Dict.get key k.
Proof.
  intros N. unfold init_object.
  destruct (OBJECT_REQUIRED t && Dict.mem "object" k);
    [|intros H; now inversion H].
  destruct (is_str (dget "object" k)).
  { intros H. inversion H. now apply get_remove_other. }
  destruct (ALLOWED_OBJECT_TYPES t) as [|t0 ts]; [discriminate|].
  intros H.
  apply rbind_Ok in H. destruct H as (ht & _ & H).
  apply rbind_Ok in H. destruct H as ([|] & _ & H); [discriminate|].
  apply rbind_Ok in H. destruct H as (ty & _ & H).
  apply rbind_Ok in H. destruct H as (ot & _ & H).
  destruct (type_in ot (t0 :: ts)); [|discriminate].
  inversion H. now apply get_remove_other.
Qed.

Lemma __init___context hook t kwargs w a w' :
  (forall kw, keeps (pairR (same_entry "@context") anything) (hook kw)) ->
  __init__ R hook t kwargs w = (Ok a, w') ->
  exists c, normalize_context kwargs = Ok c
            /\ Dict.get "@context" (_data a) = Some (JList c).
Proof.
  intros Hh H. unfold __init__ in H.
  apply bind_Ok in H. destruct H as (kw1 & w1 & H1 & H).
  assert (E1 : Dict.get "@context" kw1 = Dict.get "@context" kwargs).
  { destruct (truthy (dget "type" kwargs)).
    - destruct (negb (py_eq (dget "type" kwargs) (JStr (value t))));
        [discriminate|].
      apply ret_Ok in H1. destruct H1 as [-> _].
      apply get_remove_other. discriminate.
    - apply ret_Ok in H1. now destruct H1 as [-> _]. }
  clear H1.
  set (dk0 := match Dict.get "id" kw1 with
              | Some i => (Dict.set "id" i [("type", JStr (value t))],
                           Dict.remove "id" kw1)
              | None => ([("type", JStr (value t))], kw1)
              end) in H.
  assert (E2 : Dict.get "@context" (snd dk0) = Dict.get "@context" kwargs).
  { unfold dk0. destruct (Dict.get "id" kw1); simpl; auto.
    rewrite get_remove_other by discriminate. auto. }
  destruct dk0 as [d0 k0]. simpl in E2.
  apply bind_Ok in H. destruct H as ([d1 k1] & w2 & H2 & H).
  apply init_actor_kwargs with (key := "@context") in H2; [|discriminate].
  apply bind_Ok in H. destruct H as ([d2 k2] & w3 & H3 & H).
  apply lift_result_Ok in H3. destruct H3 as [H3 ->]. simpl in H3.
  apply init_object_kwargs with (key := "@context") in H3; [|discriminate].
  apply bind_Ok in H. destruct H as (c & w4 & H4 & H).
  apply lift_result_Ok in H4. destruct H4 as [H4 ->].
  exists c. split.
  { rewrite <- H4. apply normalize_context_ext. congruence. }
  match type of H with
  | context [try_except ?m ?sel ?h ?s] =>
      pose proof (@keeps_try_except _ (pairR (same_entry "@context") anything)
                    ltac:(eauto with frames) _ m h sel
                    (Hh _) ltac:(keeps_auto) s) as K;
      destruct (try_except m sel h s) as [r [s1 w5]]
  end.
  destruct K as [K _]. simpl in K. unfold same_entry in K. simpl in K.
  rewrite get_set_same in K.
  destruct r as [ak|e]; [|discriminate].
  assert (F : Dict.get "@context"
                (Dict.update (_data s1)
                   (filter (fun kv => match snd kv with
                                      | JNone => false | _ => true end)
                      (Dict.remove "@context" k2))) = Some (JList c)).
  { rewrite get_update_absent; auto.
    apply get_filter_none, get_remove_same. }
  destruct ak as [[|k ks]|].
  - inversion H; subst. destruct s1; exact F.
  - destruct (existsb _ _); inversion H; subst. exact K.
  - inversion H; subst. destruct s1; exact F.
Qed.

Lemma set_data_field_entry (key k : string) v :
  k <> key ->
  keeps (pairR (same_entry key) (@eq (world St))) (set_data_field k v).
Proof.
  intros N [a w]. split; simpl; auto. unfold same_entry.
  destruct a; simpl. apply get_set_other. congruence.
Qed.

Lemma set_object_field_entry (key k : string) v :
  key <> "object" ->
  keeps (pairR (same_entry key) (@eq (world St))) (set_object_field k v).
Proof.
  intros N [a w]. rewrite set_object_field_run.
  destruct (py_getitem (JDict (_data a)) "object") as [o|e];
    [|split; simpl; auto with frames].
  destruct (py_setitem o k v) as [o'|e];
    split; simpl; auto with frames.
  unfold same_entry. destruct a; simpl. now apply get_set_other.
Qed.

Lemma _init_context parse t kwargs :
  (forall p, readonly (parse p)) ->
  keeps (pairR (same_entry "@context") anything) (_init R parse t kwargs).
Proof.
  intros Hp.
  apply keeps_weaken with (I := pairR (same_entry "@context") eq);
    [|apply _init_keeps; eauto with frames].
  - intros s s' [A _]. split; auto. exact Logic.I.
  - intros k v Hk. apply set_data_field_entry.
    simpl in Hk. intuition (subst; discriminate).
  - intros k v. apply set_object_field_entry. discriminate.
Qed.

End InitContext.

(** C3, as amended.  Whatever [@context] the caller supplies (a list, a
    single value or none, which stands for the base context), a constructed
    activity has as [@context] a list that ends with a mapping carrying the
    [Hashtag] and [sensitive] keys; it holds the security context as often as
    the supplied context does and once when that has none; it holds the base
    context exactly as often as the supplied context does, so once when the
    caller supplies none. *)
Theorem context_normalized {St} (R : Runtime St) n t kwargs w a w' :
  new_n R n t kwargs w = (Ok a, w') ->
  exists c d,
    Dict.get "@context" (_data a) = Some (JList c)
    /\ last c JNone = JDict d
    /\ Dict.mem "Hashtag" d = true /\ Dict.mem "sensitive" d = true
    /\ count_of (JStr CTX_SECURITY) c =
       Nat.max 1 (count_of (JStr CTX_SECURITY) (supplied_context kwargs))
    /\ count_of (JStr CTX_AS) c = count_of (JStr CTX_AS) (supplied_context kwargs)
    /\ (Dict.get "@context" kwargs = None -> count_of (JStr CTX_AS) c = 1).
Proof.
  intros H.
  assert (Hc : exists c, normalize_context kwargs = Ok c
                         /\ Dict.get "@context" (_data a) = Some (JList c)).
  { destruct n; simpl in H; eapply __init___context; try exact H;
      intros kw; apply _init_context.
    - intros p. keeps_auto.
    - intros p. apply parse_activity_with_readonly. auto with frames. }
  destruct Hc as (c & Hn & Hg).
  destruct (normalize_context_spec _ Hn) as ((d & Hl & Hh & Hs) & Hsec & Has).
  exists c, d. repeat split; auto.
  intros E. rewrite Has. unfold supplied_context. rewrite E. reflexivity.
Qed.

Lemma context_normalized_witness :
  exists c d,
    Dict.get "@context" (_data custom_context_person) = Some (JList c)
    /\ last c JNone = JDict d
    /\ Dict.mem "Hashtag" d = true /\ Dict.mem "sensitive" d = true
    /\ count_of (JStr CTX_SECURITY) c =
       Nat.max 1 (count_of (JStr CTX_SECURITY)
                    (supplied_context custom_context_kwargs))
    /\ count_of (JStr CTX_AS) c =
       count_of (JStr CTX_AS) (supplied_context custom_context_kwargs)
    /\ (Dict.get "@context" custom_context_kwargs = None ->
        count_of (JStr CTX_AS) c = 1).
Proof.
  exact (@context_normalized _ (Mem.runtime 1) 0 PERSON custom_context_kwargs
           (Mem.initial []) custom_context_person (Mem.initial []) eq_refl).
Defined.

(** A person built with a context list that names the security context
    twice: the normalized list lacks the base context and holds the security
    context twice. *)
Lemma context_without_base_and_security_twice :
  exists a c,
    new (Mem.runtime 1) PERSON doubled_security_kwargs (Mem.initial [])
    = (Ok a, Mem.initial [])
    /\ Dict.get "@context" (_data a) = Some (JList c)
    /\ py_in (JStr CTX_AS) c = false
    /\ count_of (JStr CTX_SECURITY) c = 2.
Proof.
  eexists. eexists. split; [vm_compute; reflexivity|].
  split; [reflexivity|]. split; reflexivity.
Qed.

(** ** The type registry: [parse_activity] *)

Lemma ActivityType_eqb_eq a b : ActivityType_eqb a b = true <-> a = b.
Proof.
  split; [|intros ->; unfold ActivityType_eqb; apply String.eqb_refl].
  destruct a, b; intros H; try reflexivity; vm_compute in H; discriminate.
Qed.

Lemma ActivityType_eqb_neq a b : ActivityType_eqb a b = false <-> a <> b.
Proof.
  rewrite <- ActivityType_eqb_eq. destruct (ActivityType_eqb a b); split; congruence.
Qed.

Lemma ActivityType_of_value ty t : ActivityType_of ty = Ok t -> ty = JStr (value t).
Proof.
  intros H. destruct ty; try (simpl in H; discriminate H).
  unfold ActivityType_of in H.
  destruct (find (fun t0 => String.eqb (value t0) s) all_ActivityType)
    as [t'|] eqn:F; [|discriminate H].
  inversion H; subst. apply find_some in F. destruct F as [_ F].
  apply String.eqb_eq in F. now subst.
Qed.

Lemma ActivityType_of_error ty e : ActivityType_of ty = Raise e -> e = ValueError.
Proof.
  destruct ty; try (simpl; intros H; now inversion H).
  unfold ActivityType_of.
  destruct (find (fun t0 => String.eqb (value t0) s) all_ActivityType);
    intros H; now inversion H.
Qed.

(** C8, as amended.  For a payload whose [type] names a member [t] of
    [ActivityType]: [parse_activity] raises [UnexpectedActivityTypeError] when
    an expected type is given and differs from [t]; failing that it raises
    [BadActivityError] when no class is registered for [t]; otherwise it is
    the constructor of the class of [t] applied to the payload, with the
    validation the constructor does.  For a [type] that names no member, the
    enumeration lookup raises [ValueError] before either check. *)
Theorem parse_activity_spec {St} (R : Runtime St) d ty expected w :
  Dict.get "type" d = Some ty ->
  (forall t, ActivityType_of ty = Ok t ->
     (forall e, expected = Some e -> e <> t ->
        parse_activity R (JDict d) expected w
        = (Raise (UnexpectedActivityTypeError ExpectedActivity), w))
     /\ (expected = None \/ expected = Some t ->
         type_in t _ACTIVITY_CLS = false ->
         parse_activity R (JDict d) expected w
         = (Raise (BadActivityError UnsupportedActivityType), w))
     /\ (expected = None \/ expected = Some t ->
         type_in t _ACTIVITY_CLS = true ->
         parse_activity R (JDict d) expected w = new R t d w))
  /\ (forall e, ActivityType_of ty = Raise e ->
        parse_activity R (JDict d) expected w = (Raise ValueError, w)).
Proof.
  intros Hty.
  unfold parse_activity, parse_activity_with, bind, lift_result.
  cbn [py_getitem]. rewrite Hty. split.
  - intros t Ht. rewrite Ht. repeat split.
    + intros e -> N.
      assert (F : ActivityType_eqb t e = false) by (apply ActivityType_eqb_neq; congruence).
      now rewrite F.
    + intros [->| ->] Hr.
      * cbn [ret]. now rewrite Hr.
      * assert (F : ActivityType_eqb t t = true) by now apply ActivityType_eqb_eq.
        rewrite F. cbn [negb ret]. now rewrite Hr.
    + intros [->| ->] Hr.
      * cbn [ret]. now rewrite Hr.
      * assert (F : ActivityType_eqb t t = true) by now apply ActivityType_eqb_eq.
        rewrite F. cbn [negb ret]. now rewrite Hr.
  - intros e He. rewrite He. now rewrite (ActivityType_of_error _ He).
Qed.

Lemma parse_activity_spec_witness :
  parse_activity (Mem.runtime 1)
    (JDict [("type", JStr "Reject"); ("id", JStr "https://a.example/r/1")])
    None (Mem.initial [])
  = (Raise (BadActivityError UnsupportedActivityType), Mem.initial []).
Proof.
  refine (proj1 (proj2 (proj1 (@parse_activity_spec _ (Mem.runtime 1)
            [("type", JStr "Reject"); ("id", JStr "https://a.example/r/1")]
            (JStr "Reject") None (Mem.initial []) eq_refl) REJECT eq_refl))
            (or_introl eq_refl) eq_refl).
Defined.

(** A payload whose [type] is outside the enumeration, parsed with an
    expected type: the type neither matches the expected one nor is
    registered, and the error is a [ValueError], not one of the two errors of
    the library. *)
Lemma parse_activity_unknown_type_is_ValueError :
  let payload := JDict [("type", JStr "Question");
                        ("id", JStr "https://a.example/q/1")] in
  parse_activity (Mem.runtime 1) payload (Some FOLLOW) (Mem.initial [])
  = (Raise ValueError, Mem.initial [])
  /\ parse_activity (Mem.runtime 1) payload None (Mem.initial [])
     = (Raise ValueError, Mem.initial [])
  /\ existsb (fun t => String.eqb (value t) "Question") _ACTIVITY_CLS = false.
Proof. repeat split. Qed.

(** ** Frame conditions of the methods *)

Lemma pairR_eq_weaken {St} (Ia : activity -> activity -> Prop)
      (Iw : world St -> world St -> Prop) A (m : Meth St A) :
  (forall w, Iw w w) -> keeps (pairR Ia eq) m -> keeps (pairR Ia Iw) m.
Proof.
  intros Hr. apply keeps_weaken. intros s s' [Ha Hw]. split; auto.
  rewrite <- Hw. apply Hr.
Qed.

Section MethodFrames.

Context {St : Type} (R : Runtime St).
Variable Ia : activity -> activity -> Prop.
Variable Iw : world St -> world St -> Prop.
Hypothesis Ia_refl : forall a, Ia a a.
Hypothesis Ia_trans : forall a b c, Ia a b -> Ia b c -> Ia a c.
Hypothesis Ia_cache : forall o a, Ia a (set_cache o a).
Hypothesis Ia_object :
  forall v a, Ia a (set_data (Dict.set "object" v (_data a)) a).
Hypothesis Iw_refl : forall w, Iw w w.
Hypothesis Iw_trans : forall a b c, Iw a b -> Iw b c -> Iw a c.

(** The backend methods called as [BACKEND.m(as_actor, activity)], other
    than [inbox_new], are within what [Iw] allows. *)
Hypothesis Iw_call :
  forall m p a, m <> inbox_new -> keeps Iw (bk_do R (Call m p a)).

Let I : activity * world St -> activity * world St -> Prop := pairR Ia Iw.

Lemma readonly_W A (m : W St A) : readonly m -> keeps Iw m.
Proof. apply readonly_keeps. exact Iw_refl. Qed.

Hint Extern 3 (keeps Iw _) => apply readonly_W : frames.

Lemma get_object_raw_frames : keeps I (get_object_raw R (parse R)).
Proof.
  apply pairR_eq_weaken; auto.
  apply get_object_raw_keeps; auto with frames.
Qed.

Lemma get_object_frames : keeps I (get_object R (parse R)).
Proof.
  apply pairR_eq_weaken; auto.
  apply get_object_keeps; auto with frames.
Qed.

Hint Resolve get_object_raw_frames get_object_frames : frames.

Lemma _get_actual_object_frames : keeps I (_get_actual_object R).
Proof. unfold _get_actual_object, I. keeps_auto. Qed.

Hint Resolve _get_actual_object_frames : frames.

Lemma _recipients_n_step n :
  match n with
  | O => True
  | S m => keeps (pairR anything Iw) (_recipients_n R m)
  end ->
  keeps I (_recipients_n R n).
Proof.
  intros Hrec.
  assert (G : forall o, keeps I (on_object o (get_object R (parse R)))).
  { intros o. apply keeps_on_object; auto.
    apply pairR_eq_weaken; auto.
    apply get_object_keeps; auto with frames. }
  destruct n as [|m]; simpl; unfold I in *; keeps_auto.
  all: first [apply keeps_call_on; exact Hrec | apply keeps_on_object; auto].
Qed.

Lemma bk_call_frames m p : m <> inbox_new -> keeps I (bk_call R m p).
Proof. intros N. unfold bk_call, I. keeps_auto. Qed.

Lemma bk_call_guarded_frames m p :
  m <> inbox_new -> keeps I (bk_call_guarded R m p).
Proof.
  intros N. pose proof (bk_call_frames p N).
  unfold bk_call_guarded, I in *. keeps_auto.
Qed.

Hint Resolve bk_call_frames bk_call_guarded_frames : frames.

Lemma check_same_actor_frames why actor obj :
  keeps I (check_same_actor R why actor obj).
Proof. unfold check_same_actor, I. keeps_auto. Qed.

Hint Resolve check_same_actor_frames : frames.

Lemma _pre_process_from_inbox_frames p : keeps I (_pre_process_from_inbox R p).
Proof. unfold _pre_process_from_inbox, I. keeps_auto. Qed.

Lemma _pre_post_to_outbox_frames : keeps I (_pre_post_to_outbox R).
Proof. unfold _pre_post_to_outbox, I. keeps_auto. Qed.

Lemma _undo_inbox_frames p : keeps I (_undo_inbox R p).
Proof. unfold _undo_inbox, I. keeps_auto. Qed.

Lemma _undo_outbox_frames p : keeps I (_undo_outbox R p).
Proof. unfold _undo_outbox, I. keeps_auto. Qed.

End MethodFrames.

Section RecipientFrames.

Context {St : Type} (R : Runtime St).

Lemma add_endpoint_total actor out :
  forall (S : Type), keeps (@eq S) (lift_result (add_endpoint actor out)).
Proof. intros S. keeps_auto. Qed.

Lemma collection_loop_readonly actor_id items :
  forall out col, readonly (collection_loop R actor_id items out col).
Proof.
  induction items as [|item rest IH]; intros out col; simpl; keeps_auto.
Qed.

Hint Resolve collection_loop_readonly : frames.

Lemma parse_collection_readonly raw :
  readonly (backend R (fun b (w : world St) =>
              (parse_collection R (fetch_iri b (store w)) raw, w))).
Proof. unfold backend. destruct (BACKEND R); keeps_auto. intros w. reflexivity. Qed.

Hint Resolve parse_collection_readonly : frames.

Lemma recipients_loop_readonly actor_id recipients :
  forall out col, readonly (recipients_loop R actor_id recipients out col).
Proof.
  induction recipients as [|r rest IH]; intros out col; simpl; keeps_auto.
Qed.

Variable Iw : world St -> world St -> Prop.
Hypothesis Iw_refl : forall w, Iw w w.
Hypothesis Iw_trans : forall a b c, Iw a b -> Iw b c -> Iw a c.
Hypothesis Iw_call :
  forall m p a, m <> inbox_new -> keeps Iw (bk_do R (Call m p a)).

Lemma _recipients_n_any n : keeps (pairR anything Iw) (_recipients_n R n).
Proof.
  induction n as [|n IH]; apply _recipients_n_step; auto with frames.
Qed.

Variable Ia : activity -> activity -> Prop.
Hypothesis Ia_refl : forall a, Ia a a.
Hypothesis Ia_trans : forall a b c, Ia a b -> Ia b c -> Ia a c.
Hypothesis Ia_cache : forall o a, Ia a (set_cache o a).
Hypothesis Ia_object :
  forall v a, Ia a (set_data (Dict.set "object" v (_data a)) a).

Lemma _recipients_n_frames n : keeps (pairR Ia Iw) (_recipients_n R n).
Proof.
  apply _recipients_n_step; auto.
  destruct n; auto. apply _recipients_n_any.
Qed.

Lemma recipients_frames : keeps (pairR Ia Iw) (recipients R).
Proof.
  pose proof (_recipients_n_frames (recursion_limit R)).
  pose proof recipients_loop_readonly.
  unfold recipients, _recipients. keeps_auto.
  all: solve [apply readonly_keeps; auto with frames].
Qed.

Lemma _post_to_outbox_frames p oid act rec :
  keeps (pairR Ia Iw) (_post_to_outbox R p oid act rec).
Proof.
  assert (keeps (pairR Ia Iw) (get_object R (parse R)))
    by (apply get_object_frames; auto).
  assert (forall m, m <> inbox_new -> keeps (pairR Ia Iw) (bk_call R m p))
    by (intros; apply bk_call_frames; auto).
  assert (forall m, m <> inbox_new -> keeps (pairR Ia Iw) (bk_call_guarded R m p))
    by (intros; apply bk_call_guarded_frames; auto).
  unfold _post_to_outbox. keeps_auto.
  all: try solve [apply readonly_keeps; auto with frames].
  apply keeps_on_object; auto.
  apply _undo_outbox_frames; auto with frames.
Qed.

End RecipientFrames.

(** ** Cleaning before delivery *)

Lemma clean_field_spec field d d' :
  field <> "object" -> field <> "type" ->
  clean_field field d = Ok d' ->
  Dict.mem field d' = false
  /\ Dict.get "type" d' = Dict.get "type" d
  /\ (forall k, k <> field -> k <> "object" -> Dict.get k d' = Dict.get k d)
  /\ (Dict.get "type" d = Some (JStr "Create") ->
      forall o', Dict.get "object" d' = Some (JDict o') ->
      exists o, Dict.get "object" d = Some (JDict o)
                /\ Dict.mem field o' = false
                /\ forall k, k <> field -> Dict.get k o' = Dict.get k o)
  /\ (Dict.get "type" d <> Some (JStr "Create") ->
      Dict.get "object" d' = Dict.get "object" d).
Proof.
  intros No Nt. unfold clean_field.
  set (d0 := if Dict.mem field d then Dict.remove field d else d).
  assert (G : forall k, Dict.get k d0 = if String.eqb k field then None else Dict.get k d).
  { intros k. apply remove_if_mem_get. }
  assert (Gf : Dict.get field d0 = None) by (rewrite G, String.eqb_refl; auto).
  assert (Gk : forall k, k <> field -> Dict.get k d0 = Dict.get k d).
  { intros k N. rewrite G. destruct (String.eqb_spec k field); congruence. }
  clearbody d0. intros H.
  apply rbind_Ok in H. destruct H as (ty & Hty & H).
  simpl in Hty. destruct (Dict.get "type" d0) as [ty'|] eqn:Et; inversion Hty; subst ty'.
  rewrite Gk in Et by congruence.
  destruct (py_eq ty (JStr "Create")) eqn:Ec.
  - assert (ty = JStr "Create").
    { destruct ty; try discriminate. simpl in Ec. apply String.eqb_eq in Ec. now subst. }
    subst ty.
    apply rbind_Ok in H. destruct H as (o & Ho & H).
    simpl in Ho. destruct (Dict.get "object" d0) as [o0|] eqn:Eo; inversion Ho; subst o0.
    rewrite Gk in Eo by congruence.
    apply rbind_Ok in H. destruct H as (c & Hc & H).
    destruct c.
    + apply rbind_Ok in H. destruct H as (o1 & Ho1 & H). injection H as E; subst d'.
      unfold Dict.mem. rewrite !get_set_other by congruence. rewrite Gf, Gk by congruence.
      repeat split; auto.
      * intros k N1 N2. rewrite get_set_other by congruence. auto.
      * intros _ o' E'. rewrite get_set_same in E'. inversion E'; subst o1.
        destruct o; try discriminate. simpl in Ho1.
        destruct (Dict.mem field d1); inversion Ho1; subst.
        exists d1. repeat split; auto.
        -- unfold Dict.mem. now rewrite get_remove_same.
        -- intros k N. now apply get_remove_other.
      * congruence.
    + injection H as E; subst d'. unfold Dict.mem. rewrite Gf, !Gk by congruence.
      repeat split; auto.
      * intros _ o' E'.
        rewrite Eo in E'. inversion E'; subst o.
        simpl in Hc. injection Hc as Hm.
        exists o'. split; [exact Eo|]. split; [exact Hm|auto].
  - injection H as E; subst d'. unfold Dict.mem. rewrite Gf, !Gk by congruence.
    repeat split; auto.
    intros E. rewrite Et in E. inversion E; subst. discriminate.
Qed.

(** What [clean_activity] returns has neither hidden-recipient field, and
    when it is a [Create] with an inline object, neither has the object. *)
Lemma clean_activity_spec d act :
  clean_activity d = Ok act ->
  Dict.mem "bto" act = false /\ Dict.mem "bcc" act = false
  /\ Dict.get "type" act = Dict.get "type" d
  /\ (Dict.get "type" act = Some (JStr "Create") ->
      forall o, Dict.get "object" act = Some (JDict o) ->
                Dict.mem "bto" o = false /\ Dict.mem "bcc" o = false)
  /\ (forall k, k <> "bto" -> k <> "bcc" -> k <> "object" ->
                Dict.get k act = Dict.get k d)
  /\ (Dict.get "type" d <> Some (JStr "Create") ->
      Dict.get "object" act = Dict.get "object" d).
Proof.
  unfold clean_activity. intros H.
  apply rbind_Ok in H. destruct H as (d1 & H1 & H2).
  apply clean_field_spec in H1; try discriminate.
  apply clean_field_spec in H2; try discriminate.
  destruct H1 as (M1 & T1 & K1 & C1 & N1).
  destruct H2 as (M2 & T2 & K2 & C2 & N2).
  repeat split; auto.
  - unfold Dict.mem in *. rewrite K2 by discriminate. exact M1.
  - congruence.
  - rewrite T2, T1 in H. rewrite <- T1 in H.
    destruct (C2 H _ H0) as (o1 & E1 & Mb & Kb).
    rewrite T1 in H. destruct (C1 H _ E1) as (o0 & E0 & Ma & Ka).
    unfold Dict.mem in *. rewrite Kb by discriminate. exact Ma.
  - rewrite T2, T1 in H. rewrite <- T1 in H.
    destruct (C2 H _ H0) as (o1 & E1 & Mb & Kb). exact Mb.
  - intros k Na Nb No. rewrite K2, K1 by congruence. reflexivity.
  - intros N. rewrite N2, N1 by congruence. reflexivity.
Qed.

(** ** Identifier assignment *)

Lemma same_entry_ctx_slot k x a : same_entry k a (set_ctx_slot x a).
Proof. destruct a. reflexivity. Qed.

#[export] Hint Resolve same_entry_ctx_slot : frames.

Section SetIdFrames.

Context {St : Type}.

Lemma ctx_keeps Ia : (forall a, Ia a a) ->
  keeps (pairR Ia (@eq (world St))) (@ctx St).
Proof.
  intros Hr [a w]. unfold ctx, bind, self. cbn [fst snd].
  destruct (ctx_of a); split; simpl; auto.
Qed.

Lemma _outbox_set_id_entry key uri obj_id :
  key <> "object" ->
  keeps (pairR (same_entry key) eq) (@_outbox_set_id St uri obj_id).
Proof.
  intros N. pose proof (@set_object_field_entry St key).
  pose proof (@ctx_keeps (same_entry key) (same_entry_refl key)).
  unfold _outbox_set_id. keeps_auto.
Qed.

Lemma outbox_set_id_run uri obj_id a (w : world St) :
  Dict.get "id" (_data (self_after (outbox_set_id uri obj_id (a, w))))
  = Some (JStr uri)
  /\ world_after (outbox_set_id uri obj_id (a, w)) = w.
Proof.
  assert (K : keeps (pairR (same_entry "id") (@eq (world St)))
                (try_except (@_outbox_set_id St uri obj_id)
                            is_NotImplementedError (ret tt))).
  { apply keeps_try_except; [eauto with frames| |keeps_auto].
    apply _outbox_set_id_entry. discriminate. }
  change (outbox_set_id uri obj_id (a, w)) with
    (try_except (@_outbox_set_id St uri obj_id) is_NotImplementedError (ret tt)
                (set_data (Dict.set "id" (JStr uri) (_data a)) a, w)).
  destruct (K (set_data (Dict.set "id" (JStr uri) (_data a)) a, w)) as [Ka Kw].
  unfold self_after, world_after. cbn [fst snd] in Ka, Kw.
  unfold same_entry in Ka. split; [|symmetry; exact Kw].
  rewrite Ka. destruct a; simpl. apply get_set_same.
Qed.

End SetIdFrames.

(** ** Frame conditions of the outbox pipeline *)

Section OutboxFrames.

Context {St : Type} (R : Runtime St).
Variable Ia : activity -> activity -> Prop.
Variable Iw : world St -> world St -> Prop.
Hypothesis Ia_refl : forall a, Ia a a.
Hypothesis Ia_trans : forall a b c, Ia a b -> Ia b c -> Ia a c.
Hypothesis Ia_cache : forall o a, Ia a (set_cache o a).
Hypothesis Ia_object :
  forall v a, Ia a (set_data (Dict.set "object" v (_data a)) a).
Hypothesis Iw_refl : forall w, Iw w w.
Hypothesis Iw_trans : forall a b c, Iw a b -> Iw b c -> Iw a c.
Hypothesis Iw_call :
  forall m p a, m <> inbox_new -> keeps Iw (bk_do R (Call m p a)).

Let I : activity * world St -> activity * world St -> Prop := pairR Ia Iw.

Lemma cleaned_dict_frames : keeps I (@cleaned_dict St).
Proof. unfold cleaned_dict, I. keeps_auto. Qed.

Lemma pre_hook_frames :
  keeps I (try_except (_pre_post_to_outbox R) is_NotImplementedError (ret tt)).
Proof.
  apply keeps_try_except; [unfold I; eauto with frames| |unfold I; keeps_auto].
  apply _pre_post_to_outbox_frames; auto.
Qed.

Lemma get_actor_self_frames A (k : activity -> Meth St A) :
  (forall p, keeps I (k p)) ->
  keeps I (s <- self ;; a <- liftW (get_actor R s) ;; k a)%st.
Proof.
  intros Hk. unfold I in *. keeps_auto.
  apply readonly_keeps; auto with frames.
Qed.

Lemma post_hook_frames obj_id activity recipients :
  keeps I (try_except
             (s <- self ;;
              a <- liftW (get_actor R s) ;;
              _post_to_outbox R a obj_id activity recipients)%st
             is_NotImplementedError (ret tt)).
Proof.
  apply keeps_try_except; [unfold I; eauto with frames| |unfold I; keeps_auto].
  apply get_actor_self_frames. intros p.
  apply _post_to_outbox_frames; auto.
Qed.

Lemma outbox_new_frames :
  keeps I (s <- self ;; a <- liftW (get_actor R s) ;; bk_call R outbox_new a)%st.
Proof.
  apply get_actor_self_frames. intros p. apply bk_call_frames; auto.
discriminate.
Qed.

(** Deliveries are within [Iw] too. *)
Hypothesis Iw_post : forall p pl r, keeps Iw (bk_do R (post_to_remote_inbox p pl r)).

Lemma deliver_frames payload recipients : keeps I (deliver R payload recipients).
Proof.
  induction recipients as [|r rest IH]; simpl; unfold I in *; keeps_auto.
  apply readonly_keeps; auto with frames.
Qed.

Lemma outbox_publish_frames obj_id : keeps I (outbox_publish R obj_id).
Proof.
  pose proof pre_hook_frames. pose proof outbox_new_frames.
  pose proof post_hook_frames. pose proof deliver_frames.
  pose proof cleaned_dict_frames.
  assert (keeps I (recipients R)) by (apply recipients_frames; auto).
  unfold outbox_publish, I in *.
  apply keeps_bind; [eauto with frames|auto|intros _].
  apply keeps_bind; [eauto with frames|apply keeps_self; auto|intros s].
  apply keeps_bind; [eauto with frames| |intros p].
  { apply keeps_liftW; auto. apply readonly_keeps; auto with frames. }
  apply keeps_bind; [eauto with frames| |intros _].
  { apply bk_call_frames; auto. discriminate. }
  apply keeps_bind; [eauto with frames|auto|intros recps].
  apply keeps_bind; [eauto with frames|auto|intros act].
  apply keeps_bind; [eauto with frames|auto|intros _].
  auto.
Qed.

End OutboxFrames.

(** ** Running the outbox pipeline *)

Lemma liftW_Ok {St A} (m : W St A) a w x a' w' :
  liftW m (a, w) = (Ok x, (a', w')) -> a' = a /\ m w = (Ok x, w').
Proof.
  unfold liftW. cbn [fst snd]. destruct (m w) as [r w1].
  intros H. inversion H; subst. auto.
Qed.

Lemma self_Ok {St} (s : activity * world St) x s' :
  self s = (Ok x, s') -> x = fst s /\ s' = s.
Proof. unfold self. intros H. inversion H. auto. Qed.

Lemma grows_quietly_refl {St} (w : world St) : grows_quietly w w.
Proof. exists []. rewrite app_nil_r. auto. Qed.

Lemma grows_quietly_trans {St} (w1 w2 w3 : world St) :
  grows_quietly w1 w2 -> grows_quietly w2 w3 -> grows_quietly w1 w3.
Proof.
  intros (l1 & E1 & F1) (l2 & E2 & F2). exists (l1 ++ l2).
  rewrite E2, E1, app_assoc, forallb_app, F1, F2. auto.
Qed.

#[export] Hint Resolve grows_quietly_refl grows_quietly_trans : frames.

Section OutboxRun.

Context {St : Type} (R : Runtime St).

Lemma bk_do_call_quiet m p a : keeps grows_quietly (bk_do R (Call m p a)).
Proof.
  intros w. unfold bk_do, backend. destruct (BACKEND R); simpl.
  - exists [Call m p a]. auto.
  - apply grows_quietly_refl.
Qed.

Lemma bk_random_object_id_quiet : keeps grows_quietly (bk_random_object_id R).
Proof.
  intros w. unfold bk_random_object_id, backend. destruct (BACKEND R); simpl.
  - destruct (random_object_id b (store w)). simpl.
    exists []. simpl. now rewrite app_nil_r.
  - apply grows_quietly_refl.
Qed.

Lemma set_data_field_quiet k v :
  keeps (pairR anything grows_quietly) (@set_data_field St k v).
Proof. intros [a w]. split; simpl; auto with frames. Qed.

Lemma cleaned_dict_Ok a (w : world St) activity a' w' :
  cleaned_dict (a, w) = (Ok activity, (a', w')) ->
  clean_activity (_data a) = Ok activity /\ w' = w.
Proof.
  unfold cleaned_dict. intros H.
  apply bind_Ok in H. destruct H as (s & st1 & H1 & H).
  apply self_Ok in H1. destruct H1 as [-> ->]. cbn [fst] in H.
  apply bind_Ok in H. destruct H as (d & st1 & H1 & H).
  apply lift_result_Ok in H1. destruct H1 as [H1 ->].
  rewrite to_dict_plain in H1. injection H1 as <-.
  apply bind_Ok in H. destruct H as (act & st1 & H3 & H).
  apply lift_result_Ok in H3. destruct H3 as [H3 ->].
  apply bind_Ok in H. destruct H as ([] & [a2 w2] & H2 & H).
  apply ret_Ok in H. destruct H as [-> E]. inversion E; subst.
  split; auto.
  destruct (py_eq (dget "type" act) (JStr "Create")).
  - unfold set_data_field, modify_self in H2. now inversion H2.
  - apply ret_Ok in H2. destruct H2 as [_ E2]. now inversion E2.
Qed.

End OutboxRun.

Lemma bind_ext {S A B} (m : ST S A) (k1 k2 : A -> ST S B) s :
  (forall a s', m s = (Ok a, s') -> k1 a s' = k2 a s') ->
  bind m k1 s = bind m k2 s.
Proof.
  intros H. unfold bind. destruct (m s) as [[a|e] s']; auto.
Qed.

Lemma bind_ext_left {S A B} (m1 m2 : ST S A) (k : A -> ST S B) s :
  m1 s = m2 s -> bind m1 k s = bind m2 k s.
Proof. intros H. unfold bind. now rewrite H. Qed.

Lemma keeps_run {S A} (I : S -> S -> Prop) (m : ST S A) s r s' :
  keeps I m -> m s = (r, s') -> I s s'.
Proof. intros K E. specialize (K s). now rewrite E in K. Qed.

Lemma anything_cache o a : @anything activity a (set_cache o a).
Proof. exact Logic.I. Qed.

Lemma anything_object v a :
  @anything activity a (set_data (Dict.set "object" v (_data a)) a).
Proof. exact Logic.I. Qed.



(** ** The identifier of a posted activity *)

Lemma set_data_field_object_entry {St} key v :
  key <> "object" ->
  keeps (pairR (same_entry key) (@anything (world St))) (set_data_field "object" v).
Proof.
  intros N [a w]. split; [|exact Logic.I]. unfold same_entry. simpl.
  destruct a; simpl. now apply get_set_other.
Qed.

(** C6, as amended.  [outbox_set_id] stores the identifier it is given,
    whatever identifier the activity had, and whether or not the class
    callback then raises; after a successful [post_to_outbox] the activity
    has the identifier minted in that very call. *)
Theorem outbox_set_id_overwrites {St} (R : Runtime St) :
  (forall uri obj_id a (w : world St),
      Dict.get "id" (_data (self_after (outbox_set_id uri obj_id (a, w))))
      = Some (JStr uri))
  /\ (forall b a w a' w',
        BACKEND R = Some b ->
        post_to_outbox R (a, w) = (Ok tt, (a', w')) ->
        Dict.get "id" (_data a')
        = Some (JStr (activity_url b (snd (random_object_id b (store w)))
                                   (fst (random_object_id b (store w)))))).
Proof.
  split.
  - intros. apply outbox_set_id_run.
  - intros b a w a' w' Hb H. unfold post_to_outbox in H.
    apply bind_Ok in H. destruct H as ([] & [a1 w1] & E1 & H).
    apply liftW_Ok in E1. destruct E1 as [-> E1].
    unfold guard in E1. rewrite Hb in E1. apply ret_Ok in E1. destruct E1 as [_ ->].
    apply bind_Ok in H. destruct H as (obj_id & [a2 w2] & E2 & H).
    apply liftW_Ok in E2. destruct E2 as [-> E2].
    unfold bk_random_object_id, backend in E2. rewrite Hb in E2.
    destruct (random_object_id b (store w)) as [i st1] eqn:Ef.
    inversion E2; subst obj_id w2. clear E2.
    apply bind_Ok in H. destruct H as (uri & [a3 w3] & E3 & H).
    apply liftW_Ok in E3. destruct E3 as [-> E3].
    unfold bk_activity_url, backend in E3. rewrite Hb in E3.
    inversion E3; subst uri w3. clear E3. cbn [store fst snd] in *.
    apply bind_Ok in H. destruct H as ([] & [a4 w4] & E4 & H).
    destruct (outbox_set_id_run (activity_url b st1 i) i a
                {| store := st1; trace := trace w |}) as [G _].
    rewrite E4 in G. unfold self_after in G. cbn [fst snd] in G.
    assert (K : keeps (pairR (same_entry "id") anything) (outbox_publish R i)).
    { apply outbox_publish_frames; eauto with frames.
      - intros m p x _ s. exact Logic.I.
      - intros p pl r s. exact Logic.I. }
    destruct (@keeps_run _ _ _ _ _ _ _ K H) as [Ke _].
    unfold same_entry in Ke. cbn [fst] in Ke. congruence.
Qed.

Lemma outbox_set_id_overwrites_witness :
  Dict.get "id" (_data (self_after follow_posted))
  = Some (JStr "https://me.example/outbox/obj0").
Proof.
  exact (proj2 (outbox_set_id_overwrites RT) Mem.backend sample_follow w0
               (self_after follow_posted) (world_after follow_posted)
               eq_refl eq_refl).
Defined.

(** An activity that has an identifier gets another one from
    [outbox_set_id], and the follow request posted twice has the first minted
    identifier after the first call and the second after the second. *)
Lemma identifier_is_reassigned :
  (let s1 := snd (outbox_set_id "https://me.example/outbox/1" "1" (like_sample, w0)) in
   let s2 := snd (outbox_set_id "https://me.example/outbox/2" "2" s1) in
   Dict.get "id" (_data like_sample) = Some (JStr "https://a.example/like/1")
   /\ Dict.get "id" (_data (fst s1)) = Some (JStr "https://me.example/outbox/1")
   /\ Dict.get "id" (_data (fst s2)) = Some (JStr "https://me.example/outbox/2"))
  /\ fst follow_posted = Ok tt
  /\ fst follow_posted_again = Ok tt
  /\ follow_posted_again = post_to_outbox RT (snd follow_posted)
  /\ Dict.get "id" (_data (self_after follow_posted))
     = Some (JStr "https://me.example/outbox/obj0")
  /\ Dict.get "id" (_data (self_after follow_posted_again))
     = Some (JStr "https://me.example/outbox/obj1").
Proof. vm_compute. repeat split. Qed.



(** ** Recipient resolution *)

(** C2.  Two recipients that declare the same shared inbox: the second one
    finds the shared inbox already listed and is given its personal inbox as
    well, so the result is the shared inbox followed by a personal inbox
    where the claim has the shared inbox alone.  A recipient whose
    [endpoints] declare no shared inbox contributes [None] and not its
    personal inbox. *)
Theorem recipients_shared_inbox_falls_through :
  fst (recipients RT (note_to_bob_and_carol, w0))
  = Ok [JStr b_shared; JStr "https://b.example/u/carol/inbox"]
  /\ fst (recipients RT (note_to_erin, w_erin)) = Ok [JNone].
Proof. split; vm_compute; reflexivity. Qed.

(** ** The inbox pipeline *)

Section InboxRun.

Context {St : Type} (R : Runtime St) (b : Backend St).
Hypothesis Hb : BACKEND R = Some b.

Lemma guard_run (w : world St) : guard R w = (Ok tt, w).
Proof. unfold guard. now rewrite Hb. Qed.

Lemma bk_query_run q (w : world St) : bk_query R q w = (Ok (q b (store w)), w).
Proof. unfold bk_query, backend. now rewrite Hb. Qed.

Lemma bk_do_run c (w : world St) : bk_do R c w = (Ok tt, after_call b c w).
Proof. unfold bk_do, backend. now rewrite Hb. Qed.

(** [process_from_inbox] up to the two checks. *)
Lemma process_from_inbox_checks p a w actor :
  get_actor R a w = (Ok actor, w) ->
  process_from_inbox R p (a, w) =
  if outbox_is_blocked b (store w) p (attr_id actor) then (Ok tt, (a, w))
  else if inbox_get_by_iri b (store w) p (attr_id a) then (Ok tt, (a, w))
  else
    (try_except (_pre_process_from_inbox R p) is_NotImplementedError (ret tt) ;;;
     bk_call R inbox_new p ;;;
     try_except (_process_from_inbox R p) is_NotImplementedError (ret tt))%st
      (a, w).
Proof.
  intros Ha. unfold process_from_inbox.
  unfold bind at 1. unfold liftW at 1. cbn [fst snd]. rewrite guard_run.
  unfold bind at 1. unfold self at 1. cbn [fst snd].
  unfold bind at 1. unfold liftW at 1. cbn [fst snd]. rewrite Ha.
  unfold bind at 1. unfold liftW at 1. cbn [fst snd]. rewrite bk_query_run.
  destruct (outbox_is_blocked b (store w) p (attr_id actor)); [reflexivity|].
  unfold bind at 1. unfold liftW at 1. cbn [fst snd]. rewrite bk_query_run.
  destruct (inbox_get_by_iri b (store w) p (attr_id a)); reflexivity.
Qed.

Lemma bk_call_run m p a (w : world St) :
  bk_call R m p (a, w) = (Ok tt, (a, after_call b (Call m p a) w)).
Proof.
  unfold bk_call, bind, self, liftW. cbn [fst snd]. now rewrite bk_do_run.
Qed.

(** C9.  An [Announce] whose object is a string that does not start with
    [http], from a sender that is not blocked and not yet in the inbox: the
    pipeline stores it with [inbox_new], and only then the post-inbox hook
    finds the legacy reference and returns without recording a share. *)
Theorem announce_legacy_reference_is_stored p a w actor u :
  ACTIVITY_TYPE a = ANNOUNCE ->
  Dict.get "object" (_data a) = Some (JStr u) ->
  String.prefix "http" u = false ->
  get_actor R a w = (Ok actor, w) ->
  outbox_is_blocked b (store w) p (attr_id actor) = false ->
  inbox_get_by_iri b (store w) p (attr_id a) = false ->
  process_from_inbox R p (a, w)
  = (Ok tt, (a, after_call b (Call inbox_new p a) w)).
Proof.
  intros Hc Ho Hp Ha Hbl Hd.
  rewrite (process_from_inbox_checks p a Ha), Hbl, Hd.
  unfold bind at 1.
  assert (E1 : try_except (_pre_process_from_inbox R p) is_NotImplementedError
                          (ret tt) (a, w) = (Ok tt, (a, w))).
  { unfold try_except, _pre_process_from_inbox, bind, self. cbn [fst snd].
    rewrite Hc. reflexivity. }
  rewrite E1. unfold bind at 1. rewrite bk_call_run.
  unfold try_except, _process_from_inbox, bind, self, lift_result.
  cbn [fst snd py_getitem]. rewrite Hc, Ho, Hp. reflexivity.
Qed.

End InboxRun.

Lemma announce_legacy_reference_is_stored_witness :
  process_from_inbox RT (person_of alice) (legacy_announce, w0)
  = (Ok tt, (legacy_announce,
             after_call Mem.backend
                        (Call inbox_new (person_of alice) legacy_announce) w0))
  /\ Mem.inbox (store (world_after
                         (process_from_inbox RT (person_of alice) (legacy_announce, w0))))
     = [(JStr alice, legacy_announce)].
Proof.
  split.
  - exact (@announce_legacy_reference_is_stored _ RT Mem.backend eq_refl
             (person_of alice) legacy_announce w0 (person_of bob) legacy_notice
             eq_refl eq_refl eq_refl eq_refl eq_refl eq_refl).
  - vm_compute. reflexivity.
Defined.

(** ** Frame conditions of the inbox hooks *)

Section InboxFrames.

Context {St : Type} (R : Runtime St).
Variable Iw : world St -> world St -> Prop.
Hypothesis Iw_refl : forall w, Iw w w.
Hypothesis Iw_trans : forall a b c, Iw a b -> Iw b c -> Iw a c.
Hypothesis Iw_call :
  forall m p a, m <> inbox_new -> keeps Iw (bk_do R (Call m p a)).
Hypothesis Iw_post : forall p pl r, keeps Iw (bk_do R (post_to_remote_inbox p pl r)).
Hypothesis Iw_fresh : keeps Iw (bk_random_object_id R).

Lemma outbox_set_id_world uri obj_id :
  keeps (pairR anything Iw) (@outbox_set_id St uri obj_id).
Proof.
  intros [a w]. split; [exact Logic.I|].
  destruct (outbox_set_id_run uri obj_id a w) as [_ E].
  unfold world_after in E. cbn [snd]. rewrite E. apply Iw_refl.
Qed.

Lemma set_data_field_world_any k v :
  keeps (pairR anything Iw) (@set_data_field St k v).
Proof. intros [a w]. split; simpl; auto. exact Logic.I. Qed.

Lemma post_to_outbox_world : keeps (pairR anything Iw) (post_to_outbox R).
Proof.
  assert (forall i, keeps (pairR anything Iw) (outbox_publish R i)).
  { intros i. apply outbox_publish_frames; auto with frames. }
  pose proof outbox_set_id_world.
  unfold post_to_outbox.
  apply keeps_bind; [eauto with frames| |intros _].
  { apply keeps_liftW; auto with frames. apply readonly_keeps; auto with frames. }
  apply keeps_bind; [eauto with frames| |intros i].
  { apply keeps_liftW; auto with frames. }
  apply keeps_bind; [eauto with frames| |intros u].
  { apply keeps_liftW; auto with frames. apply readonly_keeps; auto with frames. }
  apply keeps_bind; [eauto with frames|auto|intros _]. auto.
Qed.

Variable Ia : activity -> activity -> Prop.
Hypothesis Ia_refl : forall a, Ia a a.
Hypothesis Ia_trans : forall a b c, Ia a b -> Ia b c -> Ia a c.
Hypothesis Ia_cache : forall o a, Ia a (set_cache o a).
Hypothesis Ia_object :
  forall v a, Ia a (set_data (Dict.set "object" v (_data a)) a).

Let I : activity * world St -> activity * world St -> Prop := pairR Ia Iw.

Lemma build_accept_frames : keeps I (build_accept R).
Proof.
  assert (keeps I (get_object R (parse R))) by (apply get_object_frames; auto).
  unfold build_accept, I in *. keeps_auto.
  apply readonly_keeps; auto with frames.
Qed.

Lemma _process_from_inbox_frames p : keeps I (_process_from_inbox R p).
Proof.
  assert (keeps I (get_object R (parse R))) by (apply get_object_frames; auto).
  assert (keeps I (get_object_raw R (parse R)))
    by (apply get_object_raw_frames; auto).
  assert (forall m, m <> inbox_new -> keeps I (bk_call R m p))
    by (intros; apply bk_call_frames; auto).
  assert (forall m, m <> inbox_new -> keeps I (bk_call_guarded R m p))
    by (intros; apply bk_call_guarded_frames; auto).
  pose proof build_accept_frames. pose proof post_to_outbox_world.
  unfold _process_from_inbox, I in *. keeps_auto.
  all: try solve [apply readonly_keeps; auto with frames].
  - apply keeps_call_on. auto.
  - apply keeps_on_object; auto.
    apply _undo_inbox_frames; auto with frames.
Qed.

Lemma inbox_pre_hook_frames p :
  keeps I (try_except (_pre_process_from_inbox R p) is_NotImplementedError (ret tt)).
Proof.
  apply keeps_try_except; [unfold I; eauto with frames| |unfold I; keeps_auto].
  apply _pre_process_from_inbox_frames; auto.
Qed.

Lemma inbox_post_hook_frames p :
  keeps I (try_except (_process_from_inbox R p) is_NotImplementedError (ret tt)).
Proof.
  apply keeps_try_except; [unfold I; eauto with frames| |unfold I; keeps_auto].
  apply _process_from_inbox_frames.
Qed.

End InboxFrames.

(** ** Resolving the actor *)

Lemma same_identity_refl a : same_identity a a.
Proof. repeat split. Qed.

Lemma same_identity_trans a b c :
  same_identity a b -> same_identity b c -> same_identity a c.
Proof.
  intros (C1 & D1 & I1) (C2 & D2 & I2). repeat split; try congruence.
  intros k Hk. rewrite (D2 k Hk). auto.
Qed.

Lemma same_identity_cache o a : same_identity a (set_cache o a).
Proof. destruct a. repeat split. Qed.

Lemma same_identity_object v a :
  same_identity a (set_data (Dict.set "object" v (_data a)) a).
Proof.
  destruct a as [c d o x i]. repeat split. simpl. intros k Hk.
  apply get_set_other. congruence.
Qed.

Lemma same_identity_dget a a' k :
  same_identity a a' -> k <> "object" -> dget k (_data a') = dget k (_data a).
Proof. intros (_ & Hd & _) Hk. unfold dget. now rewrite (Hd k Hk). Qed.

Lemma same_identity_attr_id a a' : same_identity a a' -> attr_id a' = attr_id a.
Proof.
  intros Hs. pose proof (@same_identity_dget a a' "id" Hs) as Hd.
  destruct Hs as (_ & _ & Hi). unfold attr_id, getattr_data.
  rewrite Hi, Hd; [reflexivity | discriminate].
Qed.

#[export] Hint Resolve same_identity_refl same_identity_trans same_identity_cache
  same_identity_object : frames.

Section ActorResolution.

Context {St : Type} (R : Runtime St) (b : Backend St).
Hypothesis Hb : BACKEND R = Some b.

Lemma init_actor_PERSON d k : init_actor R PERSON d k = ret (d, k).
Proof. reflexivity. Qed.

Lemma init_object_PERSON d k : init_object PERSON d k = Ok (d, k).
Proof. reflexivity. Qed.

Lemma pure_ret A (a : A) : is_pure (@ret (world St) A a).
Proof. eexists; intros; reflexivity. Qed.

Lemma pure_raise A e : is_pure (@raise (world St) A e).
Proof. eexists; intros; reflexivity. Qed.

Lemma pure_lift_result A (r : result A) : is_pure (@lift_result (world St) A r).
Proof. eexists; intros; reflexivity. Qed.

Lemma pure_bind A B (m : ST (world St) A) (k : A -> ST (world St) B) :
  is_pure m -> (forall a, is_pure (k a)) -> is_pure (bind m k).
Proof.
  intros (r & Hr) Hk. destruct r as [a|e].
  - destruct (Hk a) as (r' & Hr'). exists r'. intros s.
    unfold bind. now rewrite Hr, Hr'.
  - exists (Raise e). intros s. unfold bind. now rewrite Hr.
Qed.

Lemma new_Person_pure raw : is_pure (new_Person R raw).
Proof.
  unfold new_Person.
  destruct raw as [| | | |l|d]; try apply pure_raise.
  unfold __init__.
  apply pure_bind.
  { destruct (truthy (dget "type" d)); [|apply pure_ret].
    destruct (negb (py_eq (dget "type" d) (JStr (value PERSON))));
      [apply pure_raise|apply pure_ret]. }
  intros kw.
  destruct (Dict.get "id" kw).
  all: apply pure_bind; [rewrite init_actor_PERSON; apply pure_ret|intros dk].
  all: apply pure_bind; [apply pure_lift_result|intros [d2 k2]].
  all: apply pure_bind; [apply pure_lift_result|intros c].
  all: eexists; intros; reflexivity.
Qed.

Lemma get_actor_run a (w : world St) :
  get_actor R a w =
  match actor_ref R a with
  | Raise e => (Raise e, w)
  | Ok i =>
      match fetch_iri b (store w) i with
      | Raise e => (Raise e, w)
      | Ok raw => new_Person R raw w
      end
  end.
Proof.
  unfold get_actor, actor_ref, bind, guard, bk_fetch_iri, backend, lift_result, rbind.
  rewrite Hb. cbn [ret].
  destruct (negb (truthy (dget "actor" (_data a))) && ACTOR_REQUIRED (ACTIVITY_TYPE a)).
  - destruct (ActivityType_eqb (ACTIVITY_TYPE a) NOTE); [|reflexivity].
    cbn [ret is_str is_dict orb].
    destruct (_actor_id _); [|reflexivity].
    destruct (fetch_iri b (store w) a0); reflexivity.
  - cbn [ret].
    destruct (is_str (dget "actor" (_data a)) || is_dict (dget "actor" (_data a)));
      [|reflexivity].
    cbn [ret].
    destruct (_actor_id _); [|reflexivity].
    destruct (fetch_iri b (store w) a0); reflexivity.
Qed.

Lemma actor_ref_ext a a' : same_identity a a' -> actor_ref R a' = actor_ref R a.
Proof.
  intros Hs. unfold actor_ref.
  rewrite (@same_identity_dget a a' "actor" Hs), (@same_identity_dget a a' "attributedTo" Hs)
    by discriminate.
  destruct Hs as (Hc & _). now rewrite Hc.
Qed.

(** [get_actor] depends on the class and [_data] of the activity and on how
    the backend resolves identifiers. *)
Lemma get_actor_ext a a' (w w' : world St) :
  same_identity a a' ->
  (forall x, fetch_iri b (store w') x = fetch_iri b (store w) x) ->
  fst (get_actor R a' w') = fst (get_actor R a w).
Proof.
  intros Hs Hf. rewrite !get_actor_run, (actor_ref_ext Hs).
  destruct (actor_ref R a) as [i|e]; [|reflexivity].
  rewrite Hf. destruct (fetch_iri b (store w) i) as [raw|e]; [|reflexivity].
  destruct (new_Person_pure raw) as (r & Hr). now rewrite !Hr.
Qed.

Lemma get_actor_Ok_ext a a' (w w' : world St) actor :
  same_identity a a' ->
  (forall x, fetch_iri b (store w') x = fetch_iri b (store w) x) ->
  get_actor R a w = (Ok actor, w) ->
  get_actor R a' w' = (Ok actor, w').
Proof.
  intros Hs Hf Ha.
  pose proof (@get_actor_ext a a' w w' Hs Hf) as E. rewrite Ha in E. simpl in E.
  pose proof (readonly_run w' (get_actor_readonly R a')) as E'.
  destruct (get_actor R a' w') as [r w1]. simpl in *. congruence.
Qed.

End ActorResolution.

(** ** Blocked senders and duplicates *)

Lemma stored_app t l : stored (t ++ l) = stored t + stored l.
Proof. unfold stored. now rewrite filter_app, length_app. Qed.

Lemma stored_none l :
  forallb (fun c => negb (is_inbox_new c)) l = true -> stored l = 0.
Proof.
  unfold stored. induction l as [|c l IH]; simpl; auto.
  destruct (is_inbox_new c); simpl; [discriminate|auto].
Qed.

Section InboxIdempotence.

Context {St : Type} (R : Runtime St) (b : Backend St).
Hypothesis Hb : BACKEND R = Some b.

Lemma inbox_settled_refl p i (w : world St) : inbox_settled b p i w w.
Proof.
  repeat split; auto. exists []. now rewrite app_nil_r.
Qed.

Lemma inbox_settled_trans p i (w1 w2 w3 : world St) :
  inbox_settled b p i w1 w2 -> inbox_settled b p i w2 w3 ->
  inbox_settled b p i w1 w3.
Proof.
  intros (F1 & G1 & l1 & E1 & N1) (F2 & G2 & l2 & E2 & N2).
  repeat split.
  - intros x. now rewrite F2, F1.
  - auto.
  - exists (l1 ++ l2). rewrite E2, E1, app_assoc, forallb_app, N1, N2. auto.
Qed.

Lemma inbox_settled_stored p i (w w' : world St) :
  inbox_settled b p i w w' -> stored (trace w') = stored (trace w).
Proof.
  intros (_ & _ & l & E & N). rewrite E, stored_app, (stored_none _ N). lia.
Qed.

Hypothesis laws : remembers_inbox b.

Lemma inbox_settled_call p i m q a :
  m <> inbox_new -> keeps (inbox_settled b p i) (bk_do R (Call m q a)).
Proof.
  intros N w. rewrite (bk_do_run R Hb). cbn [snd]. unfold after_call.
  repeat split; cbn [store trace].
  - intros x. apply (fetch_after_call laws).
  - apply (found_stays_found laws).
  - exists [Call m q a]. split; auto. simpl. destruct m; try reflexivity.
    contradiction.
Qed.

Lemma inbox_settled_post p i q pl r :
  keeps (inbox_settled b p i) (bk_do R (post_to_remote_inbox q pl r)).
Proof.
  intros w. rewrite (bk_do_run R Hb). cbn [snd]. unfold after_call.
  repeat split; cbn [store trace].
  - intros x. apply (fetch_after_call laws).
  - apply (found_stays_found laws).
  - exists [post_to_remote_inbox q pl r]. split; auto.
Qed.

Lemma inbox_settled_fresh p i :
  keeps (inbox_settled b p i) (bk_random_object_id R).
Proof.
  intros w. unfold bk_random_object_id, backend. rewrite Hb.
  pose proof (fetch_after_fresh_id laws (store w)) as F.
  pose proof (found_after_fresh_id laws (store w) p i) as G.
  destruct (random_object_id b (store w)) as [j st1]. cbn [snd store trace] in *.
  repeat split; auto. exists []. now rewrite app_nil_r.
Qed.

End InboxIdempotence.

(** C1.  When the backend reports the sender as blocked by the recipient, or
    reports an activity with the same identifier in the recipient's inbox,
    [process_from_inbox] returns without raising and leaves the activity and
    the world, trace of backend calls included, as they were: nothing is
    stored and no hook has run.  With a backend that finds what was stored,
    one call stores the activity at most once, and once it is stored a
    second call on the same activity is such a silent return, so the two
    calls store exactly one entry. *)
Theorem process_from_inbox_drops {St} (R : Runtime St) b p a w actor :
  BACKEND R = Some b ->
  get_actor R a w = (Ok actor, w) ->
  (outbox_is_blocked b (store w) p (attr_id actor) = true
   \/ inbox_get_by_iri b (store w) p (attr_id a) = true ->
   process_from_inbox R p (a, w) = (Ok tt, (a, w)))
  /\ (remembers_inbox b ->
      forall r a1 w1,
        process_from_inbox R p (a, w) = (r, (a1, w1)) ->
        stored (trace w1) <= S (stored (trace w))
        /\ (stored (trace w1) = S (stored (trace w)) ->
            process_from_inbox R p (a1, w1) = (Ok tt, (a1, w1))
            /\ stored (trace (world_after (process_from_inbox R p (a1, w1))))
               = S (stored (trace w)))).
Proof.
  intros Hb Ha. split.
  - intros H. rewrite (process_from_inbox_checks R Hb p a Ha).
    destruct (outbox_is_blocked b (store w) p (attr_id actor)); [reflexivity|].
    destruct H as [H|H]; [discriminate|]. now rewrite H.
  - intros laws r a1 w1 H.
    rewrite (process_from_inbox_checks R Hb p a Ha) in H.
    destruct (outbox_is_blocked b (store w) p (attr_id actor)) eqn:Hbl.
    { inversion H; subst. split; [lia|intros; lia]. }
    destruct (inbox_get_by_iri b (store w) p (attr_id a)) eqn:Hd.
    { inversion H; subst. split; [lia|intros; lia]. }
    unfold bind at 1 in H.
    pose proof (@inbox_pre_hook_frames _ R (inbox_settled b p (attr_id a))
                  (inbox_settled_refl b p (attr_id a))
                  (@inbox_settled_trans _ b p (attr_id a))
                  same_identity same_identity_refl same_identity_trans
                  same_identity_cache same_identity_object p (a, w)) as [S1 Q1].
    destruct (try_except (_pre_process_from_inbox R p) is_NotImplementedError
                         (ret tt) (a, w)) as [[[]|e] [a2 w2]]; cbn [fst snd] in *.
    2: { inversion H; subst. rewrite (inbox_settled_stored Q1).
         split; [lia|intros; lia]. }
    unfold bind at 1 in H. rewrite (bk_call_run R Hb) in H.
    pose proof (@inbox_post_hook_frames _ R (inbox_settled b p (attr_id a2))
                  (inbox_settled_refl b p (attr_id a2))
                  (@inbox_settled_trans _ b p (attr_id a2))
                  (fun m q x N => inbox_settled_call R Hb laws p (attr_id a2) q x N)
                  (inbox_settled_post R Hb laws p (attr_id a2))
                  (inbox_settled_fresh R Hb laws p (attr_id a2))
                  same_identity same_identity_refl same_identity_trans
                  same_identity_cache same_identity_object p
                  (a2, after_call b (Call inbox_new p a2) w2)) as [S2 Q2].
    rewrite H in S2, Q2. cbn [fst snd] in S2, Q2.
    assert (Est : stored (trace w1) = S (stored (trace w))).
    { rewrite (inbox_settled_stored Q2). unfold after_call. cbn [trace].
      rewrite stored_app, (inbox_settled_stored Q1).
      change (stored [Call inbox_new p a2]) with 1. lia. }
    split; [lia|]. intros _.
    assert (Hs : same_identity a a1) by eauto using same_identity_trans.
    assert (Hf : forall x, fetch_iri b (store w1) x = fetch_iri b (store w) x).
    { intros x. destruct Q1 as (F1 & _). destruct Q2 as (F2 & _).
      rewrite F2. unfold after_call. cbn [store].
      rewrite (fetch_after_call laws). apply F1. }
    assert (Ha1 : get_actor R a1 w1 = (Ok actor, w1))
      by (eapply get_actor_Ok_ext; eauto).
    assert (Hfound : inbox_get_by_iri b (store w1) p (attr_id a1) = true).
    { rewrite (same_identity_attr_id S2).
      destruct Q2 as (_ & G2 & _). apply G2.
      unfold after_call. cbn [store]. apply (stored_is_found laws). }
    assert (E2 : process_from_inbox R p (a1, w1) = (Ok tt, (a1, w1))).
    { rewrite (process_from_inbox_checks R Hb p a1 Ha1), Hfound.
      destruct (outbox_is_blocked b (store w1) p (attr_id actor)); reflexivity. }
    split; [exact E2|]. rewrite E2. exact Est.
Qed.

(** The in-memory backend finds what was stored. *)
Lemma same_json_refl : forall a, Mem.same_json a a = true.
Proof.
  fix IH 1. intros a. destruct a as [|x|z|s|l|d]; simpl.
  - reflexivity.
  - apply Bool.eqb_reflx.
  - apply Z.eqb_refl.
  - apply String.eqb_refl.
  - induction l as [|x l IHl]; [reflexivity|]. now rewrite IH, IHl.
  - induction d as [|[k x] d IHd]; [reflexivity|].
    now rewrite String.eqb_refl, IH, IHd.
Qed.

Lemma in_box_app owner iri box1 box2 :
  Mem.in_box owner iri (box1 ++ box2)
  = Mem.in_box owner iri box1 || Mem.in_box owner iri box2.
Proof. unfold Mem.in_box. apply existsb_app. Qed.

Lemma mem_remembers_inbox : remembers_inbox Mem.backend.
Proof.
  split; simpl.
  - intros st p a. rewrite in_box_app. simpl.
    rewrite !same_json_refl. simpl. apply Bool.orb_true_r.
  - intros c st p i H. destruct c as [m q x|q pl r]; [destruct m|]; simpl; auto.
    rewrite in_box_app, H. reflexivity.
  - intros st p i H. exact H.
  - intros c st x. destruct c as [m q y|q pl r]; [destruct m|]; reflexivity.
  - intros st x. reflexivity.
Qed.

Lemma process_from_inbox_drops_witness :
  process_from_inbox RT (person_of alice) (bob_follows_alice, w_blocked)
  = (Ok tt, (bob_follows_alice, w_blocked))
  /\ process_from_inbox RT (person_of alice) (snd follow_received)
     = (Ok tt, snd follow_received)
  /\ stored (trace (world_after
                      (process_from_inbox RT (person_of alice) (snd follow_received))))
     = 1.
Proof.
  split.
  - exact (proj1 (@process_from_inbox_drops _ RT Mem.backend (person_of alice)
                    bob_follows_alice w_blocked (person_of bob) eq_refl eq_refl)
                 (or_introl eq_refl)).
  - exact (proj2 (proj2 (@process_from_inbox_drops _ RT Mem.backend
                           (person_of alice) bob_follows_alice w0 (person_of bob)
                           eq_refl eq_refl)
                        mem_remembers_inbox (fst follow_received)
                        (self_after follow_received) (world_after follow_received)
                        eq_refl)
                 eq_refl).
Defined.

(** ** Ownership of the object of an [Undo] *)

(** C4, as amended.  For an inbound [Undo] whose sender is not blocked and
    that is not yet in the inbox, whose object resolves to an activity with an
    actor other than the actor of the [Undo]: [process_from_inbox] raises the
    [BadActivityError] of the ownership check, and the world is as it was, so
    nothing was stored in the inbox and no undo was dispatched. *)
Theorem undo_of_another_actor_is_refused {St} (R : Runtime St) b p a w
        actor obj a1 oactor :
  BACKEND R = Some b ->
  ACTIVITY_TYPE a = UNDO ->
  get_actor R a w = (Ok actor, w) ->
  outbox_is_blocked b (store w) p (attr_id actor) = false ->
  inbox_get_by_iri b (store w) p (attr_id a) = false ->
  get_object_raw R (parse R) (a, w) = (Ok (inl obj), (a1, w)) ->
  get_actor R obj w = (Ok oactor, w) ->
  py_eq (attr_id actor) (attr_id oactor) = false ->
  process_from_inbox R p (a, w)
  = (Raise (BadActivityError CannotUpdate), (a1, w)).
Proof.
  intros Hb Hc Ha Hbl Hd Ho Hoa Hne.
  rewrite (process_from_inbox_checks R Hb p a Ha), Hbl, Hd.
  assert (Hs : same_identity a a1).
  { pose proof (@get_object_raw_keeps _ R same_identity same_identity_refl
                  same_identity_trans same_identity_cache same_identity_object (parse R)
                  (parse_readonly R) (a, w)) as [K _].
    now rewrite Ho in K. }
  assert (Ha1 : get_actor R a1 w = (Ok actor, w))
    by (eapply get_actor_Ok_ext; eauto).
  assert (E : try_except (_pre_process_from_inbox R p) is_NotImplementedError
                         (ret tt) (a, w)
              = (Raise (BadActivityError CannotUpdate), (a1, w))).
  { unfold try_except, _pre_process_from_inbox.
    unfold bind at 1. unfold self at 1. cbn [fst snd]. rewrite Hc.
    unfold bind at 1. rewrite Ho.
    unfold bind at 1. unfold self at 1. cbn [fst snd].
    unfold bind at 1. unfold liftW at 1. cbn [fst snd]. rewrite Ha1.
    unfold check_same_actor, bind, liftW. cbn [fst snd]. rewrite Hoa, Hne.
    reflexivity. }
  unfold bind at 1. now rewrite E.
Qed.

Lemma undo_of_another_actor_is_refused_witness :
  process_from_inbox RT (person_of alice) (carol_undoes_bobs_follow, w0)
  = (Raise (BadActivityError CannotUpdate), (self_after undo_object_resolved, w0)).
Proof.
  exact (@undo_of_another_actor_is_refused _ RT Mem.backend (person_of alice)
           carol_undoes_bobs_follow w0 (person_of carol)
           (match fst undo_object_resolved with
            | Ok (inl o) => o
            | _ => default_activity
            end)
           (self_after undo_object_resolved) (person_of bob)
           eq_refl eq_refl eq_refl eq_refl eq_refl eq_refl eq_refl eq_refl).
Defined.

(** The same [Undo], sent by carol for a follow request of bob, when alice
    has blocked carol: the object's actor differs from the actor of the
    [Undo], and the call returns without any error. *)
Lemma undo_from_blocked_actor_is_dropped :
  exists obj a1,
    get_object_raw RT (parse RT) (carol_undoes_bobs_follow, w_carol_blocked)
    = (Ok (inl obj), (a1, w_carol_blocked))
    /\ ACTIVITY_TYPE carol_undoes_bobs_follow = UNDO
    /\ get_actor RT carol_undoes_bobs_follow w_carol_blocked
       = (Ok (person_of carol), w_carol_blocked)
    /\ get_actor RT obj w_carol_blocked = (Ok (person_of bob), w_carol_blocked)
    /\ py_eq (attr_id (person_of carol)) (attr_id (person_of bob)) = false
    /\ process_from_inbox RT (person_of alice)
                          (carol_undoes_bobs_follow, w_carol_blocked)
       = (Ok tt, (carol_undoes_bobs_follow, w_carol_blocked)).
Proof.
  eexists. eexists. split; [vm_compute; reflexivity|].
  repeat split; vm_compute; reflexivity.
Qed.

(** ** Posting an activity whose class has no outbox hooks of its own *)

Lemma grows_by_refl {St} ok (w : world St) : grows_by ok w w.
Proof. exists []. now rewrite app_nil_r. Qed.

Lemma grows_by_trans {St} ok (w1 w2 w3 : world St) :
  grows_by ok w1 w2 -> grows_by ok w2 w3 -> grows_by ok w1 w3.
Proof.
  intros (l1 & E1 & F1) (l2 & E2 & F2). exists (l1 ++ l2).
  rewrite E2, E1, app_assoc, forallb_app, F1, F2. auto.
Qed.

Lemma same_class_refl a : same_class a a.
Proof. reflexivity. Qed.

Lemma same_class_trans a b c : same_class a b -> same_class b c -> same_class a c.
Proof. unfold same_class. congruence. Qed.

Lemma same_class_cache o a : same_class a (set_cache o a).
Proof. destruct a. reflexivity. Qed.

Lemma same_class_object v a :
  same_class a (set_data (Dict.set "object" v (_data a)) a).
Proof. destruct a. reflexivity. Qed.

Ltac frame_side :=
  try first
    [ exact same_class_refl | exact same_class_trans | exact same_class_cache
    | exact same_class_object | exact anything_object
    | exact (@anything_refl _) | exact (@anything_trans _)
    | exact (@grows_by_refl _ _) | exact (@grows_by_trans _ _)
    | exact (@eq_refl _) | exact (@eq_trans _) ].

Section PostingAFollow.

Context {St : Type} (R : Runtime St) (b : Backend St).
Hypothesis Hb : BACKEND R = Some b.

Let quiet : world St -> world St -> Prop :=
  grows_by (fun c => negb (is_new_following c)).

Lemma quiet_post p pl r : keeps quiet (bk_do R (post_to_remote_inbox p pl r)).
Proof.
  intros w. rewrite (bk_do_run R Hb). exists [post_to_remote_inbox p pl r]. auto.
Qed.

Lemma quiet_fresh : keeps quiet (bk_random_object_id R).
Proof.
  intros w. unfold bk_random_object_id, backend. rewrite Hb.
  destruct (random_object_id b (store w)). exists []. simpl. now rewrite app_nil_r.
Qed.

Lemma outbox_set_id_Follow uri obj_id f (w : world St) :
  ACTIVITY_TYPE f = FOLLOW ->
  outbox_set_id uri obj_id (f, w)
  = (Ok tt, (set_data (Dict.set "id" (JStr uri) (_data f)) f, w)).
Proof.
  intros Hc. unfold outbox_set_id, bind, set_data_field, modify_self, try_except,
    _outbox_set_id, self. cbn [fst snd].
  destruct f as [c d o x i]. cbn in Hc. subst c. reflexivity.
Qed.

Lemma outbox_publish_Follow obj_id f (w : world St) r f' w' :
  ACTIVITY_TYPE f = FOLLOW ->
  outbox_publish R obj_id (f, w) = (r, (f', w')) ->
  quiet w w'.
Proof.
  intros Hc H. unfold outbox_publish in H.
  unfold bind at 1 in H.
  assert (E1 : try_except (_pre_post_to_outbox R) is_NotImplementedError (ret tt)
                          (f, w) = (Ok tt, (f, w))).
  { unfold try_except, _pre_post_to_outbox, bind, self. cbn [fst snd].
    now rewrite Hc. }
  rewrite E1 in H. unfold bind at 1 in H. unfold self at 1 in H. cbn [fst snd] in H.
  unfold bind at 1 in H. unfold liftW at 1 in H. cbn [fst snd] in H.
  pose proof (readonly_run w (get_actor_readonly R f)) as Ea.
  destruct (get_actor R f w) as [[p|e] wa]; cbn [snd] in Ea; subst wa.
  2: { inversion H; subst. apply grows_by_refl. }
  unfold bind at 1 in H. rewrite (bk_call_run R Hb) in H.
  set (w1 := after_call b (Call outbox_new p f) w) in *.
  assert (Q1 : quiet w w1).
  { exists [Call outbox_new p f]. auto. }
  unfold bind at 1 in H.
  assert (K2 : keeps (pairR same_class quiet) (recipients R)).
  { apply recipients_frames; frame_side. }
  destruct (K2 (f, w1)) as [C2 Q2].
  destruct (recipients R (f, w1)) as [[recps|e] [f2 w2]]; cbn [fst snd] in C2, Q2.
  2: { inversion H; subst. eapply grows_by_trans; eauto. }
  unfold bind at 1 in H.
  assert (K3 : keeps (pairR same_class (@eq (world St))) (@cleaned_dict St)).
  { apply cleaned_dict_frames; frame_side. }
  destruct (K3 (f2, w2)) as [C3 Q3].
  destruct (cleaned_dict (f2, w2)) as [[act|e] [f3 w3]]; cbn [fst snd] in C3, Q3;
    subst w3.
  2: { inversion H; subst. eapply grows_by_trans; eauto. }
  assert (Hc3 : ACTIVITY_TYPE f3 = FOLLOW).
  { unfold same_class in *. congruence. }
  unfold bind at 1 in H.
  assert (E4 : exists r4,
             try_except
               (s <- self ;; a <- liftW (get_actor R s) ;;
                _post_to_outbox R a obj_id act recps)%st
               is_NotImplementedError (ret tt) (f3, w2) = (r4, (f3, w2))).
  { unfold try_except, bind, self, liftW. cbn [fst snd].
    pose proof (readonly_run w2 (get_actor_readonly R f3)) as Ea3.
    destruct (get_actor R f3 w2) as [[p3|e] wa]; cbn [snd] in Ea3; subst wa.
    - unfold _post_to_outbox, bind, self. cbn [fst snd]. rewrite Hc3.
      eexists. reflexivity.
    - destruct (is_NotImplementedError e); eexists; reflexivity. }
  destruct E4 as (r4 & E4). rewrite E4 in H.
  assert (Q5 : forall payload s, quiet (snd s) (snd (snd (deliver R payload recps s)))).
  { intros payload s.
    assert (K5 : keeps (pairR anything quiet) (deliver R payload recps)).
    { apply deliver_frames; frame_side. apply quiet_post. }
    apply (K5 s). }
  destruct r4 as [[]|e].
  - specialize (Q5 (json_dumps R (JDict act)) (f3, w2)).
    cbn [snd] in Q5. rewrite H in Q5. cbn [snd] in Q5.
    eapply grows_by_trans; [exact Q1|]. eapply grows_by_trans; eauto.
  - inversion H; subst. eapply grows_by_trans; eauto.
Qed.

Lemma post_to_outbox_Follow f (w : world St) r f' w' :
  ACTIVITY_TYPE f = FOLLOW ->
  post_to_outbox R (f, w) = (r, (f', w')) ->
  quiet w w'.
Proof.
  intros Hc H. unfold post_to_outbox in H.
  unfold bind at 1 in H. unfold liftW at 1 in H. cbn [fst snd] in H.
  rewrite (guard_run R Hb) in H.
  unfold bind at 1 in H. unfold liftW at 1 in H. cbn [fst snd] in H.
  pose proof (quiet_fresh w) as Q1.
  destruct (bk_random_object_id R w) as [[i|e] w1]; cbn [snd] in Q1.
  2: { inversion H; subst. exact Q1. }
  unfold bind at 1 in H. unfold liftW at 1 in H. cbn [fst snd] in H.
  pose proof (readonly_run w1 (bk_activity_url_readonly R i)) as E2.
  destruct (bk_activity_url R i w1) as [[u|e] w2]; cbn [snd] in E2; subst w2.
  2: { inversion H; subst. exact Q1. }
  unfold bind at 1 in H. rewrite (@outbox_set_id_Follow u i f w1 Hc) in H.
  eapply grows_by_trans; [exact Q1|].
  eapply outbox_publish_Follow; [|exact H].
  destruct f. exact Hc.
Qed.

End PostingAFollow.

(** ** Follow and Accept *)

(** What a successful [parse_activity] leaves of an inline payload. *)
Lemma in_place_other d p k :
  k <> "@context" -> k <> "object" ->
  Dict.get k (object_in_place (context_in_place d) p) = Dict.get k d.
Proof.
  intros N1 N2.
  assert (E : Dict.get k (context_in_place d) = Dict.get k d).
  { unfold context_in_place. destruct (Dict.get "@context" d) as [[| | | | l|]|]; auto.
    destruct (normalize_context d); auto. apply get_set_other. congruence. }
  unfold object_in_place.
  destruct (Dict.get "object" (context_in_place d)); auto.
  destruct (Dict.get "object" (_data p)); auto.
  rewrite get_set_other; auto.
Qed.

(** When [get_object] resolves the object, it caches it; an inline object is
    parsed and left as the constructor call left it. *)
Lemma resolve_object_Ok {St} (R : Runtime St) parse a (w : world St) r a' w' :
  resolve_object R parse (a, w) = (Ok r, (a', w')) ->
  exists p a1,
    r = inl p /\ a' = set_cache (Some p) a1
    /\ forall d, Dict.get "object" (_data a) = Some (JDict d) ->
         parse (JDict d) w = (Ok p, w')
         /\ a1 = set_data (Dict.set "object"
                             (JDict (object_in_place (context_in_place d) p))
                             (_data a)) a.
Proof.
  intros H. unfold resolve_object in H.
  apply bind_Ok in H. destruct H as (s & st & Es & H).
  apply self_Ok in Es. destruct Es as [-> ->]. cbn [fst] in H.
  apply bind_Ok in H. destruct H as (o & st & Eo & H).
  apply lift_result_Ok in Eo. destruct Eo as [Eo ->].
  apply bind_Ok in H. destruct H as (p & [a3 w3] & Ep & H).
  apply bind_Ok in H. destruct H as ([] & [a4 w4] & Em & H).
  apply ret_Ok in H. destruct H as [-> E]. inversion E; subst a4 w4. clear E.
  unfold modify_self in Em. cbn [fst snd] in Em. inversion Em; subst a' w'. clear Em.
  exists p, a3. split; [reflexivity|]. split; [reflexivity|].
  intros d Hd. unfold py_getitem in Eo. rewrite Hd in Eo. inversion Eo; subst o.
  cbn [is_dict] in Ep. unfold parse_inline in Ep.
  apply bind_Ok in Ep. destruct Ep as (r0 & [a5 w5] & E1 & Ep).
  apply liftW_Ok in E1. destruct E1 as [-> E1].
  unfold attempt in E1. destruct (parse (JDict d) w) as [r1 w1] eqn:Epar.
  inversion E1; subst r0 w5. clear E1.
  apply bind_Ok in Ep. destruct Ep as (o' & [a6 w6] & E2 & Ep).
  apply liftW_Ok in E2. destruct E2 as [-> E2].
  apply bind_Ok in Ep. destruct Ep as ([] & [a7 w7] & E3 & Ep).
  apply lift_result_Ok in Ep. destruct Ep as [-> E4]. inversion E4; subst a7 w7.
  cbn [left_in_place] in E2. apply ret_Ok in E2. destruct E2 as [-> ->].
  unfold set_data_field, modify_self in E3. cbn [fst snd] in E3.
  inversion E3; subst. split; reflexivity.
Qed.

(** An object given by reference is fetched: resolving it changes none of
    the fields. *)
Lemma resolve_object_reference {St} (R : Runtime St) parse a (w : world St) :
  (forall p, readonly (parse p)) ->
  is_dict (dget "object" (_data a)) = false ->
  _data (fst (snd (resolve_object R parse (a, w)))) = _data a.
Proof.
  intros Hp Hr. unfold resolve_object.
  unfold bind at 1. unfold self at 1. cbn [fst snd].
  unfold bind at 1. unfold lift_result at 1.
  unfold py_getitem, dget in *.
  destruct (Dict.get "object" (_data a)) as [o|]; [|reflexivity].
  rewrite Hr.
  match goal with
  | |- _data (fst (snd (?m (a, w)))) = _ =>
      assert (K : keeps (pairR same_data (@eq (world St))) m) by keeps_auto;
      destruct (K (a, w)) as [K1 _]; exact K1
  end.
Qed.

Lemma get_object_raw_reference {St} (R : Runtime St) parse a (w : world St) r a' w' :
  (forall p, readonly (parse p)) ->
  is_dict (dget "object" (_data a)) = false ->
  get_object_raw R parse (a, w) = (r, (a', w')) ->
  _data a' = _data a.
Proof.
  intros Hp Hr H. unfold get_object_raw in H.
  unfold bind at 1 in H. unfold liftW at 1 in H. cbn [fst snd] in H.
  destruct (guard R w) as [[[]|e] wg]; [|inversion H; reflexivity].
  unfold bind at 1 in H. unfold self at 1 in H. cbn [fst snd] in H.
  pose proof (@resolve_object_reference _ R parse a wg Hp Hr) as K.
  destruct (obj_slot a) as [[o|]|].
  - inversion H. reflexivity.
  - rewrite H in K. exact K.
  - cbv zeta in H. destruct (truthy _).
    + inversion H. reflexivity.
    + rewrite H in K. exact K.
Qed.

Lemma get_object_reference {St} (R : Runtime St) parse a (w : world St) r a' w' :
  (forall p, readonly (parse p)) ->
  is_dict (dget "object" (_data a)) = false ->
  get_object R parse (a, w) = (r, (a', w')) ->
  _data a' = _data a.
Proof.
  intros Hp Hr H. unfold get_object in H. unfold bind at 1 in H.
  pose proof (@get_object_raw_reference _ R parse a w) as K.
  destruct (get_object_raw R parse (a, w)) as [[[o|v]|e] [a1 w1]].
  all: specialize (K _ _ _ Hp Hr eq_refl).
  all: inversion H; subst; exact K.
Qed.

Section FollowAccept.

Context {St : Type} (R : Runtime St) (b : Backend St).
Hypothesis Hb : BACKEND R = Some b.

Lemma new_Accept_spec x d (w : world St) accept w' :
  new R ACCEPT [("actor", x); ("object", JDict d)] w = (Ok accept, w') ->
  ACTIVITY_TYPE accept = ACCEPT
  /\ (exists v, _validate_person R x w = (Ok v, w)
                /\ Dict.get "actor" (_data accept) = Some v)
  /\ Dict.get "object" (_data accept) = Some (JDict d).
Proof.
  intros H.
  assert (H' : __init__ R (fun _ => raise NotImplementedError) ACCEPT
                        [("actor", x); ("object", JDict d)] w = (Ok accept, w')).
  { unfold new in H. destruct (recursion_limit R); exact H. }
  clear H. unfold __init__ in H'.
  apply bind_Ok in H'. destruct H' as (kw & w1 & E1 & H).
  cbn in E1. apply ret_Ok in E1. destruct E1 as [-> ->].
  cbn [Dict.get String.eqb Ascii.eqb Bool.eqb] in H.
  apply bind_Ok in H. destruct H as ([d1 k1] & w2 & E2 & H).
  unfold init_actor in E2. cbn [ActivityType_eqb] in E2.
  change (negb (ActivityType_eqb ACCEPT PERSON) && ACTOR_REQUIRED ACCEPT) with true in E2.
  change (dget "actor" [("actor", x); ("object", JDict d)]) with x in E2.
  destruct (truthy x).
  2: { change (ActivityType_eqb ACCEPT NOTE) with false in E2. discriminate. }
  apply bind_Ok in E2. destruct E2 as (v & w3 & Ev & E2).
  pose proof (readonly_run w (_validate_person_readonly R x)) as Ew.
  rewrite Ev in Ew. cbn [snd] in Ew. subst w3.
  apply ret_Ok in E2. destruct E2 as [E2 ->]. inversion E2; subst d1 k1. clear E2.
  apply bind_Ok in H. destruct H as ([d2 k2] & w4 & E3 & H).
  apply lift_result_Ok in E3. destruct E3 as [E3 ->].
  cbn [fst snd] in E3.
  change (Dict.remove "actor" [("actor", x); ("object", JDict d)])
    with [("object", JDict d)] in E3.
  unfold init_object in E3.
  change (OBJECT_REQUIRED ACCEPT && Dict.mem "object" [("object", JDict d)])
    with true in E3.
  change (dget "object" [("object", JDict d)]) with (JDict d) in E3.
  change (Dict.remove "object" [("object", JDict d)]) with (@nil (string * json)) in E3.
  cbn [is_str ALLOWED_OBJECT_TYPES] in E3.
  apply rbind_Ok in E3. destruct E3 as (ht & _ & E3).
  apply rbind_Ok in E3. destruct E3 as ([|] & _ & E3); [discriminate|].
  apply rbind_Ok in E3. destruct E3 as (ty & _ & E3).
  apply rbind_Ok in E3. destruct E3 as (ot & _ & E3).
  destruct (type_in ot [FOLLOW]); [|discriminate].
  inversion E3; subst d2 k2. clear E3.
  apply bind_Ok in H. destruct H as (c & w5 & E4 & H).
  apply lift_result_Ok in E4. destruct E4 as [_ ->].
  cbn in H. inversion H; subst accept w'. clear H.
  cbn [ACTIVITY_TYPE _data].
  split; [reflexivity|]. split.
  - exists v. split; [exact Ev|]. reflexivity.
  - reflexivity.
Qed.

Lemma build_accept_Ok f (w : world St) accept f1 w1 :
  build_accept R (f, w) = (Ok accept, (f1, w1)) ->
  w1 = w /\ same_identity f f1
  /\ exists o,
       get_object R (parse R) (f, w) = (Ok o, (f1, w))
       /\ new R ACCEPT [("actor", attr_id o);
                        ("object", JDict (strip_embed (_data f1)))] w
          = (Ok accept, w).
Proof.
  intros H. unfold build_accept in H.
  apply bind_Ok in H. destruct H as (o & [f2 w2] & E1 & H).
  pose proof (@get_object_keeps _ R same_identity same_identity_refl
                same_identity_trans same_identity_cache same_identity_object
                (parse R) (parse_readonly R) (f, w)) as [K1 K2].
  rewrite E1 in K1, K2. cbn [fst snd] in K1, K2. subst w2.
  apply bind_Ok in H. destruct H as (s & st & E2 & H).
  apply self_Ok in E2. destruct E2 as [-> ->]. cbn [fst] in H.
  apply bind_Ok in H. destruct H as (d & st & E3 & H).
  apply lift_result_Ok in E3. destruct E3 as [E3 ->].
  rewrite to_dict_plain in E3. injection E3 as <-.
  apply liftW_Ok in H. destruct H as [E5 H]. subst f2.
  pose proof (readonly_run w (new_readonly R ACCEPT
                [("actor", attr_id o); ("object", JDict (strip_embed (_data f1)))]))
    as Ew.
  rewrite H in Ew. cbn [snd] in Ew. subst w1.
  split; [reflexivity|]. split; [exact K1|].
  exists o. split; [exact E1|exact H].
Qed.


End FollowAccept.


(** ** Depth of the constructors *)

(** The constructor of [Create] parses its object, which is a [Note]; no
    constructor nests deeper, so one level of [recursion_limit] is enough
    for all of them. *)
Section ConstructorDepth.

Context {St : Type} (R : Runtime St).

Lemma new_n_other n t d : t <> CREATE -> new_n R n t d = new_n R 0 t d.
Proof.
  intros N. destruct n; [reflexivity|].
  destruct t; try reflexivity. contradiction.
Qed.

Lemma parse_with_agree (new1 new2 : ActivityType -> dict -> W St activity) p e :
  (forall t d, t <> CREATE -> new1 t d = new2 t d) ->
  not_a_create p ->
  forall w, parse_activity_with new1 p e w = parse_activity_with new2 p e w.
Proof.
  intros Hn Hp w. unfold parse_activity_with, bind, lift_result.
  destruct (py_getitem p "type") as [ty|] eqn:E1; [|reflexivity].
  destruct (ActivityType_of ty) as [t|] eqn:E2; [|reflexivity].
  specialize (Hp ty t E1 E2).
  destruct e as [e|].
  - destruct (negb (ActivityType_eqb t e)); [reflexivity|]. cbn [ret].
    destruct (type_in t _ACTIVITY_CLS); [|reflexivity]. cbn [ret].
    destruct p; try reflexivity. now rewrite Hn.
  - cbn [ret]. destruct (type_in t _ACTIVITY_CLS); [|reflexivity]. cbn [ret].
    destruct p; try reflexivity. now rewrite Hn.
Qed.

Lemma type_in_note ot : type_in ot [NOTE] = true -> ot <> CREATE.
Proof. intros H E. subst. discriminate. Qed.

Lemma resolve_object_agree (parse1 parse2 : json -> W St activity) s w :
  (forall p, not_a_create p -> forall w, parse1 p w = parse2 p w) ->
  ACTIVITY_TYPE s = CREATE ->
  (forall o, Dict.get "object" (_data s) = Some o -> is_dict o = true ->
             not_a_create o) ->
  resolve_object R parse1 (s, w) = resolve_object R parse2 (s, w).
Proof.
  intros Hp Hc Ho. unfold resolve_object.
  apply bind_ext. intros s2 st Es.
  apply self_Ok in Es. destruct Es as [-> ->]. cbn [fst].
  apply bind_ext. intros o st Eo.
  apply lift_result_Ok in Eo. destruct Eo as [Eo ->].
  assert (Eg : Dict.get "object" (_data s) = Some o).
  { simpl in Eo. destruct (Dict.get "object" (_data s)); inversion Eo; auto. }
  apply bind_ext_left.
  destruct (is_dict o) eqn:Ed.
  - unfold parse_inline. apply bind_ext_left.
    unfold liftW, attempt. cbn [fst snd]. now rewrite (Hp o (Ho o Eg Ed)).
  - apply bind_ext. intros obj [s3 w3] Ef.
    apply bind_ext. intros ty st Em.
    apply lift_result_Ok in Em. destruct Em as [Em ->].
    apply bind_ext. intros ot st Et.
    apply lift_result_Ok in Et. destruct Et as [Et ->].
    rewrite Hc. cbn [ALLOWED_OBJECT_TYPES].
    destruct (type_in ot [NOTE]) eqn:Ei; [|reflexivity].
    unfold liftW. cbn [fst snd]. rewrite (Hp obj); [reflexivity|].
    intros ty' t' E1 E2. destruct obj; try discriminate.
    simpl in Em, E1. unfold dget in Em.
    destruct (Dict.get "type" d); inversion E1; subst.
    inversion Em; subst. rewrite Et in E2. inversion E2; subst.
    now apply type_in_note.
Qed.

Lemma get_object_raw_agree (parse1 parse2 : json -> W St activity) s w :
  (forall p, not_a_create p -> forall w, parse1 p w = parse2 p w) ->
  ACTIVITY_TYPE s = CREATE ->
  (forall o, Dict.get "object" (_data s) = Some o -> is_dict o = true ->
             not_a_create o) ->
  get_object_raw R parse1 (s, w) = get_object_raw R parse2 (s, w).
Proof.
  intros Hp Hc Ho. unfold get_object_raw.
  apply bind_ext. intros [] [s1 w1] Eg.
  apply liftW_Ok in Eg. destruct Eg as [-> _].
  apply bind_ext. intros s2 st Es.
  apply self_Ok in Es. destruct Es as [-> ->]. cbn [fst].
  destruct (obj_slot s) as [[o|]|]; [reflexivity| |].
  - now apply resolve_object_agree.
  - cbv zeta.
    destruct (truthy (getattr_data s "_BaseActivity__obj")); [reflexivity|].
    now apply resolve_object_agree.
Qed.

Lemma Create_init_agree (parse1 parse2 : json -> W St activity) s w :
  (forall p, not_a_create p -> forall w, parse1 p w = parse2 p w) ->
  ACTIVITY_TYPE s = CREATE ->
  (forall o, Dict.get "object" (_data s) = Some o -> is_dict o = true ->
             not_a_create o) ->
  Create_init R parse1 (s, w) = Create_init R parse2 (s, w).
Proof.
  intros Hp Hc Ho. unfold Create_init, get_object.
  apply bind_ext_left. apply bind_ext_left.
  now apply get_object_raw_agree.
Qed.

Lemma init_actor_object t d k w d' k' w' :
  init_actor R t d k w = (Ok (d', k'), w') ->
  Dict.get "object" d' = Dict.get "object" d.
Proof.
  unfold init_actor.
  destruct (negb (ActivityType_eqb t PERSON) && ACTOR_REQUIRED t).
  - destruct (truthy (dget "actor" k)).
    + intros H. apply bind_Ok in H. destruct H as (x & w1 & _ & H).
      apply ret_Ok in H. destruct H as [H _]. inversion H; subst.
      apply get_set_other. discriminate.
    + destruct (ActivityType_eqb t NOTE); [|discriminate].
      destruct (Dict.mem "attributedTo" k); [|discriminate].
      intros H. apply ret_Ok in H. destruct H as [H _]. now inversion H.
  - intros H. apply ret_Ok in H. destruct H as [H _]. now inversion H.
Qed.

Lemma init_object_Create d k d' k' :
  init_object CREATE d k = Ok (d', k') ->
  Dict.get "object" d = None ->
  forall o, Dict.get "object" d' = Some o -> is_dict o = true -> not_a_create o.
Proof.
  unfold init_object. intros H Hn o Ho Hd.
  destruct (OBJECT_REQUIRED CREATE && Dict.mem "object" k).
  2: { inversion H; subst. congruence. }
  destruct (is_str (dget "object" k)) eqn:Es.
  { inversion H; subst. rewrite get_set_same in Ho. inversion Ho; subst.
    destruct (dget "object" k); discriminate. }
  cbn [ALLOWED_OBJECT_TYPES] in H.
  apply rbind_Ok in H. destruct H as (ht & _ & H).
  apply rbind_Ok in H. destruct H as ([|] & _ & H); [discriminate|].
  apply rbind_Ok in H. destruct H as (ty & Ety & H).
  apply rbind_Ok in H. destruct H as (ot & Eot & H).
  destruct (type_in ot [NOTE]) eqn:Ei; [|discriminate].
  inversion H; subst. rewrite get_set_same in Ho. inversion Ho; subst.
  intros ty' t' E1 E2. rewrite Ety in E1. inversion E1; subst.
  rewrite Eot in E2. inversion E2; subst. now apply type_in_note.
Qed.

Lemma new_Create_agree (parse1 parse2 : json -> W St activity) kwargs w :
  (forall p, not_a_create p -> forall w, parse1 p w = parse2 p w) ->
  __init__ R (_init R parse1 CREATE) CREATE kwargs w
  = __init__ R (_init R parse2 CREATE) CREATE kwargs w.
Proof.
  intros Hp. unfold __init__.
  apply bind_ext. intros kw1 w1 _.
  set (dk0 := match Dict.get "id" kw1 with
              | Some i => (Dict.set "id" i [("type", JStr (value CREATE))],
                           Dict.remove "id" kw1)
              | None => ([("type", JStr (value CREATE))], kw1)
              end).
  assert (E0 : Dict.get "object" (fst dk0) = None).
  { unfold dk0. destruct (Dict.get "id" kw1); reflexivity. }
  destruct dk0 as [d0 k0]. cbn [fst] in E0.
  apply bind_ext. intros [d1 k1] w2 E1.
  apply init_actor_object in E1. rewrite E0 in E1.
  apply bind_ext. intros [d2 k2] w3 E2.
  apply lift_result_Ok in E2. destruct E2 as [E2 ->]. cbn [fst snd] in E2.
  pose proof (init_object_Create _ _ E2 E1) as Hshape.
  apply bind_ext. intros c w4 Ec.
  apply lift_result_Ok in Ec. destruct Ec as [_ ->].
  cbn [_init]. unfold try_except.
  rewrite (@Create_init_agree parse1 parse2 _ _ Hp); [reflexivity|reflexivity|].
  cbn [_data]. intros o Ho. rewrite get_set_other in Ho by discriminate.
  now apply Hshape.
Qed.

(** Every constructor gives with any limit of at least one what it gives
    with the limit one. *)
Lemma new_n_enough n t kwargs w :
  new_n R (S n) t kwargs w = new_n R 1 t kwargs w.
Proof.
  destruct (ActivityType_eqb t CREATE) eqn:E.
  - apply ActivityType_eqb_eq in E. subst t. simpl.
    apply new_Create_agree. intros p Hp w'.
    apply parse_with_agree; auto.
    intros t d N. now rewrite (new_n_other n d N).
  - apply ActivityType_eqb_neq in E.
    now rewrite (new_n_other (S n) kwargs E), (new_n_other 1 kwargs E).
Qed.

End ConstructorDepth.

(** * Further properties of the module *)

(** ** Builders of a note that cannot succeed *)

Lemma new_LIKE_without_actor {St} (R : Runtime St) v (w : world St) :
  new R LIKE [("object", v)] w = (Raise (BadActivityError MissingActor), w).
Proof.
  unfold new. rewrite new_n_other by discriminate. reflexivity.
Qed.

(** [Note.build_like] passes no actor to [Like], whose constructor requires
    one: the call raises the [BadActivityError] for a missing actor, whatever
    the note and whether or not a backend is installed, and on a class other
    than [Note] the method does not exist.  Nothing is changed. *)
Theorem build_like_always_raises {St} (R : Runtime St) s (w : world St) :
  build_like R (s, w)
  = (Raise (if ActivityType_eqb (ACTIVITY_TYPE s) NOTE
            then BadActivityError MissingActor else TypeError), (s, w)).
Proof.
  unfold build_like, bind, self, liftW. cbn [fst snd].
  destruct s as [c d o x i]. cbn [ACTIVITY_TYPE].
  destruct c; try reflexivity.
  now rewrite new_LIKE_without_actor.
Qed.

(** [Note.build_announce] calls [self.follower_collection_id], which no class
    defines: once the actor of the note is resolved the call raises
    [TypeError], and when the actor cannot be resolved the error of that
    resolution is raised.  No [Announce] is ever returned, and nothing is
    changed. *)
Theorem build_announce_always_raises {St} (R : Runtime St) s (w : world St) :
  exists e,
    build_announce R (s, w) = (Raise e, (s, w))
    /\ (forall a, get_actor R s w = (Ok a, w) -> e = TypeError)
    /\ (forall e', fst (get_actor R s w) = Raise e' ->
                   ACTIVITY_TYPE s = NOTE -> e = e').
Proof.
  pose proof (readonly_run w (get_actor_readonly R s)) as Ew.
  destruct (ActivityType_eqb (ACTIVITY_TYPE s) NOTE) eqn:En.
  - apply ActivityType_eqb_eq in En.
    assert (E : build_announce R (s, w)
                = (match fst (get_actor R s w) with
                   | Ok _ => Raise TypeError
                   | Raise e => Raise e
                   end, (s, w))).
    { unfold build_announce, bind, self, liftW, lift_result, py_call.
      cbn [fst snd]. rewrite En.
      match goal with
      | |- context [let '(_, _) := ?g in _] =>
          change (get_actor R s w) with g in *; destruct g as [[a|e0] w1]
      end; cbn [fst snd] in *; now subst w1. }
    rewrite E. destruct (get_actor R s w) as [[a|e0] w1]; cbn [fst snd] in *.
    + exists TypeError. split; [reflexivity|]. split; [reflexivity|].
      intros e' H; discriminate.
    + exists e0. split; [reflexivity|]. split; [intros a H; discriminate|].
      intros e' H _. congruence.
  - apply ActivityType_eqb_neq in En.
    exists TypeError. split.
    + unfold build_announce, bind, self. cbn [fst snd].
      destruct (ACTIVITY_TYPE s); try reflexivity. congruence.
    + split; [reflexivity|]. intros e' _ Hn. congruence.
Qed.

(** ** Tombstones *)

Lemma getattr_data_cases a name :
  getattr_data a name = JNone
  \/ (truthy (getattr_data a name) = true
      /\ Dict.get name (_data a) = Some (getattr_data a name)).
Proof.
  unfold getattr_data, dget.
  destruct (Dict.get name (_data a)) as [v|]; [|now left].
  destruct (truthy v) eqn:E; [right|now left]. now rewrite E.
Qed.

(** [Note.get_tombstone] needs no backend and never raises.  The tombstone
    has the identifier of the note, stored even when the note has none; it
    has the [published] of the note when that is set, and the time of
    deletion both as [deleted] and as [updated], unless that is [None]; its
    context is the default one. *)
Theorem get_tombstone_spec {St} (R : Runtime St) s deleted (w : world St) :
  ACTIVITY_TYPE s = NOTE ->
  exists t,
    get_tombstone R deleted (s, w) = (Ok t, (s, w))
    /\ ACTIVITY_TYPE t = TOMBSTONE
    /\ Dict.get "type" (_data t) = Some (JStr "Tombstone")
    /\ Dict.get "id" (_data t) = Some (attr_id s)
    /\ Dict.get "published" (_data t) = unless_None (getattr_data s "published")
    /\ Dict.get "deleted" (_data t) = unless_None deleted
    /\ Dict.get "updated" (_data t) = unless_None deleted
    /\ Dict.get "@context" (_data t) = Some default_context.
Proof.
  intros Hc. unfold get_tombstone, bind, self, liftW. cbn [fst snd]. rewrite Hc.
  unfold new. rewrite new_n_other by discriminate.
  generalize (attr_id s) as i. intros i.
  generalize (getattr_data s "published") as p. intros p.
  destruct p, deleted; eexists; (split; [reflexivity|]); repeat split.
Qed.

Lemma get_tombstone_spec_witness :
  exists t,
    get_tombstone RT (JStr "2018-06-02T08:00:00Z") (sample_note, w0)
    = (Ok t, (sample_note, w0))
    /\ ACTIVITY_TYPE t = TOMBSTONE
    /\ Dict.get "type" (_data t) = Some (JStr "Tombstone")
    /\ Dict.get "id" (_data t) = Some (attr_id sample_note)
    /\ Dict.get "published" (_data t)
       = unless_None (getattr_data sample_note "published")
    /\ Dict.get "deleted" (_data t) = unless_None (JStr "2018-06-02T08:00:00Z")
    /\ Dict.get "updated" (_data t) = unless_None (JStr "2018-06-02T08:00:00Z")
    /\ Dict.get "@context" (_data t) = Some default_context.
Proof.
  exact (@get_tombstone_spec _ RT sample_note (JStr "2018-06-02T08:00:00Z") w0
           eq_refl).
Defined.

(** ** Constructors of the classes without an [_init] callback *)

Lemma new_plain {St} (R : Runtime St) t kwargs :
  t <> IMAGE -> t <> NOTE -> t <> CREATE ->
  new R t kwargs = __init__ R (fun _ => raise NotImplementedError) t kwargs.
Proof.
  intros Hi Hn Hc. unfold new. rewrite new_n_other by exact Hc.
  destruct t; try reflexivity; congruence.
Qed.

(** A constructor call with an actor and an inline object as its only
    arguments, in either order, for a class that requires both and has no
    [_init]. *)
Lemma new_actor_object_gen {St} (R : Runtime St) t kw x d (w : world St) :
  kw = [("actor", x); ("object", JDict d)]
  \/ kw = [("object", JDict d); ("actor", x)] ->
  t <> IMAGE -> t <> NOTE -> t <> CREATE -> t <> PERSON ->
  ACTOR_REQUIRED t = true -> OBJECT_REQUIRED t = true ->
  new R t kw w
  = (if truthy x then
       match fst (_validate_person R x w) with
       | Raise e => Raise e
       | Ok v =>
           match init_object t [("type", JStr (value t)); ("actor", v)]
                             [("object", JDict d)] with
           | Raise e => Raise e
           | Ok dk =>
               Ok (mkActivity t (Dict.set "@context" default_context (fst dk))
                              None CtxDict None)
           end
       end
     else Raise (BadActivityError MissingActor), w).
Proof.
  intros Hkw Hi Hn Hc Hp Ha Ho. rewrite new_plain by assumption.
  assert (K1 : dget "type" kw = JNone) by (destruct Hkw; subst; reflexivity).
  assert (K2 : Dict.get "id" kw = None) by (destruct Hkw; subst; reflexivity).
  assert (K3 : dget "actor" kw = x) by (destruct Hkw; subst; reflexivity).
  assert (K4 : Dict.remove "actor" kw = [("object", JDict d)])
    by (destruct Hkw; subst; reflexivity).
  clear Hkw. unfold __init__.
  unfold bind at 1. rewrite K1. cbn [truthy ret]. rewrite K2.
  unfold bind at 1. unfold init_actor.
  apply ActivityType_eqb_neq in Hp. rewrite Hp, Ha. cbn [negb andb].
  rewrite K3, K4.
  destruct (truthy x).
  2: { apply ActivityType_eqb_neq in Hn. now rewrite Hn. }
  unfold bind at 1.
  pose proof (readonly_run w (_validate_person_readonly R x)) as Ew.
  destruct (_validate_person R x w) as [[v|e] w1]; cbn [fst snd] in *; subst w1;
    [|reflexivity].
  cbn [ret]. unfold bind at 1. unfold lift_result at 1. cbn [fst snd].
  change (Dict.set "actor" v [("type", JStr (value t))])
    with [("type", JStr (value t)); ("actor", v)].
  destruct (init_object t [("type", JStr (value t)); ("actor", v)]
                        [("object", JDict d)]) as [[d2 k2]|e] eqn:Eo; [|reflexivity].
  assert (Ek : k2 = []).
  { unfold init_object in Eo. rewrite Ho in Eo.
    change (Dict.mem "object" [("object", JDict d)]) with true in Eo.
    change (dget "object" [("object", JDict d)]) with (JDict d) in Eo.
    change (Dict.remove "object" [("object", JDict d)]) with (@nil (string * json)) in Eo.
    cbn [andb is_str] in Eo.
    destruct (ALLOWED_OBJECT_TYPES t); [discriminate|].
    apply rbind_Ok in Eo. destruct Eo as (ht & _ & Eo).
    apply rbind_Ok in Eo. destruct Eo as ([|] & _ & Eo); [discriminate|].
    apply rbind_Ok in Eo. destruct Eo as (ty & _ & Eo).
    apply rbind_Ok in Eo. destruct Eo as (ot & _ & Eo).
    destruct (type_in ot _); [|discriminate]. now inversion Eo. }
  subst k2. reflexivity.
Qed.

Lemma new_actor_object {St} (R : Runtime St) t x d (w : world St) :
  t <> IMAGE -> t <> NOTE -> t <> CREATE -> t <> PERSON ->
  ACTOR_REQUIRED t = true -> OBJECT_REQUIRED t = true ->
  new R t [("actor", x); ("object", JDict d)] w
  = (if truthy x then
       match fst (_validate_person R x w) with
       | Raise e => Raise e
       | Ok v =>
           match init_object t [("type", JStr (value t)); ("actor", v)]
                             [("object", JDict d)] with
           | Raise e => Raise e
           | Ok dk =>
               Ok (mkActivity t (Dict.set "@context" default_context (fst dk))
                              None CtxDict None)
           end
       end
     else Raise (BadActivityError MissingActor), w).
Proof. intros. apply new_actor_object_gen; auto. Qed.

(** What the [object] step accepts of an inline object. *)
Lemma init_object_inline t data d dk :
  OBJECT_REQUIRED t = true ->
  init_object t data [("object", JDict d)] = Ok dk ->
  dk = (Dict.set "object" (JDict d) data, [])
  /\ (exists ot, Dict.get "type" d = Some (JStr (value ot))
                 /\ type_in ot (ALLOWED_OBJECT_TYPES t) = true)
  /\ (t <> CREATE -> Dict.mem "id" d = true).
Proof.
  intros Ho Eo. unfold init_object in Eo. rewrite Ho in Eo.
  change (Dict.mem "object" [("object", JDict d)]) with true in Eo.
  change (dget "object" [("object", JDict d)]) with (JDict d) in Eo.
  change (Dict.remove "object" [("object", JDict d)]) with (@nil (string * json)) in Eo.
  cbn [andb is_str] in Eo.
  destruct (ALLOWED_OBJECT_TYPES t) as [|t0 ts]; [discriminate|].
  cbn [py_contains rbind] in Eo.
  destruct (Dict.mem "type" d) eqn:Mt; cbn [negb] in Eo; [|discriminate].
  assert (Mi : t <> CREATE -> Dict.mem "id" d = true).
  { intros N. apply ActivityType_eqb_neq in N. rewrite N in Eo. cbn [negb rbind] in Eo.
    destruct (Dict.mem "id" d); [reflexivity|discriminate]. }
  assert (Eo' : (ty <~ py_getitem (JDict d) "type" ;;
                 ot <~ ActivityType_of ty ;;
                 if type_in ot (t0 :: ts)
                 then Ok (Dict.set "object" (JDict d) data, @nil (string * json))
                 else Raise (UnexpectedActivityTypeError UnexpectedObjectType))%st
                = Ok dk).
  { destruct (negb (ActivityType_eqb t CREATE)); cbn [rbind] in Eo.
    - destruct (Dict.mem "id" d); cbn [negb] in Eo; [exact Eo|discriminate].
    - exact Eo. }
  clear Eo. apply rbind_Ok in Eo'. destruct Eo' as (ty & Ety & Eo).
  apply rbind_Ok in Eo. destruct Eo as (ot & Eot & Eo).
  destruct (type_in ot (t0 :: ts)) eqn:Et; [|discriminate].
  inversion Eo; subst dk. split; [reflexivity|]. split; [|exact Mi].
  exists ot. split; [|exact Et].
  apply ActivityType_of_value in Eot. subst ty.
  cbn [py_getitem] in Ety. destruct (Dict.get "type" d); inversion Ety. reflexivity.
Qed.

(** ** Deleting a note *)

(** [Note.build_delete], once the actor of the note is resolved: the
    [Delete] has as actor what [_validate_person] gives for the identifier of
    that actor and as object a tombstone that consists of the type and the
    identifier of the note.  It fails only where the actor has no identifier
    or is not validated; nothing is changed. *)
Theorem build_delete_spec {St} (R : Runtime St) s a (w : world St) :
  ACTIVITY_TYPE s = NOTE ->
  get_actor R s w = (Ok a, w) ->
  build_delete R (s, w)
  = (if truthy (attr_id a) then
       match fst (_validate_person R (attr_id a) w) with
       | Raise e => Raise e
       | Ok v =>
           Ok (mkActivity DELETE
                 [("type", JStr "Delete"); ("actor", v);
                  ("object", JDict [("type", JStr "Tombstone"); ("id", attr_id s)]);
                  ("@context", default_context)]
                 None CtxDict None)
       end
     else Raise (BadActivityError MissingActor), (s, w)).
Proof.
  intros Hc Ha. unfold build_delete.
  unfold bind at 1. unfold self at 1. cbn [fst snd]. rewrite Hc.
  unfold bind at 1. unfold liftW at 1. cbn [fst snd]. rewrite Ha.
  unfold bind at 1. unfold liftW at 1. cbn [fst snd].
  unfold new at 1. rewrite new_n_other by discriminate.
  change (new_n R 0 TOMBSTONE [("id", attr_id s)] w)
    with (Ok (mkActivity TOMBSTONE
                [("type", JStr "Tombstone"); ("id", attr_id s);
                 ("@context", default_context)] None CtxDict None), w).
  cbn iota beta.
  unfold bind at 1. unfold lift_result at 1.
  change (to_dict _ true false)
    with (@Ok dict [("type", JStr "Tombstone"); ("id", attr_id s)]).
  cbn iota beta. unfold liftW. cbn [fst snd].
  rewrite new_actor_object by (reflexivity || discriminate).
  destruct (truthy (attr_id a)); [|reflexivity].
  destruct (fst (_validate_person R (attr_id a) w)); reflexivity.
Qed.

Lemma build_delete_spec_witness :
  build_delete RT (sample_note, w0)
  = (Ok (mkActivity DELETE
           [("type", JStr "Delete"); ("actor", JStr alice);
            ("object", JDict [("type", JStr "Tombstone");
                              ("id", attr_id sample_note)]);
            ("@context", default_context)]
           None CtxDict None), (sample_note, w0)).
Proof.
  exact (@build_delete_spec _ RT sample_note (person_of alice) w0 eq_refl eq_refl).
Defined.

(** ** Undoing an activity *)

Lemma to_dict_embed_get a only d k :
  k <> "@context" -> k <> "signature" -> k <> "object" ->
  to_dict a true only = Ok d ->
  Dict.get k d = Dict.get k (_data a).
Proof.
  intros N1 N2 N3. unfold to_dict. fold (strip_embed (_data a)).
  assert (E : Dict.get k (strip_embed (_data a)) = Dict.get k (_data a)).
  { rewrite strip_embed_get.
    destruct (String.eqb_spec k "@context"); [contradiction|].
    destruct (String.eqb_spec k "signature"); [contradiction|]. reflexivity. }
  destruct (truthy _ && only && is_dict _).
  - destruct (py_getitem _ "id") as [v|[]]; try discriminate.
    intros H. inversion H. now rewrite get_set_other.
  - intros H. inversion H. subst. exact E.
Qed.

(** [build_undo] of a [Follow], a [Like] or an [Announce].  When it returns,
    the [Undo] has as actor what [_validate_person] gives for the identifier
    of the actor of the activity, and as object the activity as
    [to_dict(embed=True)] gives it, for a [Like] with the liked object
    reduced to its identifier.  The activity has an [id] entry: one that has
    none yet is refused by the constructor of [Undo].  Nothing is changed,
    and no other class has the method. *)
Theorem build_undo_spec {St} (R : Runtime St) s (w : world St) u s' w' :
  build_undo R (s, w) = (Ok u, (s', w')) ->
  s' = s /\ w' = w
  /\ type_in (ACTIVITY_TYPE s) [FOLLOW; LIKE; ANNOUNCE] = true
  /\ Dict.mem "id" (_data s) = true
  /\ exists d a v,
       to_dict s true (ActivityType_eqb (ACTIVITY_TYPE s) LIKE) = Ok d
       /\ get_actor R s w = (Ok a, w)
       /\ _validate_person R (attr_id a) w = (Ok v, w)
       /\ u = mkActivity UNDO
                [("type", JStr "Undo"); ("actor", v); ("object", JDict d);
                 ("@context", default_context)]
                None CtxDict None.
Proof.
  intros H.
  assert (G : type_in (ACTIVITY_TYPE s) [FOLLOW; LIKE; ANNOUNCE] = true
              /\ exists d a,
                   to_dict s true (ActivityType_eqb (ACTIVITY_TYPE s) LIKE) = Ok d
                   /\ get_actor R s w = (Ok a, w)
                   /\ (exists kw,
                          (kw = [("actor", attr_id a); ("object", JDict d)]
                           \/ kw = [("object", JDict d); ("actor", attr_id a)])
                          /\ new R UNDO kw w = (Ok u, w'))
                   /\ s' = s).
  { unfold build_undo in H.
    apply bind_Ok in H. destruct H as (s0 & st & E0 & H).
    apply self_Ok in E0. destruct E0 as [-> ->]. cbn [fst] in H.
    pose proof (readonly_run w (get_actor_readonly R s)) as Ew.
    destruct (ACTIVITY_TYPE s) eqn:Ec; try discriminate;
      (split; [reflexivity|]).
    - (* Announce *)
      apply bind_Ok in H. destruct H as (a & [s1 w1] & E2 & H).
      apply liftW_Ok in E2. destruct E2 as [-> E2].
      rewrite E2 in Ew. cbn [snd] in Ew. subst w1.
      apply bind_Ok in H. destruct H as (d & st & E1 & H).
      apply lift_result_Ok in E1. destruct E1 as [E1 ->].
      apply liftW_Ok in H. destruct H as [-> H].
      exists d, a. repeat split; eauto.
    - (* Like *)
      apply bind_Ok in H. destruct H as (d & st & E1 & H).
      apply lift_result_Ok in E1. destruct E1 as [E1 ->].
      apply bind_Ok in H. destruct H as (a & [s1 w1] & E2 & H).
      apply liftW_Ok in E2. destruct E2 as [-> E2].
      rewrite E2 in Ew. cbn [snd] in Ew. subst w1.
      apply liftW_Ok in H. destruct H as [-> H].
      exists d, a. repeat split; eauto.
    - (* Follow *)
      apply bind_Ok in H. destruct H as (d & st & E1 & H).
      apply lift_result_Ok in E1. destruct E1 as [E1 ->].
      apply bind_Ok in H. destruct H as (a & [s1 w1] & E2 & H).
      apply liftW_Ok in E2. destruct E2 as [-> E2].
      rewrite E2 in Ew. cbn [snd] in Ew. subst w1.
      apply liftW_Ok in H. destruct H as [-> H].
      exists d, a. repeat split; eauto. }
  destruct G as (Ht & d & a & Ed & Ea & (kw & Hkw & Hn) & ->).
  rewrite (@new_actor_object_gen _ R UNDO kw (attr_id a) d w Hkw) in Hn
    by (reflexivity || discriminate).
  destruct (truthy (attr_id a)); [|discriminate].
  pose proof (readonly_run w (_validate_person_readonly R (attr_id a))) as Ew.
  destruct (_validate_person R (attr_id a) w) as [[v|e] w1] eqn:Ev;
    cbn [fst snd] in *; [|discriminate]. subst w1.
  destruct (init_object UNDO _ _) as [dk|e] eqn:Eo; [|discriminate].
  apply init_object_inline in Eo; [|reflexivity].
  destruct Eo as (-> & _ & Hid).
  inversion Hn; subst u w'. clear Hn.
  specialize (Hid ltac:(discriminate)).
  split; [reflexivity|]. split; [reflexivity|]. split; [exact Ht|]. split.
  - unfold Dict.mem in *.
    rewrite <- (@to_dict_embed_get s _ d "id") by (discriminate || exact Ed).
    exact Hid.
  - exists d, a, v. repeat split; auto.
Qed.

Lemma build_undo_spec_witness :
  fst (build_undo RT (bob_follows_alice, w0))
  = Ok (mkActivity UNDO
          [("type", JStr "Undo"); ("actor", JStr bob);
           ("object", JDict (strip_embed (_data bob_follows_alice)));
           ("@context", default_context)]
          None CtxDict None)
  /\ Dict.mem "id" (_data bob_follows_alice) = true.
Proof.
  destruct (@build_undo_spec _ RT bob_follows_alice w0
              (mkActivity UNDO
                 [("type", JStr "Undo"); ("actor", JStr bob);
                  ("object", JDict (strip_embed (_data bob_follows_alice)));
                  ("@context", default_context)]
                 None CtxDict None)
              bob_follows_alice w0 eq_refl) as (_ & _ & _ & Hid & _).
  split; [reflexivity|exact Hid].
Defined.

(** ** What the constructors store *)

Lemma get_notin k d : ~ In k (Dict.keys d) -> Dict.get k d = None.
Proof.
  induction d as [|[k' v'] r IH]; simpl; auto.
  intros N. destruct (String.eqb_spec k k'); [subst; tauto|].
  apply IH. tauto.
Qed.

Lemma keys_filter_In (f : string * json -> bool) k d :
  In k (Dict.keys (filter f d)) -> In k (Dict.keys d).
Proof.
  unfold Dict.keys. rewrite !in_map_iff. intros (x & E & H).
  apply filter_In in H. exists x. tauto.
Qed.

Lemma NoDup_keys_filter (f : string * json -> bool) d :
  NoDup (Dict.keys d) -> NoDup (Dict.keys (filter f d)).
Proof.
  induction d as [|[k v] r IH]; simpl; auto.
  intros H. inversion H; subst.
  destruct (f (k, v)); simpl; auto.
  constructor; auto. intros Hin. apply keys_filter_In in Hin. contradiction.
Qed.

Lemma NoDup_keys_remove k d : NoDup (Dict.keys d) -> NoDup (Dict.keys (Dict.remove k d)).
Proof. apply NoDup_keys_filter. Qed.

Lemma get_filter_nodup (f : string * json -> bool) k d :
  NoDup (Dict.keys d) ->
  Dict.get k (filter f d)
  = match Dict.get k d with
    | Some v => if f (k, v) then Some v else None
    | None => None
    end.
Proof.
  induction d as [|[k' v'] r IH]; simpl; auto.
  intros H. inversion H; subst.
  destruct (String.eqb_spec k k') as [->|N].
  - destruct (f (k', v')); simpl.
    + now rewrite String.eqb_refl.
    + apply get_filter_none, get_notin. assumption.
  - destruct (f (k', v')); simpl; auto.
    destruct (String.eqb_spec k k'); [contradiction|auto].
Qed.

Lemma get_update_nodup k d e :
  NoDup (Dict.keys e) ->
  Dict.get k (Dict.update d e)
  = match Dict.get k e with
    | Some v => Some v
    | None => Dict.get k d
    end.
Proof.
  unfold Dict.update. revert d.
  induction e as [|[k' v'] r IH]; simpl; intros d H; auto.
  inversion H; subst. rewrite IH by assumption.
  destruct (String.eqb_spec k k') as [->|N].
  - rewrite (get_notin _ _ H2). apply get_set_same.
  - destruct (Dict.get k r); auto. now apply get_set_other.
Qed.

(** The fields a constructor stores of the keyword arguments left after its
    own steps. *)
Lemma get_update_valid k d e :
  NoDup (Dict.keys e) ->
  Dict.get k (Dict.update d
                (filter (fun kv => match snd kv with JNone => false | _ => true end) e))
  = match stored_kwarg k e with
    | Some v => Some v
    | None => Dict.get k d
    end.
Proof.
  intros H. rewrite get_update_nodup by now apply NoDup_keys_filter.
  rewrite get_filter_nodup by assumption. unfold stored_kwarg.
  destruct (Dict.get k e) as [[]|]; reflexivity.
Qed.

Section ConstructorFields.

Context {St : Type} (R : Runtime St).

Lemma init_actor_step t d k (w : world St) d' k' w' :
  init_actor R t d k w = (Ok (d', k'), w') ->
  (d' = d /\ k' = k)
  \/ (exists v, d' = Dict.set "actor" v d /\ k' = Dict.remove "actor" k).
Proof.
  unfold init_actor.
  destruct (negb (ActivityType_eqb t PERSON) && ACTOR_REQUIRED t).
  - destruct (truthy (dget "actor" k)).
    + intros H. apply bind_Ok in H. destruct H as (x & w1 & _ & H).
      apply ret_Ok in H. destruct H as [H _]. inversion H; subst. eauto.
    + destruct (ActivityType_eqb t NOTE); [|discriminate].
      destruct (Dict.mem "attributedTo" k); [|discriminate].
      intros H. apply ret_Ok in H. destruct H as [H _]. inversion H. auto.
  - intros H. apply ret_Ok in H. destruct H as [H _]. inversion H. auto.
Qed.

Lemma init_object_step t d k d' k' :
  init_object t d k = Ok (d', k') ->
  (d' = d /\ k' = k)
  \/ (d' = Dict.set "object" (dget "object" k) d /\ k' = Dict.remove "object" k).
Proof.
  unfold init_object.
  destruct (OBJECT_REQUIRED t && Dict.mem "object" k);
    [|intros H; inversion H; auto].
  destruct (is_str (dget "object" k)).
  { intros H. inversion H. auto. }
  destruct (ALLOWED_OBJECT_TYPES t) as [|t0 ts]; [discriminate|].
  intros H.
  apply rbind_Ok in H. destruct H as (ht & _ & H).
  apply rbind_Ok in H. destruct H as ([|] & _ & H); [discriminate|].
  apply rbind_Ok in H. destruct H as (ty & _ & H).
  apply rbind_Ok in H. destruct H as (ot & _ & H).
  destruct (type_in ot (t0 :: ts)); [|discriminate].
  inversion H. auto.
Qed.

(** The steps of a constructor call that returns, for a callback that
    names no allowed keys. *)
Lemma __init___inv hook t kwargs (w : world St) a w' :
  (forall kw s r s', hook kw s = (Ok r, s') -> r = None) ->
  __init__ R hook t kwargs w = (Ok a, w') ->
  exists kw1 d0 k0 d1 k1 d2 k2 c s1 w1,
    (kw1 = kwargs \/ kw1 = Dict.remove "type" kwargs)
    /\ (Dict.get "type" kw1 = None \/ truthy (dget "type" kwargs) = false)
    /\ ((d0 = [("type", JStr (value t))] /\ k0 = kw1 /\ Dict.get "id" kw1 = None)
        \/ (exists i, Dict.get "id" kw1 = Some i
                      /\ d0 = [("type", JStr (value t)); ("id", i)]
                      /\ k0 = Dict.remove "id" kw1))
    /\ init_actor R t d0 k0 w = (Ok (d1, k1), w1)
    /\ init_object t d1 k1 = Ok (d2, k2)
    /\ normalize_context k2 = Ok c
    /\ fst (try_except (hook (Dict.remove "@context" k2)) is_NotImplementedError
                       (ret None)
                       (mkActivity t (Dict.set "@context" (JList c) d2)
                                   None CtxDict None, w1))
       = Ok None
    /\ snd (try_except (hook (Dict.remove "@context" k2)) is_NotImplementedError
                       (ret None)
                       (mkActivity t (Dict.set "@context" (JList c) d2)
                                   None CtxDict None, w1))
       = (s1, w')
    /\ a = set_data
             (Dict.update (_data s1)
                (filter (fun kv => match snd kv with JNone => false | _ => true end)
                        (Dict.remove "@context" k2))) s1.
Proof.
  intros Hnone H. unfold __init__ in H.
  apply bind_Ok in H. destruct H as (kw1 & w0 & H1 & H).
  assert (E1 : (kw1 = kwargs \/ kw1 = Dict.remove "type" kwargs)
               /\ (Dict.get "type" kw1 = None \/ truthy (dget "type" kwargs) = false)
               /\ w0 = w).
  { destruct (truthy (dget "type" kwargs)).
    - destruct (negb (py_eq (dget "type" kwargs) (JStr (value t))));
        [discriminate|].
      apply ret_Ok in H1. destruct H1 as [-> ->].
      split; [now right|]. split; [left; apply get_remove_same|reflexivity].
    - apply ret_Ok in H1. destruct H1 as [-> ->]. auto. }
  clear H1. destruct E1 as (E1 & E1' & ->).
  set (dk0 := match Dict.get "id" kw1 with
              | Some i => (Dict.set "id" i [("type", JStr (value t))],
                           Dict.remove "id" kw1)
              | None => ([("type", JStr (value t))], kw1)
              end) in H.
  assert (E2 : (fst dk0 = [("type", JStr (value t))] /\ snd dk0 = kw1
                /\ Dict.get "id" kw1 = None)
               \/ (exists i, Dict.get "id" kw1 = Some i
                             /\ fst dk0 = [("type", JStr (value t)); ("id", i)]
                             /\ snd dk0 = Dict.remove "id" kw1)).
  { unfold dk0. destruct (Dict.get "id" kw1) as [i|]; [right|left; auto].
    exists i. auto. }
  destruct dk0 as [d0 k0]. cbn [fst snd] in E2.
  apply bind_Ok in H. destruct H as ([d1 k1] & w1 & H2 & H).
  apply bind_Ok in H. destruct H as ([d2 k2] & w2 & H3 & H).
  apply lift_result_Ok in H3. destruct H3 as [H3 ->]. cbn [fst snd] in H3.
  apply bind_Ok in H. destruct H as (c & w3 & H4 & H).
  apply lift_result_Ok in H4. destruct H4 as [H4 ->].
  destruct (try_except (hook (Dict.remove "@context" k2)) is_NotImplementedError
                       (ret None)
                       (mkActivity t (Dict.set "@context" (JList c) d2)
                                   None CtxDict None, w1))
    as [r [s1 w5]] eqn:Et.
  assert (Er : forall x, r = Ok x -> x = None).
  { intros x ->. unfold try_except in Et.
    destruct (hook _ _) as [[x'|e] s'] eqn:Eh.
    - inversion Et; subst. eapply Hnone; eauto.
    - destruct (is_NotImplementedError e); inversion Et; subst. reflexivity. }
  destruct r as [ak|e]; [|discriminate].
  rewrite (Er ak eq_refl) in *. inversion H; subst a w'. clear H.
  exists kw1, d0, k0, d1, k1, d2, k2, c, s1, w1.
  split; [exact E1|]. split; [exact E1'|]. split.
  { destruct E2 as [(A & B & C)|(i & A & B & C)]; [left|right]; eauto. }
  split; [exact H2|]. split; [exact H3|]. split; [exact H4|].
  rewrite Et. split; [reflexivity|]. split; reflexivity.
Qed.

Lemma hook_frame_refl a : hook_frame a a.
Proof. repeat split. Qed.

Lemma hook_frame_trans a b c : hook_frame a b -> hook_frame b c -> hook_frame a c.
Proof.
  intros (A1 & A2 & A3 & A4) (B1 & B2 & B3 & B4).
  repeat split; try congruence. intros key N. rewrite B4, A4; auto.
Qed.

Lemma hook_frame_cache o a : hook_frame a (set_cache o a).
Proof. destruct a. repeat split. Qed.

Lemma hook_frame_object v a :
  hook_frame a (set_data (Dict.set "object" v (_data a)) a).
Proof.
  destruct a as [c d o x i]. repeat split. intros key N. cbn.
  apply get_set_other. intros ->. apply N. simpl. tauto.
Qed.

Lemma hook_frame_data_field k v :
  In k ["published"; "url"; "sensitive"] ->
  keeps (pairR hook_frame (@eq (world St))) (set_data_field k v).
Proof.
  intros Hk [a w]. split; [|reflexivity]. destruct a as [c d o x i].
  repeat split. intros key N. cbn. apply get_set_other.
  intros ->. apply N. simpl in *. tauto.
Qed.

Lemma hook_frame_object_field k v :
  keeps (pairR hook_frame (@eq (world St))) (set_object_field k v).
Proof.
  intros [a w]. rewrite set_object_field_run.
  destruct (py_getitem (JDict (_data a)) "object") as [o|e];
    [|split; [apply hook_frame_refl|reflexivity]].
  destruct (py_setitem o k v) as [o'|e];
    (split; [|reflexivity]); [|apply hook_frame_refl].
  destruct a as [c d ob x i]. repeat split. intros key N. cbn.
  apply get_set_other. intros ->. apply N. simpl. tauto.
Qed.

Lemma _init_hook_frame parse t kwargs :
  (forall p, readonly (parse p)) ->
  keeps (pairR hook_frame (@eq (world St))) (_init R parse t kwargs).
Proof.
  intros Hp. apply _init_keeps; auto.
  - apply hook_frame_refl.
  - apply hook_frame_trans.
  - apply hook_frame_cache.
  - apply hook_frame_object.
  - apply hook_frame_data_field.
  - apply hook_frame_object_field.
Qed.

Lemma _init_returns_None parse t kwargs s r s' :
  _init R parse t kwargs s = (Ok r, s') -> r = None.
Proof.
  unfold _init. destruct t; try discriminate.
  - unfold Create_init. intros H.
    apply bind_Ok in H. destruct H as (o & s1 & _ & H).
    apply bind_Ok in H. destruct H as (u1 & s2 & _ & H).
    apply bind_Ok in H. destruct H as (u2 & s3 & _ & H).
    apply ret_Ok in H. now destruct H.
  - intros H.
    apply bind_Ok in H. destruct H as (u1 & s2 & _ & H).
    apply ret_Ok in H. now destruct H.
  - intros H.
    apply bind_Ok in H. destruct H as (u1 & s2 & _ & H).
    apply bind_Ok in H. destruct H as (u2 & s3 & _ & H).
    apply ret_Ok in H. now destruct H.
Qed.

Lemma mem_false_notin k d : Dict.mem k d = false -> ~ In k (Dict.keys d).
Proof.
  unfold Dict.mem. induction d as [|[k' v'] r IH]; simpl; auto.
  destruct (String.eqb_spec k k'); [discriminate|].
  intros H [E|Hin]; [congruence|]. now apply IH.
Qed.

Lemma unique_keys_NoDup d : unique_keys d = true -> NoDup (Dict.keys d).
Proof.
  induction d as [|[k v] r IH]; simpl; [constructor|].
  intros H. apply andb_prop in H. destruct H as [H1 H2].
  constructor; auto. apply mem_false_notin.
  now destruct (Dict.mem k r).
Qed.

Ltac chase_entries :=
  repeat first
    [ rewrite get_remove_other by (assumption || discriminate)
    | rewrite get_set_other by (assumption || discriminate)
    | rewrite get_remove_same
    | rewrite get_set_same ].

Lemma __init___fields hook t kwargs (w : world St) a w' :
  (forall kw s r s', hook kw s = (Ok r, s') -> r = None) ->
  (forall kw, keeps (pairR hook_frame (@eq (world St))) (hook kw)) ->
  NoDup (Dict.keys kwargs) ->
  __init__ R hook t kwargs w = (Ok a, w') ->
  (ACTIVITY_TYPE a = t /\ ctx_of a = CtxDict /\ id_attr a = None)
  /\ w' = w
  /\ Dict.get "id" (_data a) = Dict.get "id" kwargs
  /\ (Dict.get "type" kwargs = None \/ truthy (dget "type" kwargs) = true ->
      Dict.get "type" (_data a) = Some (JStr (value t)))
  /\ forall key, ~ In key reserved_keys ->
                 Dict.get key (_data a) = stored_kwarg key kwargs.
Proof.
  intros Hnone Hk Hu H.
  destruct (@__init___inv hook t kwargs w a w' Hnone H)
    as (kw1 & d0 & k0 & d1 & k1 & d2 & k2 & c & s1 & w1
        & E1 & E1' & E2 & E3 & E4 & E5 & _ & E7 & ->).
  pose proof (readonly_run w (init_actor_readonly R t d0 k0)) as Ew.
  rewrite E3 in Ew. cbn [snd] in Ew. subst w1.
  assert (K : keeps (pairR hook_frame (@eq (world St)))
                (try_except (hook (Dict.remove "@context" k2))
                            is_NotImplementedError (ret None))).
  { apply keeps_try_except; [|apply Hk|].
    - intros x y z [A1 A2] [B1 B2]. split; [|congruence].
      eapply hook_frame_trans; eauto.
    - intros x. split; [apply hook_frame_refl|reflexivity]. }
  match type of E7 with
  | snd (try_except ?m ?sel ?h ?s) = _ => specialize (K s); rewrite E7 in K
  end.
  destruct K as [(K1 & K2 & K3 & K4) K5]. cbn [fst snd] in K1, K2, K3, K4, K5.
  subst w'.
  cbn [ACTIVITY_TYPE ctx_of id_attr _data] in K1, K2, K3, K4.
  apply init_actor_step in E3. apply init_object_step in E4.
  assert (U : NoDup (Dict.keys (Dict.remove "@context" k2))).
  { apply NoDup_keys_remove.
    destruct E4 as [[_ ->]|[_ ->]]; try apply NoDup_keys_remove.
    all: destruct E3 as [[_ ->]|(v & _ & ->)]; try apply NoDup_keys_remove.
    all: destruct E2 as [(_ & -> & _)|(i & _ & _ & ->)]; try apply NoDup_keys_remove.
    all: destruct E1 as [->| ->]; try apply NoDup_keys_remove; exact Hu. }
  split.
  { destruct s1 as [cl dd oo xx ii]. cbn in *. auto. }
  split; [reflexivity|].
  assert (G : forall key,
             Dict.get key (_data (set_data
               (Dict.update (_data s1)
                  (filter (fun kv => match snd kv with JNone => false | _ => true end)
                          (Dict.remove "@context" k2))) s1))
             = match stored_kwarg key (Dict.remove "@context" k2) with
               | Some v => Some v
               | None => Dict.get key (_data s1)
               end).
  { intros key. destruct s1 as [cl dd oo xx ii]. cbn [set_data _data].
    now apply get_update_valid. }
  split; [|split].
  - rewrite G, K4 by (simpl; intuition discriminate).
    unfold stored_kwarg.
    destruct E4 as [[-> ->]|[-> ->]]; destruct E3 as [[-> ->]|(v & -> & ->)];
      destruct E2 as [(-> & -> & Ei)|(i & Ei & -> & ->)];
      destruct E1 as [->| ->]; chase_entries;
      rewrite ?get_remove_other in Ei by discriminate;
      rewrite ?Ei; reflexivity.
  - intros Ht. rewrite G, K4 by (simpl; intuition discriminate).
    assert (Et : Dict.get "type" kw1 = None).
    { destruct E1' as [E|E]; [exact E|].
      destruct Ht as [Ht|Ht]; [|congruence].
      destruct E1 as [->| ->]; [exact Ht|apply get_remove_same]. }
    unfold stored_kwarg.
    destruct E4 as [[-> ->]|[-> ->]]; destruct E3 as [[-> ->]|(v & -> & ->)];
      destruct E2 as [(-> & -> & Ei)|(i & Ei & -> & ->)];
      chase_entries; rewrite Et; reflexivity.
  - intros key N. unfold reserved_keys in N. simpl in N.
    assert (N1 : key <> "type") by (intros ->; tauto).
    assert (N2 : key <> "id") by (intros ->; tauto).
    assert (N3 : key <> "actor") by (intros ->; tauto).
    assert (N4 : key <> "object") by (intros ->; tauto).
    assert (N5 : key <> "@context") by (intros ->; tauto).
    rewrite G, K4 by (simpl; intuition congruence).
    assert (Ek : Dict.get key (Dict.remove "@context" k2) = Dict.get key kwargs).
    { destruct E4 as [[_ ->]|[_ ->]]; destruct E3 as [[_ ->]|(v & _ & ->)];
        destruct E2 as [(_ & -> & _)|(i & _ & _ & ->)];
        destruct E1 as [->| ->]; chase_entries; reflexivity. }
    assert (Ed : Dict.get key (Dict.set "@context" (JList c) d2) = None).
    { destruct E4 as [[-> _]|[-> _]]; destruct E3 as [[-> _]|(v & -> & _)];
        destruct E2 as [(-> & _ & _)|(i & _ & -> & _)]; chase_entries;
        cbn; destruct (String.eqb_spec key "type"); try contradiction;
        try reflexivity;
        destruct (String.eqb_spec key "id"); try contradiction; reflexivity. }
    unfold stored_kwarg. rewrite Ek, Ed.
    destruct (Dict.get key kwargs) as [[]|]; reflexivity.
Qed.

End ConstructorFields.

Lemma new_n_hook_readonly {St} (R : Runtime St) n p :
  readonly (match n with
            | O => fun _ => raise RecursionError
            | S m => fun p => parse_activity_with (new_n R m) p None
            end p).
Proof.
  destruct n.
  - intros s. reflexivity.
  - apply parse_activity_with_readonly. auto with frames.
Qed.

Lemma constructor_fields_of_new {St} (R : Runtime St) t kwargs (w : world St) a w' :
  unique_keys kwargs = true ->
  new R t kwargs w = (Ok a, w') ->
  (ACTIVITY_TYPE a = t /\ ctx_of a = CtxDict /\ id_attr a = None)
  /\ w' = w
  /\ Dict.get "id" (_data a) = Dict.get "id" kwargs
  /\ (Dict.get "type" kwargs = None \/ truthy (dget "type" kwargs) = true ->
      Dict.get "type" (_data a) = Some (JStr (value t)))
  /\ forall key, ~ In key reserved_keys ->
                 Dict.get key (_data a) = stored_kwarg key kwargs.
Proof.
  intros Hu H. apply unique_keys_NoDup in Hu. unfold new in H.
  assert (H' : __init__ R (_init R (match recursion_limit R with
                                    | O => fun _ => raise RecursionError
                                    | S m => fun p => parse_activity_with (new_n R m) p None
                                    end) t) t kwargs w = (Ok a, w')).
  { destruct (recursion_limit R); exact H. }
  eapply __init___fields; [| |exact Hu|exact H'].
  - intros kw s r s'. apply _init_returns_None.
  - intros kw. apply _init_hook_frame. intros p. apply new_n_hook_readonly.
Qed.

(** A constructor that returns has built an object of its class, with no
    context reference and no [id] attribute, and has changed nothing.  The
    [id] argument is stored as it is, [None] included.  The [type] entry is
    the name of the class when the [type] argument is absent or truthy.
    Every other argument that no step of the constructor handles is stored
    under its key unless it is [None], and no such key is stored without an
    argument. *)
Theorem constructor_stores_fields {St} (R : Runtime St) n t kwargs
        (w : world St) a w' :
  unique_keys kwargs = true ->
  new_n R n t kwargs w = (Ok a, w') ->
  (ACTIVITY_TYPE a = t /\ ctx_of a = CtxDict /\ id_attr a = None)
  /\ w' = w
  /\ Dict.get "id" (_data a) = Dict.get "id" kwargs
  /\ (Dict.get "type" kwargs = None \/ truthy (dget "type" kwargs) = true ->
      Dict.get "type" (_data a) = Some (JStr (value t)))
  /\ forall key, ~ In key reserved_keys ->
                 Dict.get key (_data a) = stored_kwarg key kwargs.
Proof.
  intros Hu H. apply unique_keys_NoDup in Hu.
  assert (H' : __init__ R (_init R (match n with
                                    | O => fun _ => raise RecursionError
                                    | S m => fun p => parse_activity_with (new_n R m) p None
                                    end) t) t kwargs w = (Ok a, w')).
  { destruct n; exact H. }
  eapply __init___fields; [| |exact Hu|exact H'].
  - intros kw s r s'. apply _init_returns_None.
  - intros kw. apply _init_hook_frame. intros p. apply new_n_hook_readonly.
Qed.

Lemma constructor_stores_fields_witness :
  (ACTIVITY_TYPE sample_note = NOTE /\ ctx_of sample_note = CtxDict
   /\ id_attr sample_note = None)
  /\ w0 = w0
  /\ Dict.get "id" (_data sample_note) = Dict.get "id" note_kwargs
  /\ (Dict.get "type" note_kwargs = None \/ truthy (dget "type" note_kwargs) = true ->
      Dict.get "type" (_data sample_note) = Some (JStr (value NOTE)))
  /\ forall key, ~ In key reserved_keys ->
                 Dict.get key (_data sample_note) = stored_kwarg key note_kwargs.
Proof.
  exact (@constructor_stores_fields _ RT (recursion_limit RT) NOTE note_kwargs
           w0 sample_note w0 eq_refl eq_refl).
Defined.

(** ** Parsing and serializing back *)

Lemma parse_activity_inv {St} (R : Runtime St) p expected (w : world St) a w' :
  parse_activity R p expected w = (Ok a, w') ->
  exists d t,
    p = JDict d
    /\ Dict.get "type" d = Some (JStr (value t))
    /\ (forall e, expected = Some e -> e = t)
    /\ type_in t _ACTIVITY_CLS = true
    /\ new R t d w = (Ok a, w').
Proof.
  unfold parse_activity, parse_activity_with. intros H.
  apply bind_Ok in H. destruct H as (ty & w1 & E1 & H).
  apply lift_result_Ok in E1. destruct E1 as [E1 ->].
  apply bind_Ok in H. destruct H as (t & w1 & E2 & H).
  apply lift_result_Ok in E2. destruct E2 as [E2 ->].
  apply ActivityType_of_value in E2. subst ty.
  apply bind_Ok in H. destruct H as ([] & w1 & E3 & H).
  apply bind_Ok in H. destruct H as ([] & w2 & E4 & H).
  destruct (type_in t _ACTIVITY_CLS) eqn:Et; [|discriminate].
  apply ret_Ok in E4. destruct E4 as [_ ->].
  destruct p as [| | | | |d]; try discriminate.
  cbn [py_getitem] in E1. destruct (Dict.get "type" d) as [v|] eqn:Eg; inversion E1.
  subst v. exists d, t. split; [reflexivity|]. split; [exact Eg|].
  assert (Ew : w1 = w /\ forall e, expected = Some e -> e = t).
  { destruct expected as [e|].
    - destruct (ActivityType_eqb t e) eqn:Ee; cbn [negb] in E3; [|discriminate].
      apply ret_Ok in E3. destruct E3 as [_ ->]. split; [reflexivity|].
      intros e' He. inversion He; subst e'. symmetry.
      now apply ActivityType_eqb_eq.
    - apply ret_Ok in E3. destruct E3 as [_ ->]. split; [reflexivity|].
      intros e He. discriminate. }
  destruct Ew as [-> Hexp]. auto.
Qed.

Lemma value_truthy t : truthy (JStr (value t)) = true.
Proof. destruct t; reflexivity. Qed.

(** A payload that [parse_activity] accepts and the dictionary [to_dict]
    gives for the parsed activity agree on [type] and [id], and on every key
    that no step of the constructor handles, except that such an entry is
    dropped when it is [None].  The class of the activity is the one the
    [type] names, which is the expected one when one is given, and parsing
    changes nothing. *)
Theorem parse_then_to_dict {St} (R : Runtime St) d expected (w : world St) a w' :
  unique_keys d = true ->
  parse_activity R (JDict d) expected w = (Ok a, w') ->
  w' = w
  /\ Dict.get "type" d = Some (JStr (value (ACTIVITY_TYPE a)))
  /\ (forall e, expected = Some e -> ACTIVITY_TYPE a = e)
  /\ exists out,
       to_dict a false false = Ok out
       /\ Dict.get "type" out = Dict.get "type" d
       /\ Dict.get "id" out = Dict.get "id" d
       /\ forall key, ~ In key reserved_keys ->
                      Dict.get key out = stored_kwarg key d.
Proof.
  intros Hu H. apply parse_activity_inv in H.
  destruct H as (d' & t & E & Ety & Hexp & _ & Hn). inversion E; subst d'. clear E.
  destruct (@constructor_fields_of_new St R t d w a w' Hu Hn)
    as ((Hc & _ & _) & Hw & Hid & Hty & Hk).
  split; [exact Hw|]. rewrite Hc. split; [exact Ety|].
  split. { intros e He. symmetry. auto. }
  exists (_data a). split; [apply to_dict_plain|].
  split; [|split; [exact Hid|exact Hk]].
  rewrite Ety. apply Hty. right. unfold dget. rewrite Ety. apply value_truthy.
Qed.

Lemma parse_then_to_dict_witness :
  w0 = w0
  /\ Dict.get "type" note_payload = Some (JStr (value (ACTIVITY_TYPE parsed_note)))
  /\ (forall e, None = Some e -> ACTIVITY_TYPE parsed_note = e)
  /\ exists out,
       to_dict parsed_note false false = Ok out
       /\ Dict.get "type" out = Dict.get "type" note_payload
       /\ Dict.get "id" out = Dict.get "id" note_payload
       /\ forall key, ~ In key reserved_keys ->
                      Dict.get key out = stored_kwarg key note_payload.
Proof.
  exact (@parse_then_to_dict _ RT note_payload None w0 parsed_note w0
           eq_refl eq_refl).
Defined.

(** ** The object cache *)

Lemma guard_Ok {St} (R : Runtime St) (w w1 : world St) :
  guard R w = (Ok tt, w1) -> forall w2, guard R w2 = (Ok tt, w2).
Proof. unfold guard. destruct (BACKEND R); [reflexivity|discriminate]. Qed.

(** [get_object] resolves the object once.  When it returns, the activity
    holds the object in its cache, the world is unchanged, and the activity
    has its class, its identifier and its fields other than [object] as
    before.  An object given by reference leaves all fields as they were;
    an inline object that had to be parsed is left as the constructor call
    left it, with a [@context] list normalized where it is, and no other
    key than [@context] and [object] touched.  Every later call returns
    the same object from the cache and changes nothing, in whatever state
    the backend is by then. *)
Theorem get_object_is_cached {St} (R : Runtime St) a (w : world St) o a' w' :
  get_object R (parse R) (a, w) = (Ok o, (a', w')) ->
  w' = w
  /\ same_identity a a'
  /\ (is_dict (dget "object" (_data a)) = false -> _data a' = _data a)
  /\ (forall d,
        obj_cache a = None ->
        Dict.get "object" (_data a) = Some (JDict d) ->
        parse R (JDict d) w = (Ok o, w)
        /\ _data a'
           = Dict.set "object" (JDict (object_in_place (context_in_place d) o))
                      (_data a)
        /\ forall k, k <> "@context" -> k <> "object" ->
                     Dict.get k (object_in_place (context_in_place d) o)
                     = Dict.get k d)
  /\ obj_cache a' = Some o
  /\ forall w2, get_object R (parse R) (a', w2) = (Ok o, (a', w2)).
Proof.
  intros H.
  pose proof (@get_object_keeps _ R same_identity same_identity_refl
                same_identity_trans same_identity_cache same_identity_object (parse R)
                (parse_readonly R) (a, w)) as [K1 K2].
  rewrite H in K1, K2. cbn [fst snd] in K1, K2. subst w'.
  split; [reflexivity|]. split; [exact K1|].
  split.
  { intros Hr. exact (@get_object_reference _ R (parse R) _ _ _ _ _
                        (parse_readonly R) Hr H). }
  unfold get_object in H.
  apply bind_Ok in H. destruct H as (r & [a1 w1] & E & H).
  destruct r as [o1|v]; [|discriminate].
  apply ret_Ok in H. destruct H as [-> E'].
  inversion E'; subst a1 w1. clear E'.
  unfold get_object_raw in E.
  apply bind_Ok in E. destruct E as ([] & [a2 w2] & Eg & E).
  apply liftW_Ok in Eg. destruct Eg as [-> Eg].
  pose proof (guard_Ok R _ Eg) as G.
  pose proof (readonly_run w (guard_readonly R)) as Gw. rewrite Eg in Gw.
  cbn [snd] in Gw. subst w2. clear Eg.
  apply bind_Ok in E. destruct E as (s & st & Es & E).
  apply self_Ok in Es. destruct Es as [-> ->]. cbn [fst] in E.
  assert (Hres : resolve_object R (parse R) (a, w) = (Ok (inl o1), (a', w)) ->
                 (forall d,
                     Dict.get "object" (_data a) = Some (JDict d) ->
                     parse R (JDict d) w = (Ok o1, w)
                     /\ _data a'
                        = Dict.set "object"
                            (JDict (object_in_place (context_in_place d) o1))
                            (_data a)
                     /\ forall k, k <> "@context" -> k <> "object" ->
                                  Dict.get k (object_in_place (context_in_place d) o1)
                                  = Dict.get k d)
                 /\ obj_cache a' = Some o1).
  { intros Er. destruct (resolve_object_Ok _ _ _ _ Er) as (p & a3 & Ei & -> & Hd).
    inversion Ei; subst p. split.
    - intros d Ed. destruct (Hd d Ed) as [Hp ->].
      split; [exact Hp|]. split.
      + destruct a; reflexivity.
      + intros k N1 N2. now apply in_place_other.
    - destruct a3; reflexivity. }
  assert (Hboth : (forall d,
                      obj_cache a = None ->
                      Dict.get "object" (_data a) = Some (JDict d) ->
                      parse R (JDict d) w = (Ok o1, w)
                      /\ _data a'
                         = Dict.set "object"
                             (JDict (object_in_place (context_in_place d) o1))
                             (_data a)
                      /\ forall k, k <> "@context" -> k <> "object" ->
                                   Dict.get k (object_in_place (context_in_place d) o1)
                                   = Dict.get k d)
                  /\ obj_cache a' = Some o1).
  { unfold obj_cache. destruct (obj_slot a) as [[o0|]|] eqn:Ec.
    - apply ret_Ok in E. destruct E as [E1 E2]. inversion E1; inversion E2; subst.
      split; [discriminate|]. unfold obj_cache. now rewrite Ec.
    - destruct (Hres E) as [H1 H2]. split; [intros d _; apply H1|exact H2].
    - cbv zeta in E.
      destruct (truthy (getattr_data a "_BaseActivity__obj")); [discriminate|].
      destruct (Hres E) as [H1 H2]. split; [intros d _; apply H1|exact H2]. }
  destruct Hboth as [H1 Hc].
  split; [exact H1|]. split; [exact Hc|].
  intros w3. unfold get_object, get_object_raw.
  unfold bind at 1. unfold bind at 1. unfold liftW at 1. cbn [fst snd].
  rewrite G. unfold bind at 1. unfold self at 1. cbn [fst snd].
  unfold obj_cache in Hc. destruct (obj_slot a') as [[o2|]|]; inversion Hc.
  reflexivity.
Qed.

Lemma get_object_is_cached_witness :
  world_after undo_of_payload_got = w0
  /\ same_identity undo_of_payload (self_after undo_of_payload_got)
  /\ (is_dict (dget "object" (_data undo_of_payload)) = false ->
      _data (self_after undo_of_payload_got) = _data undo_of_payload)
  /\ (forall d,
        obj_cache undo_of_payload = None ->
        Dict.get "object" (_data undo_of_payload) = Some (JDict d) ->
        parse RT (JDict d) w0 = (Ok (returned undo_of_payload_got), w0)
        /\ _data (self_after undo_of_payload_got)
           = Dict.set "object"
               (JDict (object_in_place (context_in_place d)
                                       (returned undo_of_payload_got)))
               (_data undo_of_payload)
        /\ forall k, k <> "@context" -> k <> "object" ->
                     Dict.get k (object_in_place (context_in_place d)
                                                 (returned undo_of_payload_got))
                     = Dict.get k d)
  /\ obj_cache (self_after undo_of_payload_got) = Some (returned undo_of_payload_got)
  /\ forall w2, get_object RT (parse RT) (self_after undo_of_payload_got, w2)
                = (Ok (returned undo_of_payload_got),
                   (self_after undo_of_payload_got, w2)).
Proof.
  exact (@get_object_is_cached _ RT undo_of_payload w0
           (returned undo_of_payload_got) (self_after undo_of_payload_got)
           (world_after undo_of_payload_got) eq_refl).
Defined.

(** The inline follow request of the sample had the base context alone; once
    its object is resolved, the undo holds it with the normalized list. *)
Lemma get_object_extends_inline_context :
  Dict.get "@context" follow_payload = Some (JList [JStr CTX_AS])
  /\ dget "@context" (dget_dict "object" (_data undo_of_payload))
     = JList [JStr CTX_AS]
  /\ dget "@context" (dget_dict "object" (_data (self_after undo_of_payload_got)))
     = JList [JStr CTX_AS; JStr CTX_SECURITY;
              JDict [("Hashtag", JStr "as:Hashtag");
                     ("sensitive", JStr "as:sensitive")]].
Proof. repeat split. Qed.

(** The private attribute [__obj] is not set by the constructor, so the
    first [get_object] reads it through [__getattr__], which looks the
    mangled name up in [_data].  An activity whose attribute was never
    assigned and that carries a truthy field of that name has the field
    returned as its object, without parsing or fetching anything; the inbox
    hook of such an [Accept] finds no [Follow] and records no following. *)
Theorem get_object_returns_shadowing_field {St} (R : Runtime St) b a p
        (w : world St) :
  BACKEND R = Some b ->
  obj_slot a = None ->
  truthy (dget "_BaseActivity__obj" (_data a)) = true ->
  get_object_raw R (parse R) (a, w)
  = (Ok (inr (dget "_BaseActivity__obj" (_data a))), (a, w))
  /\ (ACTIVITY_TYPE a = ACCEPT ->
      _process_from_inbox R p (a, w) = (Ok tt, (a, w))).
Proof.
  intros Hb Hc Ht.
  assert (E : get_object_raw R (parse R) (a, w)
              = (Ok (inr (dget "_BaseActivity__obj" (_data a))), (a, w))).
  { unfold get_object_raw.
    unfold bind at 1. unfold liftW at 1. cbn [fst snd]. rewrite (guard_run R Hb).
    unfold bind at 1. unfold self at 1. cbn [fst snd].
    rewrite Hc. unfold getattr_data. cbv zeta. rewrite !Ht. reflexivity. }
  split; [exact E|].
  intros Ha. unfold _process_from_inbox.
  unfold bind at 1. unfold self at 1. cbn [fst snd]. rewrite Ha.
  unfold bind at 1. unfold liftW at 1. cbn [fst snd]. rewrite (guard_run R Hb).
  unfold bind at 1. rewrite E. reflexivity.
Qed.

Lemma get_object_returns_shadowing_field_witness :
  get_object_raw RT (parse RT) (shadowed_accept, w0)
  = (Ok (inr (JStr "anything")), (shadowed_accept, w0))
  /\ (ACTIVITY_TYPE shadowed_accept = ACCEPT ->
      _process_from_inbox RT (person_of alice) (shadowed_accept, w0)
      = (Ok tt, (shadowed_accept, w0))).
Proof.
  exact (@get_object_returns_shadowing_field _ RT Mem.backend shadowed_accept
           (person_of alice) w0 eq_refl eq_refl eq_refl).
Defined.

(** ** Recipient resolution *)

(** [recipients] makes no effectful backend call: whether it returns or
    raises, the world is as it was, and so are the class, the [id] attribute
    and the fields of the activity other than [object]; its object cache
    may have been filled, and its inline object changed in place by the
    constructor that parsed it. *)
Theorem recipients_changes_nothing {St} (R : Runtime St) a (w : world St) :
  world_after (recipients R (a, w)) = w
  /\ same_identity a (self_after (recipients R (a, w))).
Proof.
  pose proof (@recipients_frames _ R (@eq (world St)) (@eq_refl _) (@eq_trans' _)
                same_identity same_identity_refl same_identity_trans
                same_identity_cache same_identity_object (a, w)) as [K1 K2].
  split; [symmetry; exact K2|exact K1].
Qed.

(** The sender itself, the public collection and [None] are passed over
    before the backend is asked: the loop of [recipients] gives the same
    result, in the same state, for the list without them. *)
Theorem recipients_loop_passes_over {St} (R : Runtime St) actor_id l :
  forall out col (w : world St),
    recipients_loop R actor_id l out col w
    = recipients_loop R actor_id
        (filter (fun r => negb (skipped actor_id r)) l) out col w.
Proof.
  induction l as [|r rest IH]; intros out col w; [reflexivity|].
  cbn [filter]. unfold skipped at 1.
  destruct (py_in r [actor_id; JStr AS_PUBLIC; JNone]) eqn:E; cbn [negb].
  - cbn [recipients_loop]. rewrite E. apply IH.
  - cbn [recipients_loop]. rewrite E.
    apply bind_ext. intros raw w1 _.
    apply bind_ext. intros ty w2 _.
    destruct (py_eq ty (JStr (value PERSON))).
    + apply bind_ext. intros actor w3 _.
      apply bind_ext. intros out' w4 _. apply IH.
    + destruct (py_in ty _); [|reflexivity].
      apply bind_ext. intros items w3 _.
      apply bind_ext. intros oc w4 _. apply IH.
Qed.

Lemma py_in_app x l1 l2 : py_in x (l1 ++ l2) = py_in x l1 || py_in x l2.
Proof. unfold py_in. apply existsb_app. Qed.

Lemma no_repeats_after_snoc x l :
  forall seen,
    no_repeats_after seen (l ++ [x])
    = no_repeats_after seen l && negb (py_in x (seen ++ l)).
Proof.
  induction l as [|y r IH]; intros seen; cbn [app no_repeats_after].
  - now rewrite app_nil_r, Bool.andb_true_r.
  - rewrite IH, <- app_assoc. cbn [app]. now rewrite Bool.andb_assoc.
Qed.

Lemma no_repeats_snoc x l :
  no_repeats l = true -> py_in x l = false -> no_repeats (l ++ [x]) = true.
Proof.
  unfold no_repeats. intros H1 H2. rewrite no_repeats_after_snoc.
  cbn [app]. now rewrite H1, H2.
Qed.

Lemma add_endpoint_no_repeats actor out out' :
  no_repeats out = true ->
  add_endpoint actor out = Ok out' ->
  no_repeats out' = true.
Proof.
  intros H. unfold add_endpoint.
  assert (A : no_repeats
                (if truthy (getattr_data actor "inbox")
                    && negb (py_in (getattr_data actor "inbox") out)
                 then out ++ [getattr_data actor "inbox"] else out) = true).
  { destruct (truthy _); cbn [andb]; auto.
    destruct (py_in (getattr_data actor "inbox") out) eqn:E; cbn [negb]; auto.
    now apply no_repeats_snoc. }
  destruct (truthy (getattr_data actor "endpoints")).
  - intros E. apply rbind_Ok in E. destruct E as (sh & _ & E).
    destruct (py_in sh out) eqn:Es; cbn [negb] in E; inversion E; subst; auto.
    now apply no_repeats_snoc.
  - intros E. inversion E; subst. exact A.
Qed.

Lemma collection_loop_no_repeats {St} (R : Runtime St) actor_id items :
  forall out col (w : world St) out' col' w',
    no_repeats out = true ->
    collection_loop R actor_id items out col w = (Ok (out', col'), w') ->
    no_repeats out' = true.
Proof.
  induction items as [|item rest IH]; intros out col w out' col' w' Hn H.
  - apply ret_Ok in H. destruct H as [H _]. inversion H; subst. exact Hn.
  - cbn [collection_loop] in H.
    destruct (py_in item [actor_id; JStr AS_PUBLIC]); [eapply IH; eauto|].
    apply bind_Ok in H. destruct H as ([c|] & w1 & _ & H); [|discriminate].
    apply bind_Ok in H. destruct H as (out1 & w2 & E & H).
    apply lift_result_Ok in E. destruct E as [E ->].
    eapply IH; [|exact H]. eapply add_endpoint_no_repeats; eauto.
Qed.

Lemma recipients_loop_no_repeats {St} (R : Runtime St) actor_id l :
  forall out col (w : world St) out' w',
    no_repeats out = true ->
    recipients_loop R actor_id l out col w = (Ok out', w') ->
    no_repeats out' = true.
Proof.
  induction l as [|r rest IH]; intros out col w out' w' Hn H.
  - apply ret_Ok in H. destruct H as [H _]. now subst.
  - cbn [recipients_loop] in H.
    destruct (py_in r [actor_id; JStr AS_PUBLIC; JNone]); [eapply IH; eauto|].
    apply bind_Ok in H. destruct H as (raw & w1 & _ & H).
    apply bind_Ok in H. destruct H as (ty & w2 & _ & H).
    destruct (py_eq ty (JStr (value PERSON))).
    + apply bind_Ok in H. destruct H as (actor & w3 & _ & H).
      apply bind_Ok in H. destruct H as (out1 & w4 & E & H).
      apply lift_result_Ok in E. destruct E as [E ->].
      eapply IH; [|exact H]. eapply add_endpoint_no_repeats; eauto.
    + destruct (py_in ty _); [|discriminate].
      apply bind_Ok in H. destruct H as (items & w3 & _ & H).
      apply bind_Ok in H. destruct H as ([out1 c1] & w4 & E & H).
      eapply IH; [|exact H]. cbn [fst].
      eapply collection_loop_no_repeats; eauto.
Qed.

(** The endpoints [recipients] returns are distinct: an endpoint is added
    only when it is not yet in the list, so no element of the result equals
    one before it, and no delivery goes to the same endpoint twice. *)
Theorem recipients_are_distinct {St} (R : Runtime St) a (w : world St) out s' :
  recipients R (a, w) = (Ok out, s') ->
  no_repeats out = true.
Proof.
  unfold recipients. intros H.
  apply bind_Ok in H. destruct H as ([] & s1 & _ & H).
  apply bind_Ok in H. destruct H as (recps & s2 & _ & H).
  apply bind_Ok in H. destruct H as (s & s3 & _ & H).
  apply bind_Ok in H. destruct H as (actor & s4 & _ & H).
  unfold liftW in H.
  destruct (recipients_loop R (attr_id actor) recps [] None (snd s4))
    as [r w1] eqn:E.
  inversion H; subst r. clear H.
  eapply recipients_loop_no_repeats; [|exact E]. reflexivity.
Qed.

Lemma recipients_are_distinct_witness :
  no_repeats [JStr b_shared; JStr "https://b.example/u/carol/inbox"] = true.
Proof.
  exact (@recipients_are_distinct _ RT note_to_bob_and_carol w0
           [JStr b_shared; JStr "https://b.example/u/carol/inbox"]
           (snd (recipients RT (note_to_bob_and_carol, w0))) eq_refl).
Defined.



(** ** A [Create] without a context reference *)

Section CreateWithoutContext.

Context {St : Type} (R : Runtime St).

Lemma keeps_object_refl a : keeps_object a a.
Proof. intros H. exact H. Qed.

Lemma keeps_object_trans a b c :
  keeps_object a b -> keeps_object b c -> keeps_object a c.
Proof. unfold keeps_object. auto. Qed.

Lemma keeps_object_cache o a : keeps_object a (set_cache o a).
Proof. destruct a. intros H. exact H. Qed.

Lemma keeps_object_object v a :
  keeps_object a (set_data (Dict.set "object" v (_data a)) a).
Proof.
  destruct a as [c d o x i]. intros _. unfold Dict.mem. cbn.
  now rewrite get_set_same.
Qed.

Lemma keeps_object_data_field k v :
  In k ["published"; "url"; "sensitive"] ->
  keeps (pairR keeps_object (@eq (world St))) (set_data_field k v).
Proof.
  intros Hk [a w]. split; [|reflexivity]. destruct a as [c d o x i].
  unfold keeps_object, Dict.mem. cbn. rewrite get_set_other; auto.
  intros <-. simpl in Hk. intuition discriminate.
Qed.

Lemma keeps_object_object_field k v :
  keeps (pairR keeps_object (@eq (world St))) (set_object_field k v).
Proof.
  intros [a w]. rewrite set_object_field_run.
  destruct (py_getitem (JDict (_data a)) "object") as [o|e];
    [|split; [apply keeps_object_refl|reflexivity]].
  destruct (py_setitem o k v) as [o'|e];
    (split; [|reflexivity]); [|apply keeps_object_refl].
  destruct a as [c d ob x i]. intros _. unfold Dict.mem. cbn.
  now rewrite get_set_same.
Qed.

Lemma Create_init_needs_object parse s0 (w : world St) :
  obj_cache s0 = None ->
  Dict.get "object" (_data s0) = None ->
  exists e s', Create_init R parse (s0, w) = (Raise e, s')
               /\ is_NotImplementedError e = false.
Proof.
  intros Hc Hg. unfold Create_init, get_object.
  unfold bind at 1. unfold bind at 1. unfold get_object_raw.
  unfold bind at 1. unfold liftW at 1. cbn [fst snd]. unfold guard.
  destruct (BACKEND R); [|eexists; eexists; split; reflexivity].
  cbn [ret]. unfold bind at 1. unfold self at 1. cbn [fst snd].
  assert (Er : exists e s', resolve_object R parse (s0, w) = (Raise e, s')
                            /\ is_NotImplementedError e = false).
  { unfold resolve_object. unfold bind at 1. unfold self at 1. cbn [fst snd].
    unfold bind at 1. unfold lift_result at 1. cbn [py_getitem]. rewrite Hg.
    eexists; eexists; split; reflexivity. }
  destruct Er as (e & s' & Er & Hn).
  unfold obj_cache in Hc. destruct (obj_slot s0) as [[o|]|]; [discriminate| |].
  - rewrite Er. exists e, s'. split; [reflexivity|exact Hn].
  - cbv zeta. destruct (truthy (getattr_data s0 "_BaseActivity__obj")).
    + eexists; eexists; split; reflexivity.
    + rewrite Er. exists e, s'. split; [reflexivity|exact Hn].
Qed.

(** A [Create] that its constructor returns has an entry under [object]. *)
Lemma new_Create_has_object kwargs (w : world St) a w' :
  new R CREATE kwargs w = (Ok a, w') ->
  Dict.mem "object" (_data a) = true.
Proof.
  intros H. unfold new in H.
  set (P := match recursion_limit R with
            | O => fun _ => raise RecursionError
            | S m => fun p => parse_activity_with (new_n R m) p None
            end).
  assert (H' : __init__ R (_init R P CREATE) CREATE kwargs w = (Ok a, w')).
  { unfold P. destruct (recursion_limit R); exact H. }
  clear H.
  assert (HP : forall p, readonly (P p)).
  { intros p. apply new_n_hook_readonly. }
  destruct (@__init___inv _ R (_init R P CREATE) CREATE kwargs w a w'
              (fun kw s r s' => @_init_returns_None _ R P CREATE kw s r s') H')
    as (kw1 & d0 & k0 & d1 & k1 & d2 & k2 & c & s1 & w1
        & _ & _ & _ & _ & _ & _ & E6 & E7 & ->).
  set (s0 := mkActivity CREATE (Dict.set "@context" (JList c) d2) None CtxDict None) in *.
  assert (Hs1 : Dict.mem "object" (_data s1) = true).
  { assert (K : keeps (pairR keeps_object (@eq (world St)))
                  (try_except (_init R P CREATE (Dict.remove "@context" k2))
                              is_NotImplementedError (ret None))).
    { apply keeps_try_except.
      - intros x y z [A1 A2] [B1 B2]. split; [|congruence].
        eapply keeps_object_trans; eauto.
      - apply _init_keeps; auto.
        + apply keeps_object_refl.
        + apply keeps_object_trans.
        + apply keeps_object_cache.
        + apply keeps_object_object.
        + apply keeps_object_data_field.
        + apply keeps_object_object_field.
      - intros x. split; [apply keeps_object_refl|reflexivity]. }
    specialize (K (s0, w1)). rewrite E7 in K. destruct K as [K _].
    cbn [fst] in K. apply K.
    unfold Dict.mem. destruct (Dict.get "object" (_data s0)) eqn:Eg; [reflexivity|].
    exfalso.
    destruct (@Create_init_needs_object P s0 w1 eq_refl Eg) as (e & s' & Ee & Hn).
    unfold try_except in E6. cbn [_init] in E6. rewrite Ee, Hn in E6.
    discriminate. }
  destruct s1 as [cl dd oo xx ii]. cbn [set_data _data] in *.
  unfold Dict.mem in *.
  destruct (Dict.get "object" dd) as [v|] eqn:Ed; [|discriminate].
  unfold Dict.update.
  generalize (filter (fun kv : string * json =>
                        match snd kv with JNone => false | _ => true end)
                     (Dict.remove "@context" k2)).
  intros e. clear - Ed. revert dd v Ed. induction e as [|[k' v'] r IH]; intros dd v Ed; cbn.
  - now rewrite Ed.
  - destruct (String.eqb_spec "object" k') as [<-|N].
    + eapply IH. apply get_set_same.
    + eapply IH. rewrite get_set_other by exact N. exact Ed.
Qed.

End CreateWithoutContext.

(** ** The outbox pipeline, step by step *)

Section OutboxSteps.

Context {St : Type} (R : Runtime St) (b : Backend St).
Hypothesis Hb : BACKEND R = Some b.

Lemma bk_random_object_id_run (w : world St) :
  bk_random_object_id R w = (Ok (minted_id b w), minted_world b w).
Proof.
  unfold bk_random_object_id, backend, minted_id, minted_world. rewrite Hb.
  destruct (random_object_id b (store w)); reflexivity.
Qed.

Lemma bk_activity_url_run i (w : world St) :
  bk_activity_url R i w = (Ok (activity_url b (store w) i), w).
Proof. unfold bk_activity_url, backend. now rewrite Hb. Qed.

(** [post_to_outbox] up to the assignment of the identifier. *)
Lemma post_to_outbox_run a (w : world St) :
  post_to_outbox R (a, w)
  = (outbox_set_id (minted_uri b w) (minted_id b w) ;;;
     outbox_publish R (minted_id b w))%st (a, minted_world b w).
Proof.
  unfold post_to_outbox.
  unfold bind at 1. unfold liftW at 1. cbn [fst snd]. rewrite (guard_run R Hb).
  unfold bind at 1. unfold liftW at 1. cbn [fst snd]. rewrite bk_random_object_id_run.
  unfold bind at 1. unfold liftW at 1. cbn [fst snd]. rewrite bk_activity_url_run.
  reflexivity.
Qed.

(** The identifier callback of the classes other than [Create]. *)
Lemma outbox_set_id_plain uri obj_id a (w : world St) :
  ACTIVITY_TYPE a <> CREATE ->
  outbox_set_id uri obj_id (a, w) = (Ok tt, (with_id uri a, w)).
Proof.
  intros Hc. unfold outbox_set_id, bind, set_data_field, modify_self, try_except,
    _outbox_set_id, self, with_id. cbn [fst snd].
  destruct a as [c d o x i]. cbn in Hc |- *.
  destruct c; try reflexivity. congruence.
Qed.

Lemma outbox_set_id_Create_no_context uri obj_id a (w : world St) :
  ACTIVITY_TYPE a = CREATE ->
  ctx_of a = CtxDict ->
  Dict.mem "object" (_data a) = true ->
  exists a1, outbox_set_id uri obj_id (a, w) = (Raise TypeError, (a1, w))
             /\ Dict.get "id" (_data a1) = Some (JStr uri).
Proof.
  intros Hc Hx Ho. destruct a as [c d o x i]. cbn in Hc, Hx, Ho. subst c x.
  unfold outbox_set_id, set_data_field.
  unfold bind at 1. unfold modify_self at 1. cbn [fst snd set_data _data].
  unfold try_except, _outbox_set_id.
  unfold bind at 1. unfold self at 1. cbn [fst snd ACTIVITY_TYPE].
  unfold bind at 1. rewrite set_object_field_run. cbn [_data py_getitem].
  unfold Dict.mem in Ho. rewrite get_set_other by discriminate.
  destruct (Dict.get "object" d) as [ob|]; [|discriminate].
  destruct (py_setitem ob "id" (JStr (uri ++ "/activity"))) as [o'|e] eqn:Es.
  - eexists. split; [reflexivity|]. cbn.
    rewrite get_set_other by discriminate. apply get_set_same.
  - assert (e = TypeError) by (destruct ob; inversion Es; reflexivity). subst e.
    eexists. split; [reflexivity|]. cbn. apply get_set_same.
Qed.

End OutboxSteps.

(** A [Create] that comes from its constructor, and so from
    [parse_activity], has no context reference: [__init__] leaves a
    dictionary in the slot and only [build_create] sets a reference.
    [post_to_outbox] of such a [Create] draws an identifier, stores it, and
    raises [TypeError] in the identifier callback, where the slot is called.
    The activity is neither handed to [outbox_new] nor delivered: no backend
    call is recorded. *)
Theorem constructed_create_cannot_be_posted {St} (R : Runtime St) b kwargs
        (w0 : world St) a w0' (w : world St) :
  BACKEND R = Some b ->
  unique_keys kwargs = true ->
  new R CREATE kwargs w0 = (Ok a, w0') ->
  exists a1,
    post_to_outbox R (a, w) = (Raise TypeError, (a1, minted_world b w))
    /\ Dict.get "id" (_data a1) = Some (JStr (minted_uri b w))
    /\ trace (minted_world b w) = trace w.
Proof.
  intros Hb Hu Hn.
  destruct (constructor_fields_of_new R CREATE kwargs w0 Hu Hn)
    as ((Hc & Hx & _) & _).
  pose proof (new_Create_has_object R kwargs w0 Hn) as Ho.
  destruct (@outbox_set_id_Create_no_context St (minted_uri b w) (minted_id b w)
              a (minted_world b w) Hc Hx Ho) as (a1 & E & Hid).
  exists a1. rewrite (post_to_outbox_run R Hb). unfold bind at 1. rewrite E.
  split; [reflexivity|]. split; [exact Hid|reflexivity].
Qed.

Lemma constructed_create_cannot_be_posted_witness :
  exists a1,
    post_to_outbox RT (constructed_create, w0)
    = (Raise TypeError, (a1, minted_world Mem.backend w0))
    /\ Dict.get "id" (_data a1) = Some (JStr (minted_uri Mem.backend w0))
    /\ trace (minted_world Mem.backend w0) = trace w0.
Proof.
  exact (@constructed_create_cannot_be_posted _ RT Mem.backend create_kwargs w0
           constructed_create w0 w0 eq_refl eq_refl eq_refl).
Defined.

(** ** Ownership checks before posting *)

Lemma with_id_class uri a : ACTIVITY_TYPE (with_id uri a) = ACTIVITY_TYPE a.
Proof. destruct a. reflexivity. Qed.

(** [post_to_outbox] of an [Undo] or an [Update] asks the backend whether
    the activity itself, with the identifier just stored in it, is from the
    outbox.  When the answer is no it raises [NotFromOutboxError]: the
    identifier stays, and the activity is neither handed to [outbox_new] nor
    delivered. *)
Theorem unowned_undo_or_update_is_not_posted {St} (R : Runtime St) b a
        (w : world St) :
  BACKEND R = Some b ->
  ACTIVITY_TYPE a = UNDO \/ ACTIVITY_TYPE a = UPDATE ->
  is_from_outbox b (store (minted_world b w)) (with_id (minted_uri b w) a) = false ->
  post_to_outbox R (a, w)
  = (Raise NotFromOutboxError, (with_id (minted_uri b w) a, minted_world b w))
  /\ trace (minted_world b w) = trace w.
Proof.
  intros Hb Hc Ho. split; [|reflexivity].
  rewrite (post_to_outbox_run R Hb). unfold bind at 1.
  rewrite outbox_set_id_plain by (destruct Hc as [-> | ->]; discriminate).
  unfold outbox_publish. unfold bind at 1.
  assert (E : try_except (_pre_post_to_outbox R) is_NotImplementedError (ret tt)
                         (with_id (minted_uri b w) a, minted_world b w)
              = (Raise NotFromOutboxError,
                 (with_id (minted_uri b w) a, minted_world b w))).
  { unfold try_except, _pre_post_to_outbox.
    unfold bind at 1. unfold self at 1. cbn [fst snd]. rewrite with_id_class.
    destruct Hc as [-> | ->].
    all: unfold bind at 1; unfold liftW at 1; cbn [fst snd];
      rewrite (guard_run R Hb).
    all: unfold bind at 1; unfold self at 1; cbn [fst snd].
    all: unfold bind at 1; unfold liftW at 1; cbn [fst snd];
      rewrite (bk_query_run R Hb), Ho; reflexivity. }
  now rewrite E.
Qed.

Lemma unowned_undo_or_update_is_not_posted_witness :
  post_to_outbox RT (carol_undoes_bobs_follow, w0)
  = (Raise NotFromOutboxError,
     (with_id (minted_uri Mem.backend w0) carol_undoes_bobs_follow,
      minted_world Mem.backend w0))
  /\ trace (minted_world Mem.backend w0) = trace w0.
Proof.
  exact (@unowned_undo_or_update_is_not_posted _ RT Mem.backend
           carol_undoes_bobs_follow w0 eq_refl (or_introl eq_refl) eq_refl).
Defined.

(** [post_to_outbox] of a [Delete] resolves the object to delete and then
    asks the backend whether the [Delete] itself is from the outbox.  When
    the answer is no, the message of the [NotFromOutboxError] subscripts the
    resolved object, which is an activity and no dictionary: what is raised is
    [TypeError].  Nothing is handed to [outbox_new] or delivered. *)
Theorem unowned_delete_raises_TypeError {St} (R : Runtime St) b a
        (w : world St) obj a2 :
  BACKEND R = Some b ->
  ACTIVITY_TYPE a = DELETE ->
  _get_actual_object R (with_id (minted_uri b w) a, minted_world b w)
  = (Ok obj, (a2, minted_world b w)) ->
  is_from_outbox b (store (minted_world b w)) a2 = false ->
  post_to_outbox R (a, w) = (Raise TypeError, (a2, minted_world b w))
  /\ trace (minted_world b w) = trace w.
Proof.
  intros Hb Hc Hg Ho. split; [|reflexivity].
  rewrite (post_to_outbox_run R Hb). unfold bind at 1.
  rewrite outbox_set_id_plain by (rewrite Hc; discriminate).
  unfold outbox_publish. unfold bind at 1.
  assert (E : try_except (_pre_post_to_outbox R) is_NotImplementedError (ret tt)
                         (with_id (minted_uri b w) a, minted_world b w)
              = (Raise TypeError, (a2, minted_world b w))).
  { unfold try_except, _pre_post_to_outbox.
    unfold bind at 1. unfold self at 1. cbn [fst snd]. rewrite with_id_class, Hc.
    unfold bind at 1. unfold liftW at 1. cbn [fst snd]. rewrite (guard_run R Hb).
    unfold bind at 1. rewrite Hg.
    unfold bind at 1. unfold self at 1. cbn [fst snd].
    unfold bind at 1. unfold liftW at 1. cbn [fst snd].
    rewrite (bk_query_run R Hb), Ho. reflexivity. }
  now rewrite E.
Qed.

Lemma unowned_delete_raises_TypeError_witness :
  post_to_outbox RT (bob_deletes_note, w0)
  = (Raise TypeError,
     (self_after delete_object_resolved, minted_world Mem.backend w0))
  /\ trace (minted_world Mem.backend w0) = trace w0.
Proof.
  exact (@unowned_delete_raises_TypeError _ RT Mem.backend bob_deletes_note w0
           (got (default_activity, true) delete_object_resolved)
           (self_after delete_object_resolved) eq_refl eq_refl eq_refl eq_refl).
Defined.

(** ** The first backend call of [post_to_outbox] *)

Lemma extends_refl {St} (w : world St) : extends w w.
Proof. exists []. now rewrite app_nil_r. Qed.

Lemma extends_trans {St} (w1 w2 w3 : world St) :
  extends w1 w2 -> extends w2 w3 -> extends w1 w3.
Proof.
  intros (l1 & E1) (l2 & E2). exists (l1 ++ l2). now rewrite E2, E1, app_assoc.
Qed.

Ltac extends_side :=
  try first [ exact (@extends_refl _) | exact (@extends_trans _)
            | exact (@anything_refl _) | exact (@anything_trans _)
            | exact anything_cache | exact anything_object ].

Section OutboxFirstCall.

Context {St : Type} (R : Runtime St) (b : Backend St).
Hypothesis Hb : BACKEND R = Some b.

Lemma extends_do c : keeps extends (bk_do R c).
Proof. intros w. rewrite (bk_do_run R Hb). exists [c]. reflexivity. Qed.

(** [post_to_outbox] once the activity is handed to [outbox_new]. *)
Lemma after_outbox_new_extends obj_id :
  keeps (pairR anything extends)
    (recipients <- recipients R ;;
     activity <- @cleaned_dict St ;;
     try_except (s <- self ;;
                 a <- liftW (get_actor R s) ;;
                 _post_to_outbox R a obj_id activity recipients)
                is_NotImplementedError (ret tt) ;;;
     deliver R (json_dumps R (JDict activity)) recipients)%st.
Proof.
  assert (T : forall s1 s2 s3 : activity * world St,
             pairR anything extends s1 s2 -> pairR anything extends s2 s3 ->
             pairR anything extends s1 s3).
  { intros s1 s2 s3 [_ A] [_ B]. split; [exact Logic.I|].
    eapply extends_trans; eauto. }
  apply keeps_bind; [exact T| |intros recps].
  { apply recipients_frames; extends_side.
    all: intros; exact Logic.I. }
  apply keeps_bind; [exact T| |intros act].
  { apply cleaned_dict_frames; extends_side.
    all: try (intros; exact Logic.I). }
  apply keeps_bind; [exact T| |intros _].
  { apply post_hook_frames; extends_side.
    all: try (intros; exact Logic.I).
    intros m p x _. apply extends_do. }
  apply deliver_frames; extends_side.
  all: try (intros; exact Logic.I).
  intros p pl r. apply extends_do.
Qed.

End OutboxFirstCall.

(** However [post_to_outbox] ends, either it has made no backend call, or
    the first call it made is [outbox_new], for the actor of the activity and
    the activity with its new identifier: nothing is recorded or delivered
    for an activity that was not first handed to the outbox. *)
Theorem outbox_new_comes_first {St} (R : Runtime St) b a (w : world St) r a' w' :
  BACKEND R = Some b ->
  post_to_outbox R (a, w) = (r, (a', w')) ->
  trace w' = trace w
  \/ exists actor a1 rest,
       trace w' = trace w ++ Call outbox_new actor a1 :: rest
       /\ get_actor R a1 (minted_world b w) = (Ok actor, minted_world b w)
       /\ Dict.get "id" (_data a1) = Some (JStr (minted_uri b w)).
Proof.
  intros Hb H. rewrite (post_to_outbox_run R Hb) in H.
  unfold bind at 1 in H.
  destruct (outbox_set_id_run (minted_uri b w) (minted_id b w) a (minted_world b w))
    as [Gid Gw].
  destruct (outbox_set_id (minted_uri b w) (minted_id b w) (a, minted_world b w))
    as [r1 [a1 w1]]. unfold self_after, world_after in Gid, Gw.
  cbn [fst snd] in Gid, Gw. subst w1.
  destruct r1 as [[]|e]; [|inversion H; subst; now left].
  unfold outbox_publish in H. unfold bind at 1 in H.
  pose proof (@pre_hook_frames _ R (same_entry "id") (@eq (world St))
                (@same_entry_refl "id") (@same_entry_trans "id")
                (@same_entry_cache "id")
                (fun v a => @same_entry_object "id" v a ltac:(discriminate))
                (@eq_refl _) (@eq_trans' _)
                (a1, minted_world b w)) as [K1 K2].
  destruct (try_except (_pre_post_to_outbox R) is_NotImplementedError (ret tt)
                       (a1, minted_world b w)) as [r2 [a2 w2]].
  cbn [fst snd] in K1, K2. subst w2.
  destruct r2 as [[]|e]; [|inversion H; subst; now left].
  unfold bind at 1 in H. unfold self at 1 in H. cbn [fst snd] in H.
  unfold bind at 1 in H. unfold liftW at 1 in H. cbn [fst snd] in H.
  pose proof (readonly_run (minted_world b w) (get_actor_readonly R a2)) as Ea.
  destruct (get_actor R a2 (minted_world b w)) as [[actor|e] w3] eqn:Eg;
    cbn [snd] in Ea; subst w3; [|inversion H; subst; now left].
  unfold bind at 1 in H. rewrite (bk_call_run R Hb) in H.
  pose proof (@after_outbox_new_extends _ R b Hb (minted_id b w)
                (a2, after_call b (Call outbox_new actor a2) (minted_world b w)))
    as [_ (l & El)].
  rewrite H in El. cbn [snd] in El.
  right. exists actor, a2, l. split; [|split; [exact Eg|]].
  - rewrite El. cbn [after_call trace minted_world]. now rewrite <- app_assoc.
  - unfold same_entry in K1. cbn [fst] in K1. congruence.
Qed.

Lemma outbox_new_comes_first_witness :
  trace (world_after create_posted) = trace w0
  \/ exists actor a1 rest,
       trace (world_after create_posted)
       = trace w0 ++ Call outbox_new actor a1 :: rest
       /\ get_actor RT a1 (minted_world Mem.backend w0)
          = (Ok actor, minted_world Mem.backend w0)
       /\ Dict.get "id" (_data a1) = Some (JStr (minted_uri Mem.backend w0)).
Proof.
  exact (@outbox_new_comes_first _ RT Mem.backend sample_create w0
           (fst create_posted) (self_after create_posted)
           (world_after create_posted) eq_refl eq_refl).
Defined.

(** ** Delivery *)

Ltac identity_side :=
  try first [ exact same_identity_refl | exact same_identity_trans
            | exact same_identity_cache | exact same_identity_object
            | exact (@eq_refl _) | exact (@eq_trans' _) ].

Section Delivery.

Context {St : Type} (R : Runtime St) (b : Backend St).
Hypothesis Hb : BACKEND R = Some b.

(** The loop at the end of [post_to_outbox]: one delivery per recipient, in
    order, each in the name of the actor of the activity, which the loop
    leaves as it is. *)
Lemma deliver_run payload :
  forall recps a (w : world St) a' w',
    deliver R payload recps (a, w) = (Ok tt, (a', w')) ->
    a' = a
    /\ exists senders,
         List.length senders = List.length recps
         /\ Forall (fun s => exists wx, get_actor R a wx = (Ok s, wx)) senders
         /\ trace w' = trace w ++ deliveries payload senders recps.
Proof.
  induction recps as [|r rest IH]; intros a w a' w' H.
  - simpl in H. inversion H; subst. split; auto.
    exists []. split; [reflexivity|]. split; [constructor|].
    simpl. now rewrite app_nil_r.
  - simpl in H.
    apply bind_Ok in H. destruct H as (s & st1 & H1 & H).
    apply self_Ok in H1. destruct H1 as [-> ->]. cbn [fst] in H.
    apply bind_Ok in H. destruct H as (p & [a1 w1] & H1 & H).
    apply liftW_Ok in H1. destruct H1 as [-> H1].
    pose proof (readonly_run w (get_actor_readonly R a)) as E.
    rewrite H1 in E. simpl in E. subst w1.
    apply bind_Ok in H. destruct H as ([] & [a2 w2] & H2 & H).
    apply liftW_Ok in H2. destruct H2 as [-> H2].
    rewrite (bk_do_run R Hb) in H2. inversion H2; subst w2.
    apply IH in H. destruct H as [-> (senders & Hl & Hs & Ht)].
    split; auto. exists (p :: senders). split; [simpl; congruence|].
    split; [constructor; [exists w; exact H1|exact Hs]|].
    rewrite Ht. unfold after_call. cbn [trace]. simpl. now rewrite <- app_assoc.
Qed.

Lemma outbox_set_id_entry key uri obj_id :
  key <> "id" -> key <> "object" ->
  keeps (pairR (same_entry key) (@eq (world St))) (outbox_set_id uri obj_id).
Proof.
  intros N1 N2. unfold outbox_set_id.
  apply keeps_bind; [eauto with frames| |intros _].
  - intros [a w]. split; [|reflexivity]. destruct a as [c d o x i].
    unfold same_entry. simpl. apply get_set_other. congruence.
  - apply keeps_try_except; [eauto with frames| |keeps_auto].
    now apply _outbox_set_id_entry.
Qed.

(** C7.  A [post_to_outbox] that returns has given the activity its new
    identifier, run the pre-outbox hook, handed the activity to
    [outbox_new], resolved the recipients of that activity, and built
    [clean_activity(self.to_dict())] of it once.  That dictionary carries
    the new identifier and the fields of the posted activity other than
    [object]; it has neither [bto] nor [bcc], nor has its object when the
    activity is a [Create] with an inline object.  After the post-outbox
    hook, which delivers nothing, there is one delivery per resolved
    recipient, in order, each in the name of the actor of the activity and
    all of the one payload [json.dumps] gives for that dictionary; these
    are the last calls made. *)
Theorem post_to_outbox_delivery a (w : world St) a' w' :
  post_to_outbox R (a, w) = (Ok tt, (a', w')) ->
  exists a1 a2 actor recps a3 act a4 w5 senders quiet,
    let w1 := minted_world b w in
    let w2 := after_call b (Call outbox_new actor a2) w1 in
    let payload := json_dumps R (JDict act) in
    outbox_set_id (minted_uri b w) (minted_id b w) (a, w1) = (Ok tt, (a1, w1))
    /\ try_except (_pre_post_to_outbox R) is_NotImplementedError (ret tt) (a1, w1)
       = (Ok tt, (a2, w1))
    /\ get_actor R a2 w1 = (Ok actor, w1)
    /\ recipients R (a2, w2) = (Ok recps, (a3, w2))
    /\ to_dict a3 false false = Ok (_data a3)
    /\ clean_activity (_data a3) = Ok act
    /\ cleaned_dict (a3, w2) = (Ok act, (a4, w2))
    /\ Dict.get "id" act = Some (JStr (minted_uri b w))
    /\ (forall k, ~ In k ["id"; "object"; "bto"; "bcc"] ->
                  Dict.get k act = Dict.get k (_data a))
    /\ Dict.mem "bto" act = false
    /\ Dict.mem "bcc" act = false
    /\ (Dict.get "type" act = Some (JStr "Create") ->
        forall o, Dict.get "object" act = Some (JDict o) ->
                  Dict.mem "bto" o = false /\ Dict.mem "bcc" o = false)
    /\ try_except (s <- self ;;
                   p <- liftW (get_actor R s) ;;
                   _post_to_outbox R p (minted_id b w) act recps)%st
                  is_NotImplementedError (ret tt) (a4, w2)
       = (Ok tt, (a', w5))
    /\ trace w5 = trace w2 ++ quiet
    /\ forallb (fun c => negb (is_post c)) quiet = true
    /\ List.length senders = List.length recps
    /\ Forall (fun s => exists wx, get_actor R a' wx = (Ok s, wx)) senders
    /\ trace w' = trace w ++ Call outbox_new actor a2 :: quiet
                  ++ deliveries payload senders recps.
Proof.
  intros H. rewrite (post_to_outbox_run R Hb) in H. unfold bind at 1 in H.
  destruct (outbox_set_id_run (minted_uri b w) (minted_id b w) a (minted_world b w))
    as [Gid Gw].
  assert (Kid : forall key, key <> "id" -> key <> "object" ->
                  same_entry key a
                    (self_after (outbox_set_id (minted_uri b w) (minted_id b w)
                                               (a, minted_world b w)))).
  { intros key N1 N2.
    destruct (@outbox_set_id_entry key (minted_uri b w) (minted_id b w) N1 N2
                (a, minted_world b w)) as [K _]. exact K. }
  destruct (outbox_set_id (minted_uri b w) (minted_id b w) (a, minted_world b w))
    as [r1 [a1 w1]] eqn:E1. unfold self_after, world_after in Gid, Gw, Kid.
  cbn [fst snd] in Gid, Gw, Kid. subst w1.
  destruct r1 as [[]|e]; [|discriminate H].
  unfold outbox_publish in H. unfold bind at 1 in H.
  assert (K2 : keeps (pairR same_identity (@eq (world St)))
                 (try_except (_pre_post_to_outbox R) is_NotImplementedError (ret tt))).
  { apply pre_hook_frames; identity_side. }
  specialize (K2 (a1, minted_world b w)).
  destruct (try_except (_pre_post_to_outbox R) is_NotImplementedError (ret tt)
                       (a1, minted_world b w)) as [r2 [a2 w2]] eqn:E2.
  destruct K2 as [S2 W2]. cbn [fst snd] in S2, W2. subst w2.
  destruct r2 as [[]|e]; [|discriminate H].
  unfold bind at 1 in H. unfold self at 1 in H. cbn [fst snd] in H.
  unfold bind at 1 in H. unfold liftW at 1 in H. cbn [fst snd] in H.
  pose proof (readonly_run (minted_world b w) (get_actor_readonly R a2)) as Ea.
  destruct (get_actor R a2 (minted_world b w)) as [[actor|e] w3] eqn:Eg;
    cbn [snd] in Ea; subst w3; [|discriminate H].
  unfold bind at 1 in H. rewrite (bk_call_run R Hb) in H.
  set (w2 := after_call b (Call outbox_new actor a2) (minted_world b w)) in *.
  unfold bind at 1 in H.
  assert (K4 : keeps (pairR same_identity (@eq (world St))) (recipients R)).
  { apply recipients_frames; identity_side. }
  specialize (K4 (a2, w2)).
  destruct (recipients R (a2, w2)) as [r4 [a3 w4]] eqn:E4.
  destruct K4 as [S4 W4]. cbn [fst snd] in S4, W4. subst w4.
  destruct r4 as [recps|e]; [|discriminate H].
  unfold bind at 1 in H.
  destruct (cleaned_dict (a3, w2)) as [[act|e] [a4 w4]] eqn:E5; [|discriminate H].
  destruct (cleaned_dict_Ok _ _ E5) as [Ec ->].
  unfold bind at 1 in H.
  assert (K6 : keeps (pairR anything grows_quietly)
                 (try_except
                    (s <- self ;;
                     p <- liftW (get_actor R s) ;;
                     _post_to_outbox R p (minted_id b w) act recps)%st
                    is_NotImplementedError (ret tt))).
  { apply post_hook_frames;
      eauto using bk_do_call_quiet, anything_cache, anything_object with frames. }
  specialize (K6 (a4, w2)).
  match type of K6 with
  | pairR _ _ _ (snd (?m ?s)) => destruct (m s) as [r6 [a5 w5]] eqn:E6
  end.
  destruct K6 as [_ (quiet & Eq & Fq)]. cbn [fst snd] in Eq.
  destruct r6 as [[]|e]; [|discriminate H].
  destruct (deliver_run _ _ _ _ H) as [-> (senders & Hl & Hs & Ht)].
  destruct (clean_activity_spec _ Ec) as (M1 & M2 & _ & M3 & M4 & _).
  assert (Hget : forall k, k <> "object" ->
                   Dict.get k (_data a3) = Dict.get k (_data a1)).
  { intros k N. destruct S2 as (_ & D2 & _). destruct S4 as (_ & D4 & _).
    rewrite (D4 k N). now apply D2. }
  exists a1, a2, actor, recps, a3, act, a4, w5, senders, quiet. cbv zeta.
  fold w2.
  split; [exact E1|]. split; [exact E2|]. split; [exact Eg|].
  split; [exact E4|]. split; [apply to_dict_plain|]. split; [exact Ec|].
  split; [exact E5|].
  split.
  { rewrite M4 by discriminate. rewrite Hget by discriminate. exact Gid. }
  split.
  { intros k N. rewrite M4 by (intros ->; apply N; simpl; tauto).
    rewrite Hget by (intros ->; apply N; simpl; tauto).
    apply Kid; intros ->; apply N; simpl; tauto. }
  split; [exact M1|]. split; [exact M2|]. split; [exact M3|].
  split; [exact E6|]. split; [exact Eq|]. split; [exact Fq|].
  split; [exact Hl|]. split; [exact Hs|].
  rewrite Ht, Eq. unfold w2, after_call. cbn [trace minted_world].
  rewrite <- !app_assoc. reflexivity.
Qed.

End Delivery.

Lemma post_to_outbox_delivery_witness :
  exists a1 a2 actor recps a3 act a4 w5 senders quiet,
    let w1 := minted_world Mem.backend w0 in
    let w2 := after_call Mem.backend (Call outbox_new actor a2) w1 in
    let payload := json_dumps RT (JDict act) in
    outbox_set_id (minted_uri Mem.backend w0) (minted_id Mem.backend w0)
                  (sample_create, w1)
    = (Ok tt, (a1, w1))
    /\ try_except (_pre_post_to_outbox RT) is_NotImplementedError (ret tt) (a1, w1)
       = (Ok tt, (a2, w1))
    /\ get_actor RT a2 w1 = (Ok actor, w1)
    /\ recipients RT (a2, w2) = (Ok recps, (a3, w2))
    /\ to_dict a3 false false = Ok (_data a3)
    /\ clean_activity (_data a3) = Ok act
    /\ cleaned_dict (a3, w2) = (Ok act, (a4, w2))
    /\ Dict.get "id" act = Some (JStr (minted_uri Mem.backend w0))
    /\ (forall k, ~ In k ["id"; "object"; "bto"; "bcc"] ->
                  Dict.get k act = Dict.get k (_data sample_create))
    /\ Dict.mem "bto" act = false
    /\ Dict.mem "bcc" act = false
    /\ (Dict.get "type" act = Some (JStr "Create") ->
        forall o, Dict.get "object" act = Some (JDict o) ->
                  Dict.mem "bto" o = false /\ Dict.mem "bcc" o = false)
    /\ try_except (s <- self ;;
                   p <- liftW (get_actor RT s) ;;
                   _post_to_outbox RT p (minted_id Mem.backend w0) act recps)%st
                  is_NotImplementedError (ret tt) (a4, w2)
       = (Ok tt, (self_after create_posted, w5))
    /\ trace w5 = trace w2 ++ quiet
    /\ forallb (fun c => negb (is_post c)) quiet = true
    /\ List.length senders = List.length recps
    /\ Forall (fun s => exists wx,
                   get_actor RT (self_after create_posted) wx = (Ok s, wx)) senders
    /\ trace (world_after create_posted)
       = trace w0 ++ Call outbox_new actor a2 :: quiet
         ++ deliveries payload senders recps.
Proof.
  exact (@post_to_outbox_delivery _ RT Mem.backend eq_refl sample_create w0
           (self_after create_posted) (world_after create_posted) eq_refl).
Defined.

(** The sample [Create] has two recipients with one shared inbox and one
    hidden recipient with an inbox of its own: three resolved recipients
    would be two endpoints, and the deliveries recorded are as many. *)
Lemma sample_create_is_delivered_to_each :
  List.length (filter is_post (trace (world_after create_posted)))
  = List.length (got [] (recipients RT (sample_create, w0))).
Proof. vm_compute. reflexivity. Qed.

(** ** The inbox pipeline, class by class *)

Section InboxByClass.

Context {St : Type} (R : Runtime St) (b : Backend St).
Hypothesis Hb : BACKEND R = Some b.

Lemma get_object_raw_cached parse a (w : world St) o a' w' :
  get_object_raw R parse (a, w) = (Ok (inl o), (a', w')) ->
  obj_cache a' = Some o.
Proof.
  unfold get_object_raw. intros E.
  apply bind_Ok in E. destruct E as ([] & [a2 w2] & Eg & E).
  apply liftW_Ok in Eg. destruct Eg as [-> Eg].
  apply bind_Ok in E. destruct E as (s & st & Es & E).
  apply self_Ok in Es. destruct Es as [-> ->]. cbn [fst] in E.
  assert (Hres : resolve_object R parse (a, w2) = (Ok (inl o), (a', w')) ->
                 obj_cache a' = Some o).
  { intros Er. destruct (resolve_object_Ok _ _ _ _ Er) as (p & a3 & Ei & -> & _).
    inversion Ei; subst p. destruct a3; reflexivity. }
  destruct (obj_slot a) as [[o0|]|] eqn:Ec.
  - apply ret_Ok in E. destruct E as [E1 E2]. inversion E1; inversion E2; subst.
    unfold obj_cache. now rewrite Ec.
  - exact (Hres E).
  - cbv zeta in E.
    destruct (truthy (getattr_data a "_BaseActivity__obj")); [discriminate|].
    exact (Hres E).
Qed.

Lemma get_object_from_cache a (w : world St) o :
  obj_cache a = Some o ->
  get_object R (parse R) (a, w) = (Ok o, (a, w)).
Proof.
  intros Hc. unfold get_object, get_object_raw.
  unfold bind at 1. unfold bind at 1. unfold liftW at 1. cbn [fst snd].
  rewrite (guard_run R Hb). unfold bind at 1. unfold self at 1. cbn [fst snd].
  unfold obj_cache in Hc. destruct (obj_slot a) as [[o2|]|]; inversion Hc.
  reflexivity.
Qed.

(** The pipeline once the sender is found neither blocked nor a duplicate,
    for a class without a pre-inbox hook. *)
Lemma process_from_inbox_no_pre_hook p a (w : world St) actor :
  get_actor R a w = (Ok actor, w) ->
  outbox_is_blocked b (store w) p (attr_id actor) = false ->
  inbox_get_by_iri b (store w) p (attr_id a) = false ->
  type_in (ACTIVITY_TYPE a) [ACCEPT; UNDO; UPDATE; DELETE] = false ->
  process_from_inbox R p (a, w)
  = try_except (_process_from_inbox R p) is_NotImplementedError (ret tt)
               (a, after_call b (Call inbox_new p a) w).
Proof.
  intros Ha Hbl Hd Hc.
  rewrite (process_from_inbox_checks R Hb p a Ha), Hbl, Hd.
  unfold bind at 1.
  assert (E1 : try_except (_pre_process_from_inbox R p) is_NotImplementedError
                          (ret tt) (a, w) = (Ok tt, (a, w))).
  { unfold try_except, _pre_process_from_inbox, bind, self. cbn [fst snd].
    destruct (ACTIVITY_TYPE a); try reflexivity; discriminate. }
  rewrite E1. unfold bind at 1. now rewrite (bk_call_run R Hb).
Qed.

(** An activity from a sender that is not blocked, not yet in the inbox, of
    a class whose hooks go straight to the backend: it is stored with
    [inbox_new] and then recorded by the call of its class, [inbox_like] for
    a [Like], [inbox_create] for a [Create], [inbox_announce] for an
    [Announce] unless its object is a string that does not start with
    [http].  An activity of a class without hooks, a [Block] among them, is
    stored and nothing else. *)
Theorem inbox_records_by_class p a (w : world St) actor :
  get_actor R a w = (Ok actor, w) ->
  outbox_is_blocked b (store w) p (attr_id actor) = false ->
  inbox_get_by_iri b (store w) p (attr_id a) = false ->
  let stored := after_call b (Call inbox_new p a) w in
  (ACTIVITY_TYPE a = LIKE ->
   process_from_inbox R p (a, w)
   = (Ok tt, (a, after_call b (Call inbox_like p a) stored)))
  /\ (ACTIVITY_TYPE a = CREATE ->
      process_from_inbox R p (a, w)
      = (Ok tt, (a, after_call b (Call inbox_create p a) stored)))
  /\ (ACTIVITY_TYPE a = ANNOUNCE ->
      forall o, Dict.get "object" (_data a) = Some o ->
                (forall u, o = JStr u -> String.prefix "http" u = true) ->
      process_from_inbox R p (a, w)
      = (Ok tt, (a, after_call b (Call inbox_announce p a) stored)))
  /\ (type_in (ACTIVITY_TYPE a) [PERSON; BLOCK; COLLECTION; IMAGE; TOMBSTONE; NOTE]
      = true ->
      process_from_inbox R p (a, w) = (Ok tt, (a, stored))).
Proof.
  intros Ha Hbl Hd stored.
  split; [|split; [|split]].
  - intros Hc. rewrite (process_from_inbox_no_pre_hook p a Ha Hbl Hd)
      by (rewrite Hc; reflexivity).
    unfold try_except, _process_from_inbox.
    unfold bind at 1. unfold self at 1. cbn [fst snd]. rewrite Hc.
    unfold bk_call_guarded, bind at 1. unfold liftW at 1. cbn [fst snd].
    rewrite (guard_run R Hb), (bk_call_run R Hb). reflexivity.
  - intros Hc. rewrite (process_from_inbox_no_pre_hook p a Ha Hbl Hd)
      by (rewrite Hc; reflexivity).
    unfold try_except, _process_from_inbox.
    unfold bind at 1. unfold self at 1. cbn [fst snd]. rewrite Hc.
    unfold bk_call_guarded, bind at 1. unfold liftW at 1. cbn [fst snd].
    rewrite (guard_run R Hb), (bk_call_run R Hb). reflexivity.
  - intros Hc o Ho Hu. rewrite (process_from_inbox_no_pre_hook p a Ha Hbl Hd)
      by (rewrite Hc; reflexivity).
    unfold try_except, _process_from_inbox.
    unfold bind at 1. unfold self at 1. cbn [fst snd]. rewrite Hc.
    unfold bind at 1. unfold lift_result at 1. cbn [py_getitem]. rewrite Ho.
    destruct o as [| | |u| |]; try (rewrite (bk_call_run R Hb); reflexivity).
    rewrite (Hu u eq_refl). cbn [negb]. rewrite (bk_call_run R Hb). reflexivity.
  - intros Hc. rewrite (process_from_inbox_no_pre_hook p a Ha Hbl Hd)
      by (destruct (ACTIVITY_TYPE a); try reflexivity; discriminate).
    unfold try_except, _process_from_inbox, bind, self. cbn [fst snd].
    destruct (ACTIVITY_TYPE a); try discriminate; reflexivity.
Qed.

End InboxByClass.

Lemma inbox_records_by_class_witness :
  process_from_inbox RT (person_of alice) (bob_creates_note, w0)
  = (Ok tt,
     (bob_creates_note,
      after_call Mem.backend (Call inbox_create (person_of alice) bob_creates_note)
        (after_call Mem.backend
           (Call inbox_new (person_of alice) bob_creates_note) w0))).
Proof.
  exact (proj1 (proj2 (@inbox_records_by_class _ RT Mem.backend eq_refl
                         (person_of alice) bob_creates_note w0 (person_of bob)
                         eq_refl eq_refl eq_refl)) eq_refl).
Defined.

(** ** Ownership of what is updated or deleted *)

Section InboxOwnership.

Context {St : Type} (R : Runtime St) (b : Backend St).
Hypothesis Hb : BACKEND R = Some b.

(** An inbound [Update] from a sender that is not blocked and not yet in the
    inbox, whose object resolves to an activity: when the actor of that
    object has the identifier of the actor of the [Update], the [Update] is
    stored with [inbox_new] and recorded with [inbox_update]; otherwise
    [BadActivityError] is raised and nothing is stored. *)
Theorem update_is_checked_against_its_object p a (w : world St) actor obj a1 oactor :
  ACTIVITY_TYPE a = UPDATE ->
  get_actor R a w = (Ok actor, w) ->
  outbox_is_blocked b (store w) p (attr_id actor) = false ->
  inbox_get_by_iri b (store w) p (attr_id a) = false ->
  get_object_raw R (parse R) (a, w) = (Ok (inl obj), (a1, w)) ->
  get_actor R obj w = (Ok oactor, w) ->
  process_from_inbox R p (a, w)
  = if py_eq (attr_id actor) (attr_id oactor)
    then (Ok tt, (a1, after_call b (Call inbox_update p a1)
                        (after_call b (Call inbox_new p a1) w)))
    else (Raise (BadActivityError CannotUpdate), (a1, w)).
Proof.
  intros Hc Ha Hbl Hd Ho Hoa.
  rewrite (process_from_inbox_checks R Hb p a Ha), Hbl, Hd.
  assert (Hs : same_identity a a1).
  { pose proof (@get_object_raw_keeps _ R same_identity same_identity_refl
                  same_identity_trans same_identity_cache same_identity_object (parse R)
                  (parse_readonly R) (a, w)) as [K _].
    now rewrite Ho in K. }
  assert (Ha1 : get_actor R a1 w = (Ok actor, w))
    by (eapply get_actor_Ok_ext; eauto).
  assert (E : try_except (_pre_process_from_inbox R p) is_NotImplementedError
                         (ret tt) (a, w)
              = if py_eq (attr_id actor) (attr_id oactor)
                then (Ok tt, (a1, w))
                else (Raise (BadActivityError CannotUpdate), (a1, w))).
  { unfold try_except, _pre_process_from_inbox.
    unfold bind at 1. unfold self at 1. cbn [fst snd]. rewrite Hc.
    unfold bind at 1. rewrite Ho.
    unfold bind at 1. unfold self at 1. cbn [fst snd].
    unfold bind at 1. unfold liftW at 1. cbn [fst snd]. rewrite Ha1.
    unfold check_same_actor, bind, liftW. cbn [fst snd]. rewrite Hoa.
    destruct (py_eq (attr_id actor) (attr_id oactor)); reflexivity. }
  unfold bind at 1. rewrite E.
  destruct (py_eq (attr_id actor) (attr_id oactor)); [|reflexivity].
  unfold bind at 1. rewrite (bk_call_run R Hb).
  unfold try_except, _process_from_inbox.
  unfold bind at 1. unfold self at 1. cbn [fst snd].
  destruct Hs as (Hc1 & _). rewrite Hc1, Hc.
  unfold bk_call_guarded, bind at 1. unfold liftW at 1. cbn [fst snd].
  rewrite (guard_run R Hb), (bk_call_run R Hb). reflexivity.
Qed.

(** The same for an inbound [Delete], whose object is resolved through
    [_get_actual_object]: stored with [inbox_new] and recorded with
    [inbox_delete] when the actor of the object is the actor of the [Delete],
    refused with nothing stored otherwise. *)
Theorem delete_is_checked_against_its_object p a (w : world St) actor obj fresh
        a1 oactor :
  ACTIVITY_TYPE a = DELETE ->
  get_actor R a w = (Ok actor, w) ->
  outbox_is_blocked b (store w) p (attr_id actor) = false ->
  inbox_get_by_iri b (store w) p (attr_id a) = false ->
  _get_actual_object R (a, w) = (Ok (obj, fresh), (a1, w)) ->
  get_actor R obj w = (Ok oactor, w) ->
  process_from_inbox R p (a, w)
  = if py_eq (attr_id actor) (attr_id oactor)
    then (Ok tt, (a1, after_call b (Call inbox_delete p a1)
                        (after_call b (Call inbox_new p a1) w)))
    else (Raise (BadActivityError CannotDelete), (a1, w)).
Proof.
  intros Hc Ha Hbl Hd Ho Hoa.
  rewrite (process_from_inbox_checks R Hb p a Ha), Hbl, Hd.
  assert (Hs : same_identity a a1).
  { pose proof (@_get_actual_object_frames _ R same_identity (@eq (world St))
                  same_identity_refl same_identity_trans same_identity_cache
                  same_identity_object (@eq_refl _) (@eq_trans' _) (a, w)) as [K _].
    now rewrite Ho in K. }
  assert (Ha1 : get_actor R a1 w = (Ok actor, w))
    by (eapply get_actor_Ok_ext; eauto).
  assert (E : try_except (_pre_process_from_inbox R p) is_NotImplementedError
                         (ret tt) (a, w)
              = if py_eq (attr_id actor) (attr_id oactor)
                then (Ok tt, (a1, w))
                else (Raise (BadActivityError CannotDelete), (a1, w))).
  { unfold try_except, _pre_process_from_inbox.
    unfold bind at 1. unfold self at 1. cbn [fst snd]. rewrite Hc.
    unfold bind at 1. rewrite Ho.
    unfold bind at 1. unfold self at 1. cbn [fst snd].
    unfold bind at 1. unfold liftW at 1. cbn [fst snd]. rewrite Ha1.
    unfold check_same_actor, bind, liftW. cbn [fst snd]. rewrite Hoa.
    destruct (py_eq (attr_id actor) (attr_id oactor)); reflexivity. }
  unfold bind at 1. rewrite E.
  destruct (py_eq (attr_id actor) (attr_id oactor)); [|reflexivity].
  unfold bind at 1. rewrite (bk_call_run R Hb).
  unfold try_except, _process_from_inbox.
  unfold bind at 1. unfold self at 1. cbn [fst snd].
  destruct Hs as (Hc1 & _). rewrite Hc1, Hc.
  unfold bk_call_guarded, bind at 1. unfold liftW at 1. cbn [fst snd].
  rewrite (guard_run R Hb), (bk_call_run R Hb). reflexivity.
Qed.

End InboxOwnership.

Lemma update_is_checked_against_its_object_witness :
  process_from_inbox RT (person_of alice) (carol_updates_bobs_note, w0)
  = (Raise (BadActivityError CannotUpdate), (self_after update_object_resolved, w0)).
Proof.
  exact (@update_is_checked_against_its_object _ RT Mem.backend eq_refl
           (person_of alice) carol_updates_bobs_note w0 (person_of carol)
           parsed_note (self_after update_object_resolved) (person_of bob)
           eq_refl eq_refl eq_refl eq_refl eq_refl eq_refl).
Defined.

Lemma delete_is_checked_against_its_object_witness :
  process_from_inbox RT (person_of alice) (carol_deletes_bobs_note, w0)
  = (Raise (BadActivityError CannotDelete),
     (self_after deletion_object_resolved, w0)).
Proof.
  exact (@delete_is_checked_against_its_object _ RT Mem.backend eq_refl
           (person_of alice) carol_deletes_bobs_note w0 (person_of carol)
           parsed_note true (self_after deletion_object_resolved) (person_of bob)
           eq_refl eq_refl eq_refl eq_refl eq_refl eq_refl).
Defined.

(** ** Dispatch of an [Undo] *)

Lemma set_cache_same o a : obj_cache a = Some o -> set_cache (Some o) a = a.
Proof.
  destruct a as [c d [[o'|]|] x i]; cbn; intros H; inversion H. reflexivity.
Qed.

Lemma json_eqb_refl : forall a, json_eqb a a = true.
Proof.
  fix IH 1. intros a. destruct a as [|x|z|s|l|d]; simpl.
  - reflexivity.
  - apply Bool.eqb_reflx.
  - apply Z.eqb_refl.
  - apply String.eqb_refl.
  - induction l as [|x l IHl]; [reflexivity|]. now rewrite IH, IHl.
  - induction d as [|[k x] d IHd]; [reflexivity|].
    now rewrite String.eqb_refl, IH, IHd.
Qed.

(** A call that leaves the object as it was changes nothing of the receiver
    but its cache. *)
Lemma share_object_same o a : share_object o o a = a.
Proof.
  unfold share_object.
  destruct (Dict.get "object" (_data a)) as [[| | | | |d]|]; auto.
  unfold dget. destruct (Dict.get "object" (_data o)) as [v|]; auto.
  rewrite json_eqb_refl. now rewrite Bool.andb_false_r.
Qed.

Section UndoDispatch.

Context {St : Type} (R : Runtime St) (b : Backend St).
Hypothesis Hb : BACKEND R = Some b.

Lemma undo_hook_run (inbound : bool) p obj a (w : world St) :
  obj_cache a = Some obj ->
  try_except (on_object obj (if inbound then _undo_inbox R p else _undo_outbox R p))
             is_NotImplementedError (ret tt) (a, w)
  = (Ok tt, (a, undone b inbound p obj w)).
Proof.
  intros Hc.
  assert (E : (if inbound then _undo_inbox R p else _undo_outbox R p) (obj, w)
              = match undo_call inbound (ACTIVITY_TYPE obj) with
                | Some m => (Ok tt, (obj, after_call b (Call m p obj) w))
                | None => (Raise NotImplementedError, (obj, w))
                end).
  { destruct inbound; unfold _undo_inbox, _undo_outbox.
    all: unfold bind at 1; unfold self at 1; cbn [fst snd].
    all: destruct (ACTIVITY_TYPE obj); try reflexivity.
    all: unfold bk_call_guarded, bind at 1; unfold liftW at 1; cbn [fst snd].
    all: rewrite (guard_run R Hb), (bk_call_run R Hb); reflexivity. }
  unfold try_except, on_object, undone. cbn [fst snd]. rewrite E.
  destruct (undo_call inbound (ACTIVITY_TYPE obj)); cbn;
    now rewrite share_object_same, (set_cache_same _ Hc).
Qed.

(** An inbound [Undo] that passes the checks, whose object resolves to an
    activity of the same actor: the [Undo] is stored with [inbox_new], and
    then the object is undone by the call of its class, [undo_new_follower]
    for a [Follow], [inbox_undo_like] for a [Like], [inbox_undo_announce] for
    an [Announce], each for the receiving actor and the resolved object.  On
    the outbox side the post-outbox hook of the [Undo] makes the
    corresponding call, [undo_new_following], [outbox_undo_like] or
    [outbox_undo_announce]. *)
Theorem undo_is_dispatched_to_its_object p a (w : world St) actor obj a1 oactor :
  ACTIVITY_TYPE a = UNDO ->
  get_actor R a w = (Ok actor, w) ->
  outbox_is_blocked b (store w) p (attr_id actor) = false ->
  inbox_get_by_iri b (store w) p (attr_id a) = false ->
  get_object_raw R (parse R) (a, w) = (Ok (inl obj), (a1, w)) ->
  get_actor R obj w = (Ok oactor, w) ->
  py_eq (attr_id actor) (attr_id oactor) = true ->
  process_from_inbox R p (a, w)
  = (Ok tt, (a1, undone b true p obj (after_call b (Call inbox_new p a1) w)))
  /\ forall obj_id act recps w2,
       _post_to_outbox R p obj_id act recps (a1, w2)
       = (Ok tt, (a1, undone b false p obj w2)).
Proof.
  intros Hc Ha Hbl Hd Ho Hoa He.
  assert (Hcache : obj_cache a1 = Some obj)
    by (eapply get_object_raw_cached; exact Ho).
  assert (Hs : same_identity a a1).
  { pose proof (@get_object_raw_keeps _ R same_identity same_identity_refl
                  same_identity_trans same_identity_cache same_identity_object (parse R)
                  (parse_readonly R) (a, w)) as [K _].
    now rewrite Ho in K. }
  assert (Hc1 : ACTIVITY_TYPE a1 = UNDO) by (destruct Hs as (-> & _); exact Hc).
  split.
  - rewrite (process_from_inbox_checks R Hb p a Ha), Hbl, Hd.
    assert (Ha1 : get_actor R a1 w = (Ok actor, w))
      by (eapply get_actor_Ok_ext; eauto).
    assert (E : try_except (_pre_process_from_inbox R p) is_NotImplementedError
                           (ret tt) (a, w) = (Ok tt, (a1, w))).
    { unfold try_except, _pre_process_from_inbox.
      unfold bind at 1. unfold self at 1. cbn [fst snd]. rewrite Hc.
      unfold bind at 1. rewrite Ho.
      unfold bind at 1. unfold self at 1. cbn [fst snd].
      unfold bind at 1. unfold liftW at 1. cbn [fst snd]. rewrite Ha1.
      unfold check_same_actor, bind, liftW. cbn [fst snd]. rewrite Hoa, He.
      reflexivity. }
    unfold bind at 1. rewrite E.
    unfold bind at 1. rewrite (bk_call_run R Hb).
    unfold try_except at 1. unfold _process_from_inbox.
    unfold bind at 1. unfold self at 1. cbn [fst snd]. rewrite Hc1.
    unfold bind at 1. rewrite (@get_object_from_cache _ R b Hb a1 _ obj Hcache).
    rewrite (@undo_hook_run true p obj a1 _ Hcache). reflexivity.
  - intros obj_id act recps w2. unfold _post_to_outbox.
    unfold bind at 1. unfold self at 1. cbn [fst snd]. rewrite Hc1.
    unfold bind at 1. rewrite (@get_object_from_cache _ R b Hb a1 _ obj Hcache).
    exact (@undo_hook_run false p obj a1 w2 Hcache).
Qed.

End UndoDispatch.

Lemma undo_is_dispatched_to_its_object_witness :
  fst (process_from_inbox RT (person_of alice) (bob_undoes_his_follow, w0)) = Ok tt
  /\ trace (world_after
              (process_from_inbox RT (person_of alice) (bob_undoes_his_follow, w0)))
     = [Call inbox_new (person_of alice) (self_after withdrawal_object_resolved);
        Call undo_new_follower (person_of alice)
             (object_got withdrawal_object_resolved)].
Proof.
  rewrite (proj1 (@undo_is_dispatched_to_its_object _ RT Mem.backend eq_refl
                    (person_of alice) bob_undoes_his_follow w0 (person_of bob)
                    (object_got withdrawal_object_resolved)
                    (self_after withdrawal_object_resolved) (person_of bob)
                    eq_refl eq_refl eq_refl eq_refl eq_refl eq_refl eq_refl)).
  split; reflexivity.
Defined.

(** ** Without a backend *)

(** While no backend is installed, every entry point that needs one raises
    [UninitializedBackendError] before it does anything: the activity and the
    world are as they were.  [use_backend] installs one, which [get_backend]
    then returns. *)
Theorem nothing_runs_without_a_backend {St} (R : Runtime St) p a obj (w : world St) :
  BACKEND R = None ->
  get_backend R w = (Raise UninitializedBackendError, w)
  /\ process_from_inbox R p (a, w) = (Raise UninitializedBackendError, (a, w))
  /\ post_to_outbox R (a, w) = (Raise UninitializedBackendError, (a, w))
  /\ recipients R (a, w) = (Raise UninitializedBackendError, (a, w))
  /\ get_object_raw R (parse R) (a, w) = (Raise UninitializedBackendError, (a, w))
  /\ get_actor R a w = (Raise UninitializedBackendError, w)
  /\ _validate_person R obj w = (Raise UninitializedBackendError, w)
  /\ Outbox_post R p (a, w) = (Raise UninitializedBackendError, (a, w))
  /\ forall b, get_backend (use_backend (Some b) R) w = (Ok b, w).
Proof.
  intros Hn.
  assert (G : forall w', guard R w' = (Raise UninitializedBackendError, w')).
  { intros w'. unfold guard. now rewrite Hn. }
  assert (Ga : get_actor R a w = (Raise UninitializedBackendError, w)).
  { unfold get_actor. unfold bind at 1. now rewrite G. }
  repeat split.
  - unfold get_backend. now rewrite Hn.
  - unfold process_from_inbox. unfold bind at 1. unfold liftW. cbn [fst snd].
    now rewrite G.
  - unfold post_to_outbox. unfold bind at 1. unfold liftW. cbn [fst snd].
    now rewrite G.
  - unfold recipients. unfold bind at 1. unfold liftW. cbn [fst snd].
    now rewrite G.
  - unfold get_object_raw. unfold bind at 1. unfold liftW. cbn [fst snd].
    now rewrite G.
  - exact Ga.
  - unfold _validate_person. unfold bind at 1. now rewrite G.
  - unfold Outbox_post. unfold bind at 1. unfold self at 1. cbn [fst snd].
    unfold bind at 1. unfold liftW. cbn [fst snd]. now rewrite Ga.
Qed.

Lemma nothing_runs_without_a_backend_witness :
  post_to_outbox (use_backend None RT) (sample_follow, w0)
  = (Raise UninitializedBackendError, (sample_follow, w0))
  /\ get_backend (use_backend (Some Mem.backend) (use_backend None RT)) w0
     = (Ok Mem.backend, w0).
Proof.
  destruct (@nothing_runs_without_a_backend _ (use_backend None RT)
              (person_of alice) sample_follow (JStr alice) w0 eq_refl)
    as (_ & _ & H & _ & _ & _ & _ & _ & G).
  split; [exact H|exact (G Mem.backend)].
Defined.

(** ** The outbox of an actor *)

(** [Outbox.post] refuses an activity whose actor has another identifier
    than the owner of the box: it raises [ValueError], and neither the
    activity nor the world has changed. *)
Theorem outbox_refuses_another_actor {St} (R : Runtime St) box s actor
        (w : world St) :
  get_actor R s w = (Ok actor, w) ->
  py_eq (attr_id actor) (attr_id box) = false ->
  Outbox_post R box (s, w) = (Raise ValueError, (s, w)).
Proof.
  intros Ha Hne. unfold Outbox_post.
  unfold bind at 1. unfold self at 1. cbn [fst snd].
  unfold bind at 1. unfold liftW at 1. cbn [fst snd]. rewrite Ha, Hne.
  cbn [negb]. unfold bind, liftW. cbn [fst snd]. now rewrite Ha.
Qed.

Lemma outbox_refuses_another_actor_witness :
  Outbox_post RT (person_of bob) (sample_note, w0)
  = (Raise ValueError, (sample_note, w0)).
Proof.
  exact (@outbox_refuses_another_actor _ RT (person_of bob) sample_note
           (person_of alice) w0 eq_refl eq_refl).
Defined.

Lemma new_shape {St} (R : Runtime St) t kwargs (w : world St) a w' :
  new R t kwargs w = (Ok a, w') ->
  ACTIVITY_TYPE a = t /\ ctx_of a = CtxDict /\ id_attr a = None /\ w' = w.
Proof.
  intros H.
  pose proof (readonly_run w (new_readonly R t kwargs)) as Ew.
  rewrite H in Ew. cbn [snd] in Ew. subst w'.
  unfold new in H.
  set (P := match recursion_limit R with
            | O => fun _ => raise RecursionError
            | S m => fun p => parse_activity_with (new_n R m) p None
            end).
  assert (H' : __init__ R (_init R P t) t kwargs w = (Ok a, w)).
  { unfold P. destruct (recursion_limit R); exact H. }
  clear H.
  destruct (@__init___inv _ R (_init R P t) t kwargs w a w
              (fun kw s r s' => @_init_returns_None _ R P t kw s r s') H')
    as (kw1 & d0 & k0 & d1 & k1 & d2 & k2 & c & s1 & w1
        & _ & _ & _ & _ & _ & _ & _ & E7 & ->).
  pose proof (@_init_hook_frame _ R P t (Dict.remove "@context" k2)
                (fun p => new_n_hook_readonly R (recursion_limit R) p)) as K0.
  assert (K : keeps (pairR hook_frame (@eq (world St)))
                (try_except (_init R P t (Dict.remove "@context" k2))
                            is_NotImplementedError (ret None))).
  { apply keeps_try_except; [|exact K0|].
    - intros x y z [A1 A2] [B1 B2]. split; [|congruence].
      eapply hook_frame_trans; eauto.
    - intros x. split; [apply hook_frame_refl|reflexivity]. }
  match type of E7 with
  | snd (try_except ?m ?sel ?h ?s) = _ => specialize (K s); rewrite E7 in K
  end.
  destruct K as [(K1 & K2 & K3 & _) _]. cbn in K1, K2, K3.
  destruct s1 as [cl dd oo xx ii]. cbn in *. auto.
Qed.

Section OutboxOfANote.

Context {St : Type} (R : Runtime St) (b : Backend St).
Hypothesis Hb : BACKEND R = Some b.

Lemma build_create_shape s (w : world St) c s1 w1 :
  build_create R (s, w) = (Ok c, (s1, w1)) ->
  ACTIVITY_TYPE s = NOTE /\ s1 = s /\ w1 = w
  /\ ACTIVITY_TYPE c = CREATE /\ ctx_of c = CtxWeak (Some s).
Proof.
  unfold build_create. intros H.
  apply bind_Ok in H. destruct H as (s0 & st & E0 & H).
  apply self_Ok in E0. destruct E0 as [-> ->]. cbn [fst] in H.
  destruct (ACTIVITY_TYPE s) eqn:Ec.
  all: try (apply bind_Ok in H; destruct H as (x & st & E & _);
            apply lift_result_Ok in E; destruct E as [E _]; discriminate).
  apply bind_Ok in H. destruct H as (d & st & E1 & H).
  apply lift_result_Ok in E1. destruct E1 as [_ ->].
  apply bind_Ok in H. destruct H as (c0 & [s2 w2] & E2 & H).
  apply liftW_Ok in E2. destruct E2 as [-> E2].
  apply new_shape in E2. destruct E2 as (Hc & _ & _ & ->).
  apply bind_Ok in H. destruct H as ([r c1] & [s3 w3] & E3 & H).
  apply liftW_Ok in E3. destruct E3 as [-> E3].
  unfold call_on, set_ctx, modify_self in E3. cbn [fst snd] in E3.
  inversion E3; subst r c1 w3. clear E3.
  apply ret_Ok in H. destruct H as [Ec' E]. cbn [snd] in Ec'. subst c.
  inversion E; subst s1 w1.
  destruct c0 as [cl dd oo xx ii]. cbn in *. auto.
Qed.

(** The identifier callback of a [Create] that refers to the note it was
    built from: when it returns, the note referred to has the identifier of
    the object as its [id] attribute. *)
Lemma outbox_set_id_Create_of_note uri obj_id c note (w : world St) c' w' :
  ACTIVITY_TYPE c = CREATE ->
  ctx_of c = CtxWeak (Some note) ->
  ACTIVITY_TYPE note = NOTE ->
  outbox_set_id uri obj_id (c, w) = (Ok tt, (c', w')) ->
  ctx_of c' = CtxWeak (Some (set_id_attr (JStr (uri ++ "/activity")) note)).
Proof.
  intros Hc Hx Hn. destruct c as [cl d o x i]. cbn in Hc, Hx. subst cl x.
  unfold outbox_set_id, set_data_field.
  unfold bind at 1. unfold modify_self at 1. cbn [fst snd set_data _data].
  unfold try_except, _outbox_set_id.
  unfold bind at 1. unfold self at 1. cbn [fst snd ACTIVITY_TYPE].
  unfold bind at 1. rewrite set_object_field_run. cbn [_data py_getitem].
  destruct (Dict.get "object" (Dict.set "id" (JStr uri) d)) as [ob|];
    [|intros H; cbn in H; discriminate].
  destruct ob as [| | | | |od]; try (intros H; cbn in H; discriminate).
  cbn [py_setitem set_data].
  unfold bind at 1. unfold ctx at 1. unfold bind at 1. unfold self at 1.
  cbn [fst snd ctx_of ret]. rewrite Hn.
  change (ActivityType_eqb NOTE NOTE) with true. cbn iota.
  unfold bind at 1. unfold bind at 1. unfold self at 1. cbn [fst snd].
  unfold bind at 1. unfold lift_result at 1. cbn [_data py_getitem].
  rewrite get_set_same.
  unfold bind at 1. unfold lift_result at 1. cbn [py_getitem].
  rewrite get_set_same.
  unfold modify_self. cbn [fst snd set_ctx_slot set_cache].
  intros H. inversion H. reflexivity.
Qed.

Lemma same_ctx_publish obj_id :
  keeps (pairR same_ctx (@anything (world St))) (outbox_publish R obj_id).
Proof.
  apply outbox_publish_frames.
  - intros a. reflexivity.
  - intros x y z A B. unfold same_ctx in *. congruence.
  - intros o a. destruct a. reflexivity.
  - intros v a. destruct a. reflexivity.
  - intros w. exact Logic.I.
  - intros x y z _ _. exact Logic.I.
  - intros m p a _ s. exact Logic.I.
  - intros p pl r s. exact Logic.I.
Qed.

(** [Outbox.post] of a note wraps it in a [Create] that refers to it and
    posts the [Create].  When the call returns, the note is the one it was
    with an [id] attribute added: the address minted for the [Create]
    followed by [/activity].  Its [_data] is as before, so it still has no
    [id] entry of its own if it had none. *)
Theorem outbox_post_gives_the_note_its_id box s (w : world St) s' w' :
  ACTIVITY_TYPE s = NOTE ->
  Outbox_post R box (s, w) = (Ok tt, (s', w')) ->
  s' = set_id_attr (JStr (minted_uri b w ++ "/activity")) s
  /\ _data s' = _data s.
Proof.
  intros Hn H.
  assert (E : s' = set_id_attr (JStr (minted_uri b w ++ "/activity")) s).
  2: { split; [exact E|]. subst s'. destruct s; reflexivity. }
  unfold Outbox_post in H.
  apply bind_Ok in H. destruct H as (s0 & st & E0 & H).
  apply self_Ok in E0. destruct E0 as [-> ->]. cbn [fst] in H.
  apply bind_Ok in H. destruct H as (actor & [s1 w1] & Ea & H).
  apply liftW_Ok in Ea. destruct Ea as [-> Ea].
  pose proof (readonly_run w (get_actor_readonly R s)) as Ew.
  rewrite Ea in Ew. cbn [snd] in Ew. subst w1.
  destruct (negb (py_eq (attr_id actor) (attr_id box))).
  { apply bind_Ok in H. destruct H as (x & st & _ & H). discriminate. }
  rewrite Hn in H. change (ActivityType_eqb NOTE NOTE) with true in H. cbn iota in H.
  apply bind_Ok in H. destruct H as (c & [s2 w2] & Ec & H).
  apply build_create_shape in Ec. destruct Ec as (_ & -> & -> & Hcc & Hcx).
  apply bind_Ok in H. destruct H as ([r c'] & [s3 w3] & Ep & H).
  apply liftW_Ok in Ep. destruct Ep as [-> Ep].
  unfold call_on in Ep.
  destruct (post_to_outbox R (c, w)) as [r0 [c0 w0']] eqn:Epost.
  inversion Ep; subst r0 c0 w0'. clear Ep. cbn [fst snd] in H.
  apply bind_Ok in H. destruct H as ([] & [s4 w4] & Eput & H).
  apply lift_result_Ok in H. destruct H as [-> H]. inversion H; subst s4 w4. clear H.
  rewrite (post_to_outbox_run R Hb) in Epost.
  apply bind_Ok in Epost. destruct Epost as ([] & [c1 w1] & Eid & Epub).
  pose proof (@outbox_set_id_Create_of_note _ _ c s _ c1 w1 Hcc Hcx Hn Eid) as Hx1.
  pose proof (same_ctx_publish (minted_id b w) (c1, w1)) as [K _].
  rewrite Epub in K. cbn [fst snd] in K. unfold same_ctx in K.
  rewrite K, Hx1 in Eput. unfold put_self in Eput. cbn [fst snd] in Eput.
  inversion Eput. reflexivity.
Qed.

End OutboxOfANote.

Lemma outbox_post_gives_the_note_its_id_witness :
  self_after note_posted
  = set_id_attr (JStr (minted_uri Mem.backend w0 ++ "/activity")) sample_note
  /\ _data (self_after note_posted) = _data sample_note.
Proof.
  exact (@outbox_post_gives_the_note_its_id _ RT Mem.backend eq_refl
           (person_of alice) sample_note w0 (self_after note_posted)
           (world_after note_posted) eq_refl eq_refl).
Defined.

(** ** The context of an activity that is parsed again *)

Lemma set_present k v d : Dict.get k d = Some v -> Dict.set k v d = d.
Proof.
  induction d as [|[k' v'] r IH]; cbn; [discriminate|].
  destruct (String.eqb_spec k k') as [->|N].
  - intros H. now inversion H.
  - intros H. now rewrite IH.
Qed.

Lemma inject_terms_nonempty l c : inject_terms l = Ok c -> c <> [].
Proof.
  destruct l as [|x [|y r]]; cbn.
  - discriminate.
  - destruct x; intros H; inversion H; discriminate.
  - destruct (match r with [] => _ | _ => _ end); cbn; intros H; inversion H;
      discriminate.
Qed.

Lemma inject_terms_cons x y r :
  inject_terms (x :: y :: r) = (r' <~ inject_terms (y :: r) ;; Ok (x :: r'))%st.
Proof. reflexivity. Qed.

Lemma inject_terms_idempotent l :
  forall c, inject_terms l = Ok c -> inject_terms c = Ok c.
Proof.
  induction l as [|x [|y r] IH]; intros c H.
  - discriminate.
  - assert (T : forall d,
               inject_terms
                 [JDict (Dict.set "sensitive" (JStr "as:sensitive")
                           (Dict.set "Hashtag" (JStr "as:Hashtag") d))]
               = Ok [JDict (Dict.set "sensitive" (JStr "as:sensitive")
                              (Dict.set "Hashtag" (JStr "as:Hashtag") d))]).
    { intros d. cbn [inject_terms]. do 3 f_equal.
      rewrite (@set_present "Hashtag" (JStr "as:Hashtag")).
      - apply set_present. apply get_set_same.
      - rewrite get_set_other by discriminate. apply get_set_same. }
    cbn in H. destruct x; inversion H; subst c; clear H; try apply T.
    all: rewrite inject_terms_cons; change hashtag_terms with
        (Dict.set "sensitive" (JStr "as:sensitive")
           (Dict.set "Hashtag" (JStr "as:Hashtag") [])); rewrite T; reflexivity.
  - rewrite inject_terms_cons in H.
    apply rbind_Ok in H. destruct H as (r' & Hr & H). inversion H; subst c. clear H.
    pose proof (inject_terms_nonempty _ Hr) as Hne.
    specialize (IH r' Hr).
    destruct r' as [|z r']; [contradiction|].
    rewrite inject_terms_cons, IH. reflexivity.
Qed.

Lemma inject_terms_keeps_string s l :
  forall c, inject_terms l = Ok c ->
            py_in (JStr s) l = true -> py_in (JStr s) c = true.
Proof.
  induction l as [|x [|y r] IH]; intros c H Hin.
  - discriminate.
  - cbn in H. destruct x; inversion H; subst c; clear H; cbn in Hin |- *;
      try (rewrite Bool.orb_false_r in Hin; rewrite Hin; reflexivity);
      discriminate.
  - rewrite inject_terms_cons in H.
    apply rbind_Ok in H. destruct H as (r' & Hr & H). inversion H; subst c. clear H.
    change (py_in (JStr s) (x :: y :: r))
      with (py_eq (JStr s) x || py_in (JStr s) (y :: r)) in Hin.
    change (py_in (JStr s) (x :: r')) with (py_eq (JStr s) x || py_in (JStr s) r').
    destruct (py_eq (JStr s) x); [reflexivity|]. cbn [orb] in *.
    now apply IH.
Qed.

(** The context list a constructor stores is a fixed point of its own
    normalization: given back as the [@context] argument, as it is when the
    serialized activity is parsed again, it is stored unchanged, so the list
    does not grow from one round to the next. *)
Theorem normalize_context_is_stable kwargs c rest :
  normalize_context kwargs = Ok c ->
  Dict.get "@context" rest = Some (JList c) ->
  normalize_context rest = Ok c.
Proof.
  unfold normalize_context. intros H Hr. rewrite Hr.
  cbv zeta in H.
  match type of H with
  | inject_terms (if py_in _ ?l then _ else _) = _ => set (l0 := l) in *
  end.
  assert (Hin : py_in (JStr CTX_SECURITY) c = true).
  { eapply inject_terms_keeps_string; [exact H|].
    destruct (py_in (JStr CTX_SECURITY) l0) eqn:E; [exact E|].
    rewrite py_in_app. cbn. now rewrite Bool.orb_true_r. }
  rewrite Hin. eapply inject_terms_idempotent; eauto.
Qed.

Lemma normalize_context_is_stable_witness :
  normalize_context (_data custom_context_person)
  = Ok [JStr "https://example.org/custom"; JStr CTX_SECURITY; JDict hashtag_terms].
Proof.
  exact (@normalize_context_is_stable custom_context_kwargs
           [JStr "https://example.org/custom"; JStr CTX_SECURITY; JDict hashtag_terms]
           (_data custom_context_person) eq_refl eq_refl).
Defined.

(** ** [clean_activity], case by case *)

Lemma remove_absent k d : Dict.get k d = None -> Dict.remove k d = d.
Proof.
  unfold Dict.remove. induction d as [|[k' v'] r IH]; cbn; auto.
  destruct (String.eqb_spec k k'); [discriminate|].
  intros H. cbn. now rewrite IH.
Qed.

Lemma remove_if_mem k d :
  (if Dict.mem k d then Dict.remove k d else d) = Dict.remove k d.
Proof.
  unfold Dict.mem. destruct (Dict.get k d) eqn:E; [reflexivity|].
  symmetry. now apply remove_absent.
Qed.

Lemma remove_set_other k k' v d :
  k <> k' -> Dict.remove k (Dict.set k' v d) = Dict.set k' v (Dict.remove k d).
Proof.
  intros N. unfold Dict.remove.
  induction d as [|[k0 v0] r IH]; cbn.
  - destruct (String.eqb_spec k k'); [contradiction|reflexivity].
  - destruct (String.eqb_spec k' k0) as [->|N0]; cbn.
    + destruct (String.eqb_spec k k0); [contradiction|]. cbn.
      now rewrite String.eqb_refl.
    + destruct (String.eqb_spec k k0); cbn.
      * exact IH.
      * destruct (String.eqb_spec k' k0); [contradiction|]. now rewrite IH.
Qed.

Lemma set_set k v v' d : Dict.set k v (Dict.set k v' d) = Dict.set k v d.
Proof.
  induction d as [|[k0 v0] r IH]; cbn.
  - now rewrite String.eqb_refl.
  - destruct (String.eqb_spec k k0); cbn.
    + now rewrite String.eqb_refl.
    + destruct (String.eqb_spec k k0); [contradiction|]. now rewrite IH.
Qed.

Lemma clean_field_eq field d :
  clean_field field d
  = match Dict.get "type" (Dict.remove field d) with
    | None => Raise (KeyError "type")
    | Some ty =>
        if py_eq ty (JStr "Create") then
          match Dict.get "object" (Dict.remove field d) with
          | None => Raise (KeyError "object")
          | Some o =>
              (c <~ py_contains field o ;;
               if c then o' <~ py_delitem o field ;;
                         Ok (Dict.set "object" o' (Dict.remove field d))
               else Ok (Dict.remove field d))%st
          end
        else Ok (Dict.remove field d)
    end.
Proof.
  unfold clean_field. rewrite remove_if_mem. cbn [py_getitem rbind].
  destruct (Dict.get "type" (Dict.remove field d)) as [ty|]; [|reflexivity].
  cbn [rbind]. destruct (py_eq ty (JStr "Create")); [|reflexivity].
  destruct (Dict.get "object" (Dict.remove field d)); reflexivity.
Qed.

Lemma clean_field_inline field d o :
  field <> "type" -> field <> "object" ->
  Dict.get "type" d = Some (JStr "Create") ->
  Dict.get "object" d = Some (JDict o) ->
  clean_field field d
  = Ok (Dict.set "object" (JDict (Dict.remove field o)) (Dict.remove field d)).
Proof.
  intros N1 N2 Ht Ho. rewrite clean_field_eq.
  rewrite !get_remove_other by congruence. rewrite Ht, Ho.
  cbn [py_eq String.eqb Ascii.eqb Bool.eqb py_contains rbind py_delitem].
  destruct (Dict.mem field o) eqn:Em; [reflexivity|].
  unfold Dict.mem in Em. destruct (Dict.get field o) eqn:Eg; [discriminate|].
  rewrite (remove_absent _ _ Eg).
  rewrite set_present; [reflexivity|].
  rewrite get_remove_other by congruence. exact Ho.
Qed.

(** What [clean_activity] does, by the shape of the activity.  Without a
    [type] entry it raises [KeyError].  For a type other than [Create] it
    returns the activity without [bto] and [bcc].  For a [Create] it needs the
    [object] entry and raises [KeyError] without it; with an inline object it
    returns the activity and its object, both without [bto] and [bcc]; with an
    object given by a string that contains [bto] or [bcc], the membership
    test is a substring test and the deletion raises [TypeError]. *)
Theorem clean_activity_by_cases d :
  (Dict.get "type" d = None -> clean_activity d = Raise (KeyError "type"))
  /\ (forall ty, Dict.get "type" d = Some ty -> py_eq ty (JStr "Create") = false ->
        clean_activity d = Ok (without_hidden d))
  /\ (Dict.get "type" d = Some (JStr "Create") ->
      (Dict.get "object" d = None -> clean_activity d = Raise (KeyError "object"))
      /\ (forall o, Dict.get "object" d = Some (JDict o) ->
            clean_activity d
            = Ok (Dict.set "object" (JDict (without_hidden o)) (without_hidden d)))
      /\ (forall u, Dict.get "object" d = Some (JStr u) ->
            clean_activity d
            = if str_contains "bto" u || str_contains "bcc" u
              then Raise TypeError else Ok (without_hidden d))).
Proof.
  unfold clean_activity, without_hidden. split; [|split].
  - intros Ht. rewrite clean_field_eq, get_remove_other, Ht by discriminate.
    reflexivity.
  - intros ty Ht Hc. rewrite clean_field_eq, get_remove_other, Ht, Hc by discriminate.
    cbn [rbind]. rewrite clean_field_eq, !get_remove_other, Ht, Hc by discriminate.
    reflexivity.
  - intros Ht. split; [|split].
    + intros Ho. rewrite clean_field_eq, !get_remove_other, Ht, Ho by discriminate.
      reflexivity.
    + intros o Ho. rewrite (@clean_field_inline "bto" d o) by (discriminate || auto).
      cbn [rbind].
      rewrite (@clean_field_inline "bcc" _ (Dict.remove "bto" o)).
      * rewrite remove_set_other by discriminate. now rewrite set_set.
      * discriminate.
      * discriminate.
      * rewrite get_set_other, get_remove_other by discriminate. exact Ht.
      * apply get_set_same.
    + intros u Ho. rewrite clean_field_eq, !get_remove_other, Ht, Ho by discriminate.
      cbn [py_eq String.eqb Ascii.eqb Bool.eqb py_contains rbind py_delitem].
      destruct (str_contains "bto" u); [reflexivity|].
      cbn [rbind orb].
      rewrite clean_field_eq, !get_remove_other, Ht, Ho by discriminate.
      cbn [py_eq String.eqb Ascii.eqb Bool.eqb py_contains rbind py_delitem].
      destruct (str_contains "bcc" u); reflexivity.
Qed.

(** ** Validation of an actor *)

(** [_validate_person] with a backend installed, for an actor given by its
    identifier or by a [Person] document with one.  Whatever the backend
    raises for the identifier is reported as a [BadActivityError]; so is a
    document that is empty or has no [id].  Otherwise the result is the [id]
    of the document the backend returned, which is what the constructors
    store as [actor].  The world is never changed. *)
Theorem _validate_person_outcomes {St} (R : Runtime St) b obj i (w : world St) :
  BACKEND R = Some b ->
  _actor_id obj = Ok i ->
  (forall e, fetch_iri b (store w) i = Raise e ->
     _validate_person R obj w = (Raise (BadActivityError FailedToValidateActor), w))
  /\ (forall doc, fetch_iri b (store w) i = Ok (JDict doc) ->
        _validate_person R obj w
        = (match Dict.get "id" doc with
           | Some v => Ok v
           | None => Raise (BadActivityError InvalidActorFetched)
           end, w))
  /\ snd (_validate_person R obj w) = w.
Proof.
  intros Hb Hi.
  assert (E : _validate_person R obj w
              = (actor <- try_except (bk_fetch_iri R i) (fun _ => true)
                            (raise (BadActivityError FailedToValidateActor)) ;;
                 (if truthy actor then
                    has_id <- lift_result (py_contains "id" actor) ;;
                    if has_id then ret tt
                    else raise (BadActivityError InvalidActorFetched)
                  else raise (BadActivityError InvalidActorFetched)) ;;;
                 lift_result (py_getitem actor "id"))%st w).
  { unfold _validate_person. unfold bind at 1. rewrite (guard_run R Hb).
    unfold bind at 1. unfold lift_result at 1. rewrite Hi. reflexivity. }
  split; [|split].
  - intros e He. rewrite E. unfold bind at 1.
    unfold try_except, bk_fetch_iri, backend. now rewrite Hb, He.
  - intros doc Hd. rewrite E. unfold bind at 1.
    unfold try_except, bk_fetch_iri, backend. rewrite Hb, Hd.
    destruct doc as [|kv doc']; [reflexivity|].
    change (truthy (JDict (kv :: doc'))) with true. cbn iota.
    unfold bind, lift_result. cbn [py_contains py_getitem]. unfold Dict.mem.
    destruct (Dict.get "id" (kv :: doc')); reflexivity.
  - apply readonly_run, _validate_person_readonly.
Qed.

Lemma _validate_person_outcomes_witness :
  _validate_person RT (JStr bob) w0 = (Ok (JStr bob), w0)
  /\ _validate_person RT (JStr "https://nowhere.example/u/x") w0
     = (Raise (BadActivityError FailedToValidateActor), w0).
Proof.
  split.
  - exact (proj1 (proj2 (@_validate_person_outcomes _ RT Mem.backend (JStr bob)
                           (JStr bob) w0 eq_refl eq_refl))
                 _ eq_refl).
  - exact (proj1 (@_validate_person_outcomes _ RT Mem.backend
                    (JStr "https://nowhere.example/u/x")
                    (JStr "https://nowhere.example/u/x") w0 eq_refl eq_refl)
                 _ eq_refl).
Defined.

(** ** Wrapping a note in a [Create] *)

Lemma mem_set_other k k' v d : k <> k' -> Dict.mem k (Dict.set k' v d) = Dict.mem k d.
Proof. intros N. unfold Dict.mem. now rewrite get_set_other. Qed.

Lemma unique_keys_set k v d :
  unique_keys d = true -> unique_keys (Dict.set k v d) = true.
Proof.
  induction d as [|[k0 v0] r IH]; cbn; [reflexivity|].
  intros H. apply andb_prop in H. destruct H as [H1 H2].
  destruct (String.eqb_spec k k0) as [->|N]; cbn.
  - now rewrite H1, H2.
  - rewrite IH by assumption. rewrite mem_set_other by congruence.
    now rewrite H1.
Qed.

Lemma copy_fields_unique fields from :
  forall payload, unique_keys payload = true ->
                  unique_keys (copy_fields fields from payload) = true.
Proof.
  unfold copy_fields. induction fields as [|f r IH]; intros payload H; cbn; auto.
  apply IH. destruct (Dict.get f from); auto using unique_keys_set.
Qed.

Lemma copy_fields_other fields from k :
  ~ In k fields ->
  forall payload, Dict.get k (copy_fields fields from payload) = Dict.get k payload.
Proof.
  unfold copy_fields. induction fields as [|f r IH]; intros N payload; cbn; auto.
  rewrite IH by (intros Hin; apply N; now right).
  destruct (Dict.get f from); auto.
  apply get_set_other. intros ->. apply N. now left.
Qed.

Lemma copy_fields_copied fields from k :
  NoDup fields -> In k fields ->
  forall payload,
    Dict.get k (copy_fields fields from payload)
    = match Dict.get k from with
      | Some v => Some v
      | None => Dict.get k payload
      end.
Proof.
  unfold copy_fields. induction fields as [|f r IH]; intros Hn Hin payload;
    [contradiction|].
  inversion Hn; subst. cbn [fold_left]. destruct Hin as [->|Hin].
  - fold (copy_fields r from (match Dict.get k from with
                              | Some v => Dict.set k v payload
                              | None => payload end)).
    rewrite copy_fields_other by assumption.
    destruct (Dict.get k from); auto using get_set_same.
  - rewrite IH by assumption.
    destruct (Dict.get k from) as [v|] eqn:Ek; [reflexivity|].
    destruct (Dict.get f from); auto.
    apply get_set_other. intros ->. contradiction.
Qed.

(** [Note.build_create], when it returns: the result is a [Create] whose
    context reference points to the note; each of the addressing fields [to],
    [bto], [cc], [bcc] and [audience] is the one of the note, and is absent
    where the note has none or has [None]; the note and the world are
    unchanged. *)
Theorem build_create_copies_addressing {St} (R : Runtime St) s (w : world St)
        c s1 w1 :
  unique_keys (_data s) = true ->
  build_create R (s, w) = (Ok c, (s1, w1)) ->
  ACTIVITY_TYPE s = NOTE /\ s1 = s /\ w1 = w
  /\ ACTIVITY_TYPE c = CREATE
  /\ ctx_of c = CtxWeak (Some s)
  /\ forall f, In f addressing_fields ->
               Dict.get f (_data c) = stored_kwarg f (_data s).
Proof.
  intros Hu H.
  destruct (build_create_shape R _ _ H) as (Hn & -> & -> & Hc & Hx).
  repeat split; auto.
  intros f Hf. unfold build_create in H.
  apply bind_Ok in H. destruct H as (s0 & st & E0 & H).
  apply self_Ok in E0. destruct E0 as [-> ->]. cbn [fst] in H. rewrite Hn in H.
  apply bind_Ok in H. destruct H as (d & st & E1 & H).
  apply lift_result_Ok in E1. destruct E1 as [_ ->].
  apply bind_Ok in H. destruct H as (c0 & [s2 w2] & E2 & H).
  apply liftW_Ok in E2. destruct E2 as [-> E2].
  apply bind_Ok in H. destruct H as ([r c1] & [s3 w3] & E3 & H).
  apply liftW_Ok in E3. destruct E3 as [-> E3].
  unfold call_on, set_ctx, modify_self in E3. cbn [fst snd] in E3.
  inversion E3; subst r c1 w3. clear E3.
  apply ret_Ok in H. destruct H as [Ec' _]. cbn [snd] in Ec'. subst c.
  apply constructor_fields_of_new in E2.
  2: { apply copy_fields_unique. reflexivity. }
  destruct E2 as (_ & _ & _ & _ & Hk).
  assert (Ed : _data (set_ctx_slot (CtxWeak (Some s)) c0) = _data c0)
    by (destruct c0; reflexivity).
  rewrite Ed, Hk.
  2: { unfold addressing_fields, reserved_keys in *. cbn in Hf |- *.
       intuition (subst; discriminate). }
  unfold stored_kwarg.
  rewrite copy_fields_copied.
  - destruct (Dict.get f (_data s)) as [v|]; [reflexivity|].
    unfold addressing_fields in Hf. cbn in Hf.
    destruct Hf as [<-|[<-|[<-|[<-|[<-|[]]]]]]; reflexivity.
  - repeat constructor; cbn; intuition discriminate.
  - unfold addressing_fields in Hf. cbn in Hf |- *. tauto.
Qed.

Lemma build_create_copies_addressing_witness :
  ACTIVITY_TYPE sample_note = NOTE /\ sample_note = sample_note /\ w0 = w0
  /\ ACTIVITY_TYPE (returned create_built) = CREATE
  /\ ctx_of (returned create_built) = CtxWeak (Some sample_note)
  /\ forall f, In f addressing_fields ->
               Dict.get f (_data (returned create_built))
               = stored_kwarg f (_data sample_note).
Proof.
  exact (@build_create_copies_addressing _ RT sample_note w0
           (returned create_built) sample_note w0 eq_refl eq_refl).
Defined.
